(** * SceneResolver: a shallow embedding of the ingestion pipeline

    The development follows the three source modules:
    - [schemas.py]     : the pre-validators that normalise raw documents,
                         and the validated records built from them;
    - [resolver.py]    : identity resolution, world-state merging, [ingest];
    - [state_store.py] : [load_state] and [save_state].

    Python values are modelled by the type [json]; a Python [dict] is an
    association list that keeps insertion order and has at most one
    binding per key.  Exceptions are modelled by the type [exn] and the
    error monad [res].

    Library functions whose results the code only passes on are parameters
    of the sections that use them: [datetime.fromtimestamp],
    [datetime.fromisoformat], [datetime.isoformat], [str] and [==] on
    arbitrary values, [str.lower], [uuid4], [json.load] (which may raise
    [JSONDecodeError] or anything else, [RecursionError] for one), and the
    parsing and printing of a stored [SceneState].  Numbers are integers;
    [strip] and [split] work on ASCII text; [ingest] is given a dict, and a
    field declared [Dict[str, Any]] is taken to be valid only for a dict;
    the path of the state file can be examined, and writing the file always
    succeeds. *)

From Stdlib Require Import List String Ascii ZArith Lia Bool Arith.
From Stdlib Require Import Sorting.Sorted Sorting.Permutation.
From Stdlib Require Import Numbers.DecimalString.
Import ListNotations.
Local Open Scope string_scope.
Local Open Scope list_scope.
Set Warnings "-register-all".

(** ** Python values *)

(** [datetime]: a naive value is a count of microseconds on the local
    calendar; an aware one is an instant (microseconds, UTC) together with
    its offset.  Python refuses to order a naive value against an aware
    one. *)
Inductive datetime : Type :=
| Naive (us : Z)
| Aware (utc_us : Z) (offset : Z).

Inductive json : Type :=
| JNull
| JBool (b : bool)
| JNum (n : Z)
| JStr (s : string)
| JTime (t : datetime)
| JList (l : list json)
| JDict (d : list (string * json)).

Definition pydict := list (string * json).

(** Exceptions that the modelled code can raise. *)
Inductive exn : Type :=
| ValueError          (* raised by [ingest] for an invalid payload *)
| ValidationError     (* pydantic's collected validation failure *)
| AttributeError
| TypeError
| OverflowError
| OSError
| JSONDecodeError
| RecursionError
| UnicodeDecodeError.

Inductive res (A : Type) : Type :=
| Ok (a : A)
| Raise (e : exn).
Arguments Ok {A} a.
Arguments Raise {A} e.

Definition bind {A B} (m : res A) (f : A -> res B) : res B :=
  match m with
  | Ok a => f a
  | Raise e => Raise e
  end.

Notation "x <- m ;; k" := (bind m (fun x => k))
  (at level 61, m at next level, right associativity).

(** Python truthiness of a value. *)
Definition truthy (v : json) : bool :=
  match v with
  | JNull => false
  | JBool b => b
  | JNum n => negb (Z.eqb n 0)
  | JStr s => negb (String.eqb s "")
  | JTime _ => true
  | JList l => match l with [] => false | _ => true end
  | JDict d => match d with [] => false | _ => true end
  end.

(** [a or b] *)
Definition py_or (a b : json) : json := if truthy a then a else b.

(** ** Dictionaries *)

Module Dict.

Fixpoint lookup {V} (k : string) (d : list (string * V)) : option V :=
  match d with
  | [] => None
  | (k', v) :: d' => if String.eqb k k' then Some v else lookup k d'
  end.

Definition mem {V} (k : string) (d : list (string * V)) : bool :=
  match lookup k d with Some _ => true | None => false end.

(** [d[k] = v]: an existing key keeps its position. *)
Fixpoint set {V} (k : string) (v : V) (d : list (string * V)) :=
  match d with
  | [] => [(k, v)]
  | (k', v') :: d' =>
      if String.eqb k k' then (k, v) :: d' else (k', v') :: set k v d'
  end.

(** [d.pop(k)] as far as the dictionary is concerned. *)
Fixpoint remove {V} (k : string) (d : list (string * V)) :=
  match d with
  | [] => []
  | (k', v') :: d' =>
      if String.eqb k k' then remove k d' else (k', v') :: remove k d'
  end.

(** [d.setdefault(k, v)] as far as the dictionary is concerned. *)
Definition setdefault {V} (k : string) (v : V) (d : list (string * V)) :=
  if mem k d then d else set k v d.

(** [d.update(e)] *)
Definition update {V} (d e : list (string * V)) : list (string * V) :=
  fold_left (fun acc kv => set (fst kv) (snd kv) acc) e d.

Definition keys {V} (d : list (string * V)) : list string := map fst d.

End Dict.

(** [d.get(k)], with [None] for a missing key. *)
Definition py_get (k : string) (d : pydict) : json :=
  match Dict.lookup k d with Some v => v | None => JNull end.

(** [d.get(k, default)] *)
Definition py_get_default (k : string) (d : pydict) (dflt : json) : json :=
  match Dict.lookup k d with Some v => v | None => dflt end.

Definition str_in (k : string) (ks : list string) : bool :=
  existsb (String.eqb k) ks.

(** ** schemas.py: the pre-validators *)

(** The loop shared by the three pre-validators:
<<
    for key in list(data.keys()):
        if key in known: continue
        metadata.setdefault(key, data.pop(key))
>>
    [metadata] is whatever [data.get("metadata") or {}] gave; calling
    [setdefault] on a value that is not a dict raises [AttributeError]. *)
Fixpoint relocate_loop (known : list string) (ks : list string)
         (data : pydict) (metadata : json) : res (pydict * json) :=
  match ks with
  | [] => Ok (data, metadata)
  | key :: ks' =>
      if str_in key known then relocate_loop known ks' data metadata
      else
        match metadata with
        | JDict m =>
            relocate_loop known ks' (Dict.remove key data)
              (JDict (Dict.setdefault key (py_get key data) m))
        | _ => Raise AttributeError
        end
  end.

(** [metadata = data.get("metadata") or {}] *)
Definition bag_of (data : pydict) : json :=
  py_or (py_get "metadata" data) (JDict []).

Definition relocate (known : list string) (data : pydict) : res pydict :=
  let metadata := bag_of data in
  r <- relocate_loop known (Dict.keys data) data metadata ;;
  Ok (Dict.set "metadata" (snd r) (fst r)).

Definition entity_known : list string :=
  ["id"; "name"; "type"; "appearance"; "attributes"; "metadata"].

(** [GeminiEntity._normalise_fields] *)
Definition GeminiEntity_normalise_fields (values : pydict) : res pydict :=
  let data := values in
  let data := Dict.setdefault "appearance"
                (py_get_default "looks" data (JDict [])) data in
  let data := Dict.setdefault "attributes"
                (py_get_default "state" data (JDict [])) data in
  relocate entity_known data.

(** [value in {s1, s2, ...}] for a set of strings: the value is hashed
    first, and lists and dicts are unhashable. *)
Definition in_str_set (v : json) (ks : list string) : res bool :=
  match v with
  | JStr s => Ok (str_in s ks)
  | JList _ | JDict _ => Raise TypeError
  | _ => Ok false
  end.

(** [[entry for entry in entities
      if isinstance(entry, dict) and entry.get("role") in roles]] *)
Fixpoint role_filter (roles : list string) (entities : list json)
  : res (list json) :=
  match entities with
  | [] => Ok []
  | entry :: rest =>
      match entry with
      | JDict d =>
          b <- in_str_set (py_get "role" d) roles ;;
          tl <- role_filter roles rest ;;
          Ok (if b then entry :: tl else tl)
      | _ => role_filter roles rest
      end
  end.

Definition event_known : list string :=
  ["event_id"; "id"; "timestamp"; "time"; "event_time"; "action"; "verb";
   "summary"; "description"; "actors"; "targets"; "participants";
   "subjects"; "entities"; "metadata"].

(** The [if not data.get("actors")] block of [_normalise_event]. *)
Definition adopt_participants (data : pydict) : pydict :=
  if negb (truthy (py_get "actors" data)) then
    match py_or (py_get "participants" data) (py_get "subjects" data) with
    | JList ps => Dict.set "actors" (JList ps) data
    | _ => data
    end
  else data.

(** The [if not data.get("targets")] block of [_normalise_event]. *)
Definition scavenge_entities (data : pydict) : res pydict :=
  if negb (truthy (py_get "targets" data)) then
    match py_or (py_get "entities" data) (JList []) with
    | JList entities =>
        target_like <- role_filter ["object"; "target"] entities ;;
        actor_like <- role_filter ["actor"; "subject"; "person"] entities ;;
        let data :=
          if truthy (JList actor_like) && negb (truthy (py_get "actors" data))
          then Dict.set "actors" (JList actor_like) data else data in
        let data :=
          if truthy (JList target_like)
             && negb (truthy (py_get "targets" data))
          then Dict.set "targets" (JList target_like) data else data in
        Ok data
    | _ => Ok data
    end
  else Ok data.

(** [GeminiEvent._normalise_event] *)
Definition GeminiEvent_normalise_event (values : pydict) : res pydict :=
  let data := values in
  let data := Dict.set "event_id"
                (py_or (py_get "event_id" data) (py_get "id" data)) data in
  let data := Dict.set "timestamp"
                (py_or (py_or (py_get "timestamp" data) (py_get "time" data))
                       (py_get "event_time" data)) data in
  let data := Dict.setdefault "action" (py_get "verb" data) data in
  let data := Dict.setdefault "summary" (py_get "description" data) data in
  let data := adopt_participants data in
  data <- scavenge_entities data ;;
  relocate event_known data.

Definition payload_known : list string :=
  ["events"; "timeline"; "entries"; "metadata"].

(** [GeminiPayload._normalise_payload] *)
Definition GeminiPayload_normalise_payload (values : pydict) : res pydict :=
  let data := values in
  let data := Dict.setdefault "events"
                (py_or (py_or (py_get "timeline" data) (py_get "entries" data))
                       (JList [])) data in
  relocate payload_known data.

(** The three pre-validators, their recognised keys, and the keys that
    they may write before the relocation loop. *)
Inductive normaliser : Type := OfPayload | OfEvent | OfEntity.

Definition normalise (n : normaliser) : pydict -> res pydict :=
  match n with
  | OfPayload => GeminiPayload_normalise_payload
  | OfEvent => GeminiEvent_normalise_event
  | OfEntity => GeminiEntity_normalise_fields
  end.

Definition known_of (n : normaliser) : list string :=
  match n with
  | OfPayload => payload_known
  | OfEvent => event_known
  | OfEntity => entity_known
  end.

Definition entity_touched : list string := ["appearance"; "attributes"].
Definition event_touched : list string :=
  ["event_id"; "timestamp"; "action"; "summary"; "actors"; "targets"].
Definition payload_touched : list string := ["events"].

(** [d'] agrees with [d] off the keys [ks]. *)
Definition agree_off (ks : list string) (d d' : pydict) : Prop :=
  forall k, str_in k ks = false -> Dict.lookup k d' = Dict.lookup k d.

(** ** schemas.py: the validated records *)

Record GeminiEntity : Type := mkGeminiEntity {
  ge_entity_id : option string;
  ge_name : option string;
  ge_type : option string;
  ge_appearance : pydict;
  ge_attributes : pydict;
  ge_metadata : pydict
}.

Record GeminiEvent : Type := mkGeminiEvent {
  gv_event_id : option string;
  gv_timestamp : datetime;
  gv_action : option string;
  gv_summary : option string;
  gv_actors : list GeminiEntity;
  gv_targets : list GeminiEntity;
  gv_metadata : pydict
}.

Record GeminiPayload : Type := mkGeminiPayload {
  gp_events : list GeminiEvent;
  gp_metadata : pydict
}.

Record EventActor : Type := mkEventActor {
  ea_entity_id : string;
  ea_name : option string;
  ea_type : string;
  ea_appearance : pydict;
  ea_attributes : pydict
}.

Record Event : Type := mkEvent {
  ev_id : string;
  ev_timestamp : datetime;
  ev_action : string;
  ev_summary : option string;
  ev_actor : option EventActor;
  ev_target : option EventActor;
  ev_metadata : pydict
}.

Record EntityState : Type := mkEntityState {
  es_entity_id : string;
  es_name : option string;
  es_type : string;
  es_appearance : pydict;
  es_attributes : pydict;
  es_last_event_id : option string;
  es_last_updated : datetime
}.

Record SceneState : Type := mkSceneState {
  timeline : list Event;
  world_state : list (string * EntityState)
}.

(** [SceneState()] *)
Definition empty_state : SceneState := mkSceneState [] [].

(** ** Strings *)

Definition lower_ascii (c : ascii) : ascii :=
  let n := nat_of_ascii c in
  if (65 <=? n)%nat && (n <=? 90)%nat then ascii_of_nat (n + 32) else c.

(** [s.lower()] on ASCII text: the instance of [str.lower] used where the
    text is known to be ASCII. *)
Fixpoint lower (s : string) : string :=
  match s with
  | EmptyString => EmptyString
  | String c s' => String (lower_ascii c) (lower s')
  end.

(** [s.startswith(p)] *)
Definition startswith (s p : string) : bool := String.prefix p s.

(** [s[:n]] *)
Definition take (n : nat) (s : string) : string := String.substring 0 n s.

(** [value.replace("Z", "+00:00")] *)
Fixpoint replace_Z (s : string) : string :=
  match s with
  | EmptyString => EmptyString
  | String c s' =>
      if Ascii.eqb c "Z"%char then "+00:00" ++ replace_Z s'
      else String c (replace_Z s')
  end.

(** [str(n)] for an integer. *)
Definition str_of_Z (n : Z) : string := NilZero.string_of_int (Z.to_int n).
Definition str_of_nat (n : nat) : string := str_of_Z (Z.of_nat n).

(** [Optional[str]] as a value again. *)
Definition ostr (o : option string) : json :=
  match o with Some s => JStr s | None => JNull end.

(** [o or d] for an optional string: [None] and [""] are falsy. *)
Definition ostr_or (o : option string) (d : string) : string :=
  match o with
  | Some s => if String.eqb s "" then d else s
  | None => d
  end.

Definition ostr_truthy (o : option string) : bool :=
  match o with
  | Some s => negb (String.eqb s "")
  | None => false
  end.

(** ** schemas.py: validation

    Validation follows pydantic: a pre-validator that raises [ValueError] or
    [TypeError] makes the model invalid; any other exception escapes at
    once.  The errors of the fields of a model, and of the items of a list,
    are collected: validation goes on after an invalid field, so an
    exception raised further on still escapes. *)

Inductive vres (A : Type) : Type :=
| Valid (a : A)
| Invalid
| Escapes (e : exn).
Arguments Valid {A} a.
Arguments Invalid {A}.
Arguments Escapes {A} e.

(** Validate [x], then [y], collecting. *)
Definition vboth {A B} (x : vres A) (y : vres B) : vres (A * B) :=
  match x with
  | Escapes e => Escapes e
  | Valid a =>
      match y with
      | Valid b => Valid (a, b)
      | Invalid => Invalid
      | Escapes e => Escapes e
      end
  | Invalid =>
      match y with
      | Escapes e => Escapes e
      | _ => Invalid
      end
  end.

Definition vmap {A B} (f : A -> B) (x : vres A) : vres B :=
  match x with
  | Valid a => Valid (f a)
  | Invalid => Invalid
  | Escapes e => Escapes e
  end.

Fixpoint vall {A} (xs : list (vres A)) : vres (list A) :=
  match xs with
  | [] => Valid []
  | x :: xs' => vmap (fun p => fst p :: snd p) (vboth x (vall xs'))
  end.

(** The outcome of a pre-validator, as pydantic sees it. *)
Definition of_pre {A} (r : res A) : vres A :=
  match r with
  | Ok a => Valid a
  | Raise ValueError | Raise TypeError => Invalid
  | Raise e => Escapes e
  end.

(** What [parse_obj] does with the collected outcome. *)
Definition to_res {A} (v : vres A) : res A :=
  match v with
  | Valid a => Ok a
  | Invalid => Raise ValidationError
  | Escapes e => Raise e
  end.

(** A field of type [Optional[str]]; numbers are coerced with [str]. *)
Definition validate_opt_str (v : option json) : vres (option string) :=
  match v with
  | None | Some JNull => Valid None
  | Some (JStr s) => Valid (Some s)
  | Some (JNum n) => Valid (Some (str_of_Z n))
  | Some (JBool true) => Valid (Some "True")
  | Some (JBool false) => Valid (Some "False")
  | Some _ => Invalid
  end.

(** A field of type [Dict[str, Any]] with an empty default.  Only dicts
    are taken to be valid. *)
Definition validate_dict (v : option json) : vres pydict :=
  match v with
  | None => Valid []
  | Some (JDict d) => Valid d
  | Some _ => Invalid
  end.

(** A field of type [List[T]] with an empty default. *)
Definition validate_list {A} (item : json -> vres A) (v : option json)
  : vres (list A) :=
  match v with
  | None => Valid []
  | Some (JList l) => vall (map item l)
  | Some _ => Invalid
  end.

(** A field declared with [alias] and [allow_population_by_field_name]:
    the alias is looked up first, then the field's own name. *)
Definition aliased (alias name : string) (data : pydict) : option json :=
  match Dict.lookup alias data with
  | Some v => Some v
  | None => Dict.lookup name data
  end.

(** [GeminiEntity.validate] on one item of a list. *)
Definition GeminiEntity_validate (v : json) : vres GeminiEntity :=
  match v with
  | JDict values =>
      match of_pre (GeminiEntity_normalise_fields values) with
      | Valid data =>
          vmap (fun '(i, (n, (t, (ap, (at_, md))))) =>
                  mkGeminiEntity i n t ap at_ md)
            (vboth (validate_opt_str (aliased "id" "entity_id" data))
            (vboth (validate_opt_str (Dict.lookup "name" data))
            (vboth (validate_opt_str (Dict.lookup "type" data))
            (vboth (validate_dict (Dict.lookup "appearance" data))
            (vboth (validate_dict (Dict.lookup "attributes" data))
                   (validate_dict (Dict.lookup "metadata" data)))))))
      | Invalid => Invalid
      | Escapes e => Escapes e
      end
  | _ => Invalid
  end.

Section Timestamps.

(** [datetime.fromtimestamp] and [datetime.fromisoformat]: the first may
    raise for a number out of the platform's range, the second raises
    [ValueError] for a string it cannot parse. *)
Variable fromtimestamp : Z -> res datetime.
Variable fromisoformat : string -> option datetime.

(** [GeminiEvent._coerce_timestamp] *)
Definition GeminiEvent_coerce_timestamp (value : json) : res datetime :=
  match value with
  | JTime t => Ok t
  | JNum n => fromtimestamp n
  | JBool b => fromtimestamp (if b then 1 else 0)
  | JStr s =>
      match fromisoformat (replace_Z s) with
      | Some t => Ok t
      | None => Raise ValueError
      end
  | _ => Raise ValueError
  end.

(** The [timestamp] field: the pre-validator, then the field's own
    [datetime] validation, which lets a [datetime] through. *)
Definition validate_timestamp (v : option json) : vres datetime :=
  match v with
  | Some value => of_pre (GeminiEvent_coerce_timestamp value)
  | None => Invalid
  end.

(** [GeminiEvent.validate] on one item of a list. *)
Definition GeminiEvent_validate (v : json) : vres GeminiEvent :=
  match v with
  | JDict values =>
      match of_pre (GeminiEvent_normalise_event values) with
      | Valid data =>
          vmap (fun '(i, (ts, (a, (s, (ac, (tg, md)))))) =>
                  mkGeminiEvent i ts a s ac tg md)
            (vboth (validate_opt_str (aliased "id" "event_id" data))
            (vboth (validate_timestamp (Dict.lookup "timestamp" data))
            (vboth (validate_opt_str (Dict.lookup "action" data))
            (vboth (validate_opt_str (Dict.lookup "summary" data))
            (vboth (validate_list GeminiEntity_validate
                      (Dict.lookup "actors" data))
            (vboth (validate_list GeminiEntity_validate
                      (Dict.lookup "targets" data))
                   (validate_dict (Dict.lookup "metadata" data))))))))
      | Invalid => Invalid
      | Escapes e => Escapes e
      end
  | _ => Invalid
  end.

(** [GeminiPayload.parse_obj] *)
Definition GeminiPayload_parse_obj (obj : json) : res GeminiPayload :=
  match obj with
  | JDict values =>
      match of_pre (GeminiPayload_normalise_payload values) with
      | Valid data =>
          to_res
            (vmap (fun '(es, md) => mkGeminiPayload es md)
               (vboth (validate_list GeminiEvent_validate
                         (Dict.lookup "events" data))
                      (validate_dict (Dict.lookup "metadata" data))))
      | Invalid => Raise ValidationError
      | Escapes e => Raise e
      end
  | _ => Raise ValidationError
  end.

End Timestamps.

(** The value that [_normalise_event] stores under ["timestamp"]. *)
Definition reconciled_timestamp (values : pydict) : json :=
  py_or (py_or (py_get "timestamp" values) (py_get "time" values))
        (py_get "event_time" values).

(** The value that [_normalise_payload] leaves under ["events"]. *)
Definition raw_events (values : pydict) : json :=
  py_get_default "events" values
    (py_or (py_or (py_get "timeline" values) (py_get "entries" values))
           (JList [])).

(** The shapes that [_coerce_timestamp] takes: a [datetime], a number
    (a [bool] is one) or a string in ISO format. *)
Definition accepted_shape (fromisoformat : string -> option datetime)
           (value : json) : bool :=
  match value with
  | JTime _ | JNum _ | JBool _ => true
  | JStr s =>
      match fromisoformat (replace_Z s) with Some _ => true | None => false end
  | _ => false
  end.

(** ** resolver.py: identity resolution *)

Definition profile := pydict.
Definition bucket := list (string * profile).

(** The value of [IDENTITY_PROFILES]: [_load_identity_profiles] always
    returns the three sections. *)
Record Profiles : Type := mkProfiles {
  pr_person : bucket;
  pr_object : bucket;
  pr_unknown : bucket
}.

(** A computation that may draw from [uuid4] and may raise: the state is
    the number of draws made so far. *)
Definition M (A : Type) : Type := nat -> res (A * nat).

Definition ret {A} (a : A) : M A := fun n => Ok (a, n).
Definition raise {A} (e : exn) : M A := fun _ => Raise e.
Definition lift {A} (r : res A) : M A :=
  fun n => match r with Ok a => Ok (a, n) | Raise e => Raise e end.
Definition mbind {A B} (m : M A) (f : A -> M B) : M B :=
  fun n => match m n with
           | Ok (a, n') => f a n'
           | Raise e => Raise e
           end.

Notation "x <-- m ;; k" := (mbind m (fun x => k))
  (at level 61, m at next level, right associativity).

(** ASCII white space, as [str.split] and [str.strip] see it. *)
Definition is_space (c : ascii) : bool :=
  let n := nat_of_ascii c in
  ((9 <=? n)%nat && (n <=? 13)%nat) || ((28 <=? n)%nat && (n <=? 32)%nat).

(** [s.split()]: the maximal runs of characters that are not white space.
    [cur] is the run being read, reversed. *)
Fixpoint split_ws_aux (s : string) (cur : list ascii) : list string :=
  let flush (rest : list string) :=
    match cur with
    | [] => rest
    | _ => string_of_list_ascii (rev cur) :: rest
    end in
  match s with
  | EmptyString => flush []
  | String c s' =>
      if is_space c then flush (split_ws_aux s' [])
      else split_ws_aux s' (c :: cur)
  end.

Definition split_ws (s : string) : list string := split_ws_aux s [].

Fixpoint lstrip_chars (cs : list ascii) : list ascii :=
  match cs with
  | [] => []
  | c :: cs' => if is_space c then lstrip_chars cs' else cs
  end.

(** [s.strip()] *)
Definition strip (s : string) : string :=
  string_of_list_ascii
    (rev (lstrip_chars (rev (lstrip_chars (list_ascii_of_string s))))).

(** ["_".join(words)] *)
Definition join_underscore (words : list string) : string :=
  String.concat "_" words.

(** [needle in haystack] for two strings. *)
Fixpoint is_substring (needle haystack : string) : bool :=
  String.prefix needle haystack
  || match haystack with
     | EmptyString => false
     | String _ h' => is_substring needle h'
     end.

(** The number of distinct strings of [a] that occur in [b]:
    [len(set(a) & set(b))]. *)
Definition overlap_size (a b : list string) : nat :=
  List.length (nodup string_dec (filter (fun x => str_in x b) a)).

Section Resolver.

Variable IDENTITY_PROFILES : Profiles.

(** [str(v)] and [v == w] on arbitrary values, and [s.lower()]. *)
Variable py_str : json -> string.
Variable py_eq : json -> json -> bool.
Variable py_lower : string -> string.

(** [uuid4().hex] of the [n]-th draw. *)
Variable uuid4_hex : nat -> string.

Definition uuid4 : M string := fun n => Ok (uuid4_hex n, S n).

Definition buckets : list (string * bucket) :=
  [("person", pr_person IDENTITY_PROFILES);
   ("object", pr_object IDENTITY_PROFILES);
   ("unknown", pr_unknown IDENTITY_PROFILES)].

(** The [for ... else] loop of [resolve_identity]: the first bucket whose
    name's first three characters start the type. *)
Fixpoint first_bucket (entity_type : string) (bs : list (string * bucket))
  : option (string * bucket) :=
  match bs with
  | [] => None
  | (bucket_name, b) :: bs' =>
      if startswith entity_type (take 3 bucket_name)
      then Some (bucket_name, b)
      else first_bucket entity_type bs'
  end.

(** [(preferred_bucket, canonical_type)] after the loop. *)
Definition select_bucket (entity : GeminiEntity) : bucket * string :=
  let entity_type := py_lower (ostr_or (ge_type entity) "unknown") in
  match first_bucket entity_type buckets with
  | Some (bucket_name, b) => (b, bucket_name)
  | None =>
      (pr_unknown IDENTITY_PROFILES,
       if String.eqb entity_type "" then "unknown" else entity_type)
  end.

(** [profile.setdefault("type", canonical_type)] on a copy. *)
Definition with_type (canonical_type : string) (p : profile) : profile :=
  Dict.setdefault "type" (JStr canonical_type) p.

(** The buckets scanned by the name and similarity steps, in order. *)
Definition scanned (preferred_bucket : bucket) : list (string * profile) :=
  preferred_bucket ++ pr_person IDENTITY_PROFILES
                   ++ pr_object IDENTITY_PROFILES.

(** The name scan: [profile.get("name", "").lower() == lookup]; a stored
    name that is not a string has no [lower]. *)
Fixpoint find_name (lookup : string) (items : list (string * profile))
  : res (option (string * profile)) :=
  match items with
  | [] => Ok None
  | (profile_id, p) :: rest =>
      match py_get_default "name" p (JStr "") with
      | JStr s =>
          if String.eqb (py_lower s) lookup then Ok (Some (profile_id, p))
          else find_name lookup rest
      | _ => Raise AttributeError
      end
  end.

(** One appearance key of [score_profile]. *)
Definition score_appearance_key (profile_appearance : json)
           (key : string) (value : json) : res nat :=
  match profile_appearance with
  | JDict pa =>
      match py_get key pa with
      | JNull => Ok 0%nat
      | profile_value =>
          match value, profile_value with
          | JList vs, JList pvs =>
              Ok (overlap_size (map py_str vs) (map py_str pvs))
          | JList vs, _ =>
              Ok (if str_in (py_str profile_value) (map py_str vs)
                  then 1 else 0)%nat
          | _, JList pvs =>
              Ok (if str_in (py_str value) (map py_str pvs)
                  then 1 else 0)%nat
          | _, _ =>
              Ok (if String.eqb (py_lower (py_str value))
                                (py_lower (py_str profile_value))
                  then 1 else 0)%nat
          end
      end
  | _ => Raise AttributeError    (* no [get] on this value *)
  end.

(** One attribute key of [score_profile]:
    [key in profile_attributes and profile_attributes[key] == value]. *)
Definition score_attribute_key (profile_attributes : json)
           (key : string) (value : json) : res nat :=
  match profile_attributes with
  | JDict pa =>
      match Dict.lookup key pa with
      | Some stored => Ok (if py_eq stored value then 1 else 0)%nat
      | None => Ok 0%nat
      end
  | JList l =>
      if existsb (fun item => py_eq item (JStr key)) l
      then Raise TypeError else Ok 0%nat
  | JStr s => if is_substring key s then Raise TypeError else Ok 0%nat
  | _ => Raise TypeError
  end.

(** [score += f(key, value)] over the items of a dict. *)
Fixpoint sum_scores (f : string -> json -> res nat) (items : pydict)
         (score : nat) : res nat :=
  match items with
  | [] => Ok score
  | (key, value) :: rest =>
      s <- f key value ;;
      sum_scores f rest (score + s)
  end.

(** [score_profile], closed over the observed appearance and attributes. *)
Definition score_profile (appearance attributes : pydict) (p : profile)
  : res nat :=
  let profile_appearance := py_or (py_get "appearance" p) (JDict []) in
  score <- sum_scores (score_appearance_key profile_appearance)
             appearance 0 ;;
  let profile_attributes := py_or (py_get "attributes" p) (JDict []) in
  sum_scores (score_attribute_key profile_attributes) attributes score.

(** The similarity scan: [best] is the pair [(best_score, best_match)]. *)
Fixpoint best_scan (appearance attributes : pydict)
         (items : list (string * profile))
         (best : nat * option (string * profile))
  : res (nat * option (string * profile)) :=
  match items with
  | [] => Ok best
  | (profile_id, p) :: rest =>
      score <- score_profile appearance attributes p ;;
      if (fst best <? score)%nat && (0 <? score)%nat
      then best_scan appearance attributes rest (score, Some (profile_id, p))
      else best_scan appearance attributes rest best
  end.

(** Every profile of [items] has a score, and the score satisfies [R]. *)
Definition scores_all (appearance attributes : pydict) (R : nat -> Prop)
           (items : list (string * profile)) : Prop :=
  Forall (fun it => exists s,
              score_profile appearance attributes (snd it) = Ok s /\ R s)
         items.

(** The last step of [resolve_identity]: a new identity. *)
Definition synthesize (entity : GeminiEntity) (canonical_type : string)
  : M (string * profile) :=
  generated_id <--
    (if ostr_truthy (ge_entity_id entity)
     then ret (ostr_or (ge_entity_id entity) "")
     else
       let base :=
         ostr_or (ge_name entity)
           (ostr_or (ge_type entity)
              (ostr_or (Some canonical_type) "entity")) in
       let base := if String.eqb (strip base) "" then "entity"
                   else strip base in
       let slug := join_underscore (split_ws (py_lower base)) in
       h <-- uuid4 ;;
       ret (String.append slug (String.append "_" (take 8 h)))) ;;
  ret (generated_id,
       [("id", JStr generated_id);
        ("name", ostr (ge_name entity));
        ("type", JStr (ostr_or (Some canonical_type)
                         (ostr_or (ge_type entity) "unknown")));
        ("appearance", JDict (ge_appearance entity));
        ("attributes", JDict (ge_attributes entity))]).

(** [resolve_identity] *)
Definition resolve_identity (entity : GeminiEntity) : M (string * profile) :=
  let '(preferred_bucket, canonical_type) := select_bucket entity in
  match
    (if ostr_truthy (ge_entity_id entity)
     then Dict.lookup (ostr_or (ge_entity_id entity) "") preferred_bucket
     else None)
  with
  | Some p => ret (ostr_or (ge_entity_id entity) "", with_type canonical_type p)
  | None =>
      by_name <--
        (if ostr_truthy (ge_name entity)
         then lift (find_name (py_lower (ostr_or (ge_name entity) ""))
                      (scanned preferred_bucket))
         else ret None) ;;
      match by_name with
      | Some (profile_id, p) => ret (profile_id, with_type canonical_type p)
      | None =>
          best <-- lift (best_scan (ge_appearance entity)
                           (ge_attributes entity)
                           (scanned preferred_bucket) (0%nat, None)) ;;
          match snd best with
          | Some (profile_id, p) =>
              ret (profile_id, with_type canonical_type p)
          | None => synthesize entity canonical_type
          end
      end
  end.

(** The argument of [dict.update] in [_build_event_actor].  Only dicts
    are taken to be accepted. *)
Definition update_source (v : json) : res pydict :=
  match v with
  | JDict d => Ok d
  | JStr _ => Raise ValueError
  | _ => Raise TypeError
  end.

(** A field of type [str] given a truthy value. *)
Definition validate_str (v : json) : res string :=
  match validate_opt_str (Some v) with
  | Valid (Some s) => Ok s
  | Valid None | Invalid => Raise ValidationError
  | Escapes e => Raise e
  end.

(** [_build_event_actor] *)
Definition _build_event_actor (entity : GeminiEntity) : M EventActor :=
  r <-- resolve_identity entity ;;
  let '(entity_id, p) := r in
  pa <-- lift (update_source (py_or (py_get "appearance" p) (JDict []))) ;;
  let appearance := Dict.update [] pa in
  let appearance := Dict.update appearance (ge_appearance entity) in
  pt <-- lift (update_source (py_or (py_get "attributes" p) (JDict []))) ;;
  let attributes := Dict.update [] pt in
  let attributes := Dict.update attributes (ge_attributes entity) in
  name <-- lift (to_res (validate_opt_str
                   (Some (py_or (py_get "name" p) (ostr (ge_name entity)))))) ;;
  type <-- lift (validate_str
                   (py_or (py_or (py_get "type" p) (ostr (ge_type entity)))
                          (JStr "unknown"))) ;;
  ret (mkEventActor entity_id name type appearance attributes).

End Resolver.

(** ** resolver.py: the world state *)

(** The body of the loop of [_update_world_state] for one participant. *)
Definition update_participant (event : Event) (ws : list (string * EntityState))
           (participant : EventActor) : list (string * EntityState) :=
  match Dict.lookup (ea_entity_id participant) ws with
  | None =>
      Dict.set (ea_entity_id participant)
        (mkEntityState (ea_entity_id participant) (ea_name participant)
           (ea_type participant) (ea_appearance participant)
           (ea_attributes participant) (Some (ev_id event))
           (ev_timestamp event))
        ws
  | Some existing =>
      let name := if ostr_truthy (ea_name participant)
                  then ea_name participant else es_name existing in
      let type := if negb (String.eqb (ea_type participant) "")
                  then ea_type participant else es_type existing in
      let appearance :=
        match ea_appearance participant with
        | [] => es_appearance existing
        | _ => Dict.update (es_appearance existing) (ea_appearance participant)
        end in
      let attributes :=
        match ea_attributes participant with
        | [] => es_attributes existing
        | _ => Dict.update (es_attributes existing) (ea_attributes participant)
        end in
      Dict.set (ea_entity_id participant)
        (mkEntityState (es_entity_id existing) name type appearance attributes
           (Some (ev_id event)) (ev_timestamp event))
        ws
  end.

(** [filter(None, (event.actor, event.target))] *)
Definition participants (event : Event) : list EventActor :=
  match ev_actor event with Some a => [a] | None => [] end
  ++ match ev_target event with Some t => [t] | None => [] end.

(** [_update_world_state] *)
Definition _update_world_state (state : SceneState) (event : Event)
  : SceneState :=
  mkSceneState (timeline state)
    (fold_left (update_participant event) (participants event)
       (world_state state)).

(** ** Ordering of timestamps *)

Definition is_aware (t : datetime) : bool :=
  match t with Naive _ => false | Aware _ _ => true end.

Definition instant (t : datetime) : Z :=
  match t with Naive us => us | Aware utc _ => utc end.

(** [a <= b] for two values of the same kind. *)
Definition dt_leb (a b : datetime) : bool := (instant a <=? instant b)%Z.

Section Sorting.

Context {A : Type} (key : A -> datetime).

Fixpoint insert_by (x : A) (l : list A) : list A :=
  match l with
  | [] => [x]
  | y :: l' =>
      if dt_leb (key x) (key y) then x :: y :: l'
      else y :: insert_by x l'
  end.

(** The stable sort of a list by key. *)
Fixpoint stable_sort (l : list A) : list A :=
  match l with
  | [] => []
  | x :: l' => insert_by x (stable_sort l')
  end.

Definition comparable (l : list A) : bool :=
  match l with
  | [] => true
  | x :: l' =>
      forallb (fun y => Bool.eqb (is_aware (key x)) (is_aware (key y))) l'
  end.

(** [sorted(l, key=...)] and [l.sort(key=...)]: ordering a naive
    against an aware [datetime] raises [TypeError]. *)
Definition py_sorted (l : list A) : res (list A) :=
  if comparable l then Ok (stable_sort l) else Raise TypeError.

End Sorting.

(** [a <= b] holds in Python: the two values are of one kind and in order. *)
Definition dt_le (a b : datetime) : Prop :=
  is_aware a = is_aware b /\ (instant a <= instant b)%Z.

(** A list in ascending order of its keys. *)
Definition ascending {A : Type} (key : A -> datetime) (l : list A) : Prop :=
  StronglySorted (fun x y => dt_le (key x) (key y)) l.

(** ** state_store.py *)

(** The file at [STATE_PATH]: absent, present but failing to open or read
    with [OSError], or present with some bytes. *)
Inductive file : Type :=
| Absent
| Unreadable
| Content (bytes : string).

Definition between (lo hi b : nat) : bool := (lo <=? b)%nat && (b <=? hi)%nat.

(** Well-formed UTF-8, as the strict decoder accepts it. *)
Fixpoint utf8_valid (bs : list nat) : bool :=
  match bs with
  | [] => true
  | b1 :: r1 =>
      if (b1 <=? 127)%nat then utf8_valid r1
      else
        match r1 with
        | [] => false
        | b2 :: r2 =>
            if between 194 223 b1 then between 128 191 b2 && utf8_valid r2
            else
              match r2 with
              | [] => false
              | b3 :: r3 =>
                  if between 224 239 b1 then
                    (if (b1 =? 224)%nat then between 160 191 b2
                     else if (b1 =? 237)%nat then between 128 159 b2
                     else between 128 191 b2)
                    && between 128 191 b3 && utf8_valid r3
                  else
                    match r3 with
                    | [] => false
                    | b4 :: r4 =>
                        between 240 244 b1
                        && (if (b1 =? 240)%nat then between 144 191 b2
                            else if (b1 =? 244)%nat then between 128 143 b2
                            else between 128 191 b2)
                        && between 128 191 b3 && between 128 191 b4
                        && utf8_valid r4
                    end
              end
        end
  end.

(** [open("r", encoding="utf-8")] followed by reading the whole file. *)
Definition read_text (f : file) : res string :=
  match f with
  | Absent | Unreadable => Raise OSError
  | Content bytes =>
      if utf8_valid (map nat_of_ascii (list_ascii_of_string bytes))
      then Ok bytes else Raise UnicodeDecodeError
  end.

(** [except (OSError, json.JSONDecodeError)]: the exceptions that the
    loaders recover from. *)
Definition recovered (e : exn) : bool :=
  match e with
  | OSError | JSONDecodeError => true
  | _ => false
  end.

Section Store.

(** [json.load] on the text of the file, which may raise
    [JSONDecodeError] or another exception ([RecursionError] when the
    document is nested too deep); [SceneState.parse_obj], with [None]
    for [ValidationError]; [SceneState.json]. *)
Variable json_loads : string -> res json.
Variable SceneState_parse_obj : json -> option SceneState.
Variable SceneState_json : SceneState -> string.

(** [load_state] *)
Definition load_state (f : file) : res SceneState :=
  match f with
  | Absent => Ok empty_state
  | _ =>
      match text <- read_text f ;; json_loads text with
      | Raise e => if recovered e then Ok empty_state else Raise e
      | Ok raw =>
          match SceneState_parse_obj raw with
          | Some state => Ok state
          | None => Ok empty_state       (* ValidationError *)
          end
      end
  end.

(** [save_state]; faults of the file system are not modelled. *)
Definition save_state (state : SceneState) : file :=
  Content (SceneState_json state).

End Store.

(** ** resolver.py: [ingest] *)

(** The length of the longest string of a list. *)
Definition longest (ids : list string) : nat :=
  fold_right (fun s m => Nat.max (String.length s) m) 0%nat ids.

Section Ingest.

Variable fromtimestamp : Z -> res datetime.
Variable fromisoformat : string -> option datetime.
(** [t.isoformat()] *)
Variable isoformat : datetime -> string.
Variable IDENTITY_PROFILES : Profiles.
Variable py_str : json -> string.
Variable py_eq : json -> json -> bool.
Variable py_lower : string -> string.
Variable uuid4_hex : nat -> string.
Variable json_loads : string -> res json.
Variable SceneState_parse_obj : json -> option SceneState.
Variable SceneState_json : SceneState -> string.

(** The loop
<<
    while event_id in existing_ids:
        event_id = f"{event_id}-{uuid4().hex[:4]}"
>>
    Every turn makes the id longer, so the loop is over after at most
    [longest existing_ids + 1] turns; [fuel] counts the turns left. *)
Fixpoint disambiguate (fuel : nat) (existing_ids : list string)
         (event_id : string) : M string :=
  match fuel with
  | O => ret event_id
  | S fuel' =>
      if str_in event_id existing_ids then
        h <-- uuid4 uuid4_hex ;;
        disambiguate fuel' existing_ids
          (String.append event_id (String.append "-" (take 4 h)))
      else ret event_id
  end.

(** [event_id] after [k] turns of the loop, the first of which makes
    draw number [draws]. *)
Fixpoint with_suffixes (event_id : string) (draws k : nat) : string :=
  match k with
  | O => event_id
  | S k' =>
      with_suffixes
        (String.append event_id
           (String.append "-" (take 4 (uuid4_hex draws))))
        (S draws) k'
  end.

Definition unique_id (existing_ids : list string) (event_id : string)
  : M string :=
  disambiguate (2 + longest existing_ids) existing_ids event_id.

(** [_build_event_actor(l[0]) if l else None] *)
Definition first_actor (l : list GeminiEntity) : M (option EventActor) :=
  match l with
  | [] => ret None
  | entity :: _ =>
      a <-- _build_event_actor IDENTITY_PROFILES py_str py_eq py_lower
              uuid4_hex
              entity ;;
      ret (Some a)
  end.

(** [raw_event.event_id or f"event-{...isoformat()}-{index}"] *)
Definition first_event_id (index : nat) (raw_event : GeminiEvent) : string :=
  ostr_or (gv_event_id raw_event)
    (String.append "event-"
       (String.append (isoformat (gv_timestamp raw_event))
          (String.append "-" (str_of_nat index)))).

(** The body of the loop of [ingest] for one event; the state of the
    loop is the scene state and [existing_ids]. *)
Definition ingest_event (payload : GeminiPayload)
           (st : SceneState * list string)
           (index : nat) (raw_event : GeminiEvent)
  : M (SceneState * list string) :=
  let '(state, existing_ids) := st in
  let event_id := first_event_id index raw_event in
  event_id <-- unique_id existing_ids event_id ;;
  let existing_ids := event_id :: existing_ids in
  let metadata := Dict.update [] (gp_metadata payload) in
  let metadata := Dict.update metadata (gv_metadata raw_event) in
  let action :=
    py_or (py_or (ostr (gv_action raw_event))
                 (py_get "action" (gv_metadata raw_event)))
          (JStr "observation") in
  actor <-- first_actor (gv_actors raw_event) ;;
  target <-- first_actor (gv_targets raw_event) ;;
  action <-- lift (validate_str action) ;;
  let event := mkEvent event_id (gv_timestamp raw_event) action
                 (gv_summary raw_event) actor target metadata in
  let state := mkSceneState (timeline state ++ [event]) (world_state state) in
  ret (_update_world_state state event, existing_ids).

(** [for index, raw_event in enumerate(ordered_events)] *)
Fixpoint ingest_loop (payload : GeminiPayload)
         (events : list GeminiEvent) (index : nat)
         (st : SceneState * list string) : M (SceneState * list string) :=
  match events with
  | [] => ret st
  | raw_event :: rest =>
      st' <-- ingest_event payload st index raw_event ;;
      ingest_loop payload rest (S index) st'
  end.

(** The ids given to a run of events: each is its first id followed by
    as many suffixes as it takes to leave the ids in use, and joins the
    ids in use for the events after it. *)
Fixpoint ids_assigned (events : list GeminiEvent) (index : nat)
         (existing_ids : list string) (new : list Event) : Prop :=
  match events, new with
  | [], [] => True
  | raw_event :: events', event :: new' =>
      ev_timestamp event = gv_timestamp raw_event
      /\ (exists draws k,
            ev_id event
            = with_suffixes (first_event_id index raw_event) draws k
            /\ forall j, (j < k)%nat ->
                 str_in (with_suffixes (first_event_id index raw_event)
                           draws j) existing_ids = true)
      /\ str_in (ev_id event) existing_ids = false
      /\ ids_assigned events' (S index) (ev_id event :: existing_ids) new'
  | _, _ => False
  end.

(** The part of [ingest] between [load_state] and [save_state]. *)
Definition merge_payload (payload : GeminiPayload) (state : SceneState)
  : M SceneState :=
  let existing_ids := map ev_id (timeline state) in
  ordered_events <-- lift (py_sorted gv_timestamp (gp_events payload)) ;;
  st <-- ingest_loop payload ordered_events 0 (state, existing_ids) ;;
  sorted_timeline <-- lift (py_sorted ev_timestamp (timeline (fst st))) ;;
  ret (mkSceneState sorted_timeline (world_state (fst st))).

(** [ingest]: the result of the call and the file it leaves behind.
    [draws] is the number of [uuid4] draws made before the call. *)
Definition ingest (gemini_json : json) (f : file) (draws : nat)
  : res SceneState * file :=
  match GeminiPayload_parse_obj fromtimestamp fromisoformat gemini_json with
  | Raise ValidationError => (Raise ValueError, f)
  | Raise e => (Raise e, f)
  | Ok payload =>
      match load_state json_loads SceneState_parse_obj f with
      | Raise e => (Raise e, f)
      | Ok state =>
          match merge_payload payload state draws with
          | Raise e => (Raise e, f)
          | Ok (state', _) => (Ok state', save_state SceneState_json state')
          end
      end
  end.

End Ingest.

(** ** Inputs used in the examples *)

(** An entity that declares nothing but its type. *)
Definition typed (t : string) : GeminiEntity :=
  mkGeminiEntity None None (Some t) [] [] [].

(** A store with one person profile. *)
Definition one_person (pid : string) (p : profile) : Profiles :=
  mkProfiles [(pid, p)] [] [].

(** [str] and [==] on strings only, enough for the examples. *)
Definition str_of_text (v : json) : string :=
  match v with JStr s => s | _ => "" end.

Definition eq_text (v w : json) : bool :=
  match v, w with JStr a, JStr b => String.eqb a b | _, _ => false end.

(** Two stored persons that look alike. *)
Definition twins : Profiles :=
  mkProfiles
    [("p1", [("appearance", JDict [("hair", JStr "red")])]);
     ("p2", [("appearance", JDict [("hair", JStr "Red")])])]
    [] [].

Definition redhead : GeminiEntity :=
  mkGeminiEntity None None (Some "person") [("hair", JStr "RED")] [] [].

(** What a scene state knows about one key of one entity. *)
Definition known_appearance (st : SceneState) (id k : string) : option json :=
  match Dict.lookup id (world_state st) with
  | Some e => Dict.lookup k (es_appearance e)
  | None => None
  end.

Definition known_attribute (st : SceneState) (id k : string) : option json :=
  match Dict.lookup id (world_state st) with
  | Some e => Dict.lookup k (es_attributes e)
  | None => None
  end.

(** The scene state that a run of the loop of [ingest] ends with. *)
Definition final_state (r : res ((SceneState * list string) * nat))
  : option SceneState :=
  match r with Ok ((st, _), _) => Some st | Raise _ => None end.

(** A stored person with black hair, seen once with red hair and once
    with no appearance reported. *)
Definition dyed : Profiles :=
  one_person "p1" [("appearance", JDict [("hair", JStr "black")])].

Definition seen_red : GeminiEntity :=
  mkGeminiEntity (Some "p1") None (Some "person") [("hair", JStr "red")] [] [].

Definition seen_again : GeminiEntity :=
  mkGeminiEntity (Some "p1") None (Some "person") [] [] [].

Definition first_sighting : GeminiEvent :=
  mkGeminiEvent (Some "e1") (Naive 1) None None [seen_red] [] [].

Definition second_sighting : GeminiEvent :=
  mkGeminiEvent (Some "e2") (Naive 2) None None [seen_again] [] [].

(** [ingest] with stand-ins for the library functions: an epoch number
    [n] is the naive time [n], no string parses as a time or as JSON, and
    the stored document is the list of event ids. *)
Definition demo_ingest (P : Profiles) (gemini_json : json) (f : file)
           (draws : nat) : res SceneState * file :=
  ingest (fun n => Ok (Naive n)) (fun _ => None) (fun _ => "t") P
    str_of_text eq_text lower (fun _ => "0123456789abcdef")
    (fun _ => Raise JSONDecodeError) (fun _ => None)
    (fun st => String.concat "," (map ev_id (timeline st)))
    gemini_json f draws.

Definition no_profiles : Profiles := mkProfiles [] [] [].

(** Two events given latest first. *)
Definition out_of_order : json :=
  JDict [("events",
          JList [JDict [("id", JStr "b"); ("timestamp", JNum 2)];
                 JDict [("id", JStr "a"); ("timestamp", JNum 1)]])].

(** The state that [out_of_order] leaves from an empty store. *)
Definition in_order : SceneState :=
  mkSceneState
    [mkEvent "a" (Naive 1) "observation" None None None [];
     mkEvent "b" (Naive 2) "observation" None None None []]
    [].

(** [ingest] over a store whose document loads as [prior]. *)
Definition stored_ingest (prior : SceneState) (P : Profiles)
           (gemini_json : json) (f : file) (draws : nat)
  : res SceneState * file :=
  ingest (fun n => Ok (Naive n)) (fun _ => None) (fun _ => "t") P
    str_of_text eq_text lower (fun _ => "0123456789abcdef") (fun _ => Ok JNull)
    (fun _ => Some prior)
    (fun st => String.concat "," (map ev_id (timeline st)))
    gemini_json f draws.

(** A stored timeline with one naive and one aware timestamp. *)
Definition mixed_state : SceneState :=
  mkSceneState
    [mkEvent "a" (Naive 1) "observation" None None None [];
     mkEvent "b" (Aware 2 0) "observation" None None None []]
    [].

(** Two events that both supply the id ["e1"], and what they leave in an
    empty store. *)
Definition e1_twice : json :=
  JDict [("events",
          JList [JDict [("id", JStr "e1"); ("timestamp", JNum 1)];
                 JDict [("id", JStr "e1"); ("timestamp", JNum 2)]])].

Definition e1_twice_state : SceneState :=
  mkSceneState
    [mkEvent "e1" (Naive 1) "observation" None None None [];
     mkEvent "e1-0123" (Naive 2) "observation" None None None []]
    [].

(** A batch whose second event has a list for a timestamp. *)
Definition bad_time : pydict :=
  [("events",
    JList [JDict [("id", JStr "a"); ("timestamp", JNum 1)];
           JDict [("id", JStr "b"); ("timestamp", JList [JNum 1])]])].

(** A file holding the single byte 0xFF. *)
Definition not_utf8 : file := Content (String (ascii_of_nat 255) EmptyString).

(** A stored person and a stored object that look alike, and an object
    seen with that look. *)
Definition look_alikes : Profiles :=
  mkProfiles
    [("p1", [("appearance", JDict [("colour", JStr "red")])])]
    [("o1", [("appearance", JDict [("colour", JStr "Red")])])]
    [].

Definition red_thing : GeminiEntity :=
  mkGeminiEntity None None (Some "object") [("colour", JStr "RED")] [] [].

(** A batch of two events that supply no id. *)
Definition no_ids : json :=
  JDict [("events",
          JList [JDict [("timestamp", JNum 1)];
                 JDict [("timestamp", JNum 2)]])].

Definition no_ids_state : SceneState :=
  mkSceneState
    [mkEvent "event-t-0" (Naive 1) "observation" None None None [];
     mkEvent "event-t-1" (Naive 2) "observation" None None None []]
    [].

(** A batch whose only event has a list for a timestamp, a string for a
    metadata bag and a key that is not recognised. *)
Definition stray_key : pydict :=
  [("events",
    JList [JDict [("timestamp", JList [JNum 1]);
                  ("metadata", JStr "x");
                  ("foo", JNum 1)]])].

(** ** resolver.py: loading the identity profiles

    The loader keys a section by whatever hashable value a profile has for
    an id, so its sections are dicts with arbitrary keys; the resolver
    above works on [Profiles], where the ids are strings. *)

(** The values that can be keys of a dict. *)
Definition hashable (v : json) : bool :=
  match v with
  | JList _ | JDict _ => false
  | _ => true
  end.

(** Equality of two keys: [True] and [1] are one key, as are [False]
    and [0]. *)
Definition key_eqb (a b : json) : bool :=
  match a, b with
  | JNull, JNull => true
  | JStr s, JStr t => String.eqb s t
  | JNum n, JNum m => Z.eqb n m
  | JBool x, JBool y => Bool.eqb x y
  | JBool x, JNum n => Z.eqb (if x then 1 else 0) n
  | JNum n, JBool x => Z.eqb n (if x then 1 else 0)
  | JTime t, JTime u =>
      Bool.eqb (is_aware t) (is_aware u) && Z.eqb (instant t) (instant u)
  | _, _ => false
  end.

(** Dictionaries whose keys are arbitrary hashable values. *)
Module KDict.

Definition t := list (json * pydict).

Fixpoint lookup (k : json) (d : t) : option pydict :=
match d with
| [] => None
| (k', v) :: d' => if key_eqb k k' then Some v else lookup k d'
end.

(** [d[k] = v]: a key that is there already stays as it is. *)
Fixpoint set (k : json) (v : pydict) (d : t) : t :=
match d with
| [] => [(k, v)]
| (k', v') :: d' =>
    if key_eqb k k' then (k', v) :: d' else (k', v') :: set k v d'
end.

(** [d.update(e)] *)
Definition update (d e : t) : t :=
fold_left (fun acc kv => set (fst kv) (snd kv) acc) e d.

End KDict.

(** The [dict] branch of [_normalise_section]. *)
Fixpoint section_of_dict (items : pydict) (result : KDict.t) : res KDict.t :=
  match items with
  | [] => Ok result
  | (key, value) :: rest =>
      match value with
      | JDict v =>
          let value := Dict.setdefault "id" (JStr key) v in
          if hashable (py_get "id" value)
          then section_of_dict rest (KDict.set (py_get "id" value) value result)
          else Raise TypeError
      | _ => section_of_dict rest result
      end
  end.

(** The [list] branch of [_normalise_section]. *)
Fixpoint section_of_list (entries : list json) (result : KDict.t)
  : res KDict.t :=
  match entries with
  | [] => Ok result
  | entry :: rest =>
      match entry with
      | JDict e =>
          let entry_id := py_or (py_get "id" e) (py_get "name" e) in
          if negb (truthy entry_id) then section_of_list rest result
          else
            let entry := Dict.setdefault "id" entry_id e in
            if hashable entry_id
            then section_of_list rest (KDict.set entry_id entry result)
            else Raise TypeError
      | _ => section_of_list rest result
      end
  end.

(** [_normalise_section] *)
Definition _normalise_section (section : json) : res KDict.t :=
  match section with
  | JDict items => section_of_dict items []
  | JList entries => section_of_list entries []
  | _ => Ok []
  end.

(** The three sections that [_load_identity_profiles] returns. *)
Record Sections : Type := mkSections {
  sec_person : KDict.t;
  sec_object : KDict.t;
  sec_unknown : KDict.t
}.

Definition no_sections : Sections := mkSections [] [] [].

Inductive category : Type := Person | Object | Unknown.

(** The section that a top-level key of the file goes to:
    [(key or "unknown").lower()] looked up in the two sets of names. *)
Definition category_of (py_lower : string -> string) (key : string)
  : category :=
  let normalised_key :=
    py_lower (if String.eqb key "" then "unknown" else key) in
  if str_in normalised_key ["person"; "persons"; "people"; "humans"]
  then Person
  else if str_in normalised_key ["object"; "objects"; "items"] then Object
  else Unknown.

Definition section_at (c : category) (s : Sections) : KDict.t :=
  match c with
  | Person => sec_person s
  | Object => sec_object s
  | Unknown => sec_unknown s
  end.

(** [target.update(more)] for the section [c]. *)
Definition update_section (c : category) (more : KDict.t) (s : Sections)
  : Sections :=
  match c with
  | Person => mkSections (KDict.update (sec_person s) more)
                (sec_object s) (sec_unknown s)
  | Object => mkSections (sec_person s)
                (KDict.update (sec_object s) more) (sec_unknown s)
  | Unknown => mkSections (sec_person s) (sec_object s)
                 (KDict.update (sec_unknown s) more)
  end.

Section ProfileFile.

(** [str.lower], and [json.load] on the text of the file, as for the state
  store. *)
Variable py_lower : string -> string.
Variable json_loads : string -> res json.

(** The loop over the items of a file that holds a dict. *)
Fixpoint load_sections (items : pydict) (sections : Sections) : res Sections :=
match items with
| [] => Ok sections
| (key, value) :: rest =>
    more <- _normalise_section value ;;
    load_sections rest
      (update_section (category_of py_lower key) more sections)
end.

(** [_load_identity_profiles], reading the file at [IDENTITIES_PATH]. *)
Definition _load_identity_profiles (f : file) : res Sections :=
match f with
| Absent => Ok no_sections
| _ =>
    match text <- read_text f ;; json_loads text with
    | Raise e => if recovered e then Ok no_sections else Raise e
    | Ok (JDict items) => load_sections items no_sections
    | Ok (JList entries) =>
        more <- _normalise_section (JList entries) ;;
        Ok (update_section Unknown more no_sections)
    | Ok _ => Ok no_sections
    end
end.

End ProfileFile.

(** A profile file read as two sections, and what is loaded from it. *)
Definition two_sections : json :=
  JDict [("People", JDict [("p1", JDict [("name", JStr "Bob")])]);
         ("gadgets", JList [JDict [("name", JStr "cup")]])].

Definition two_sections_loaded : Sections :=
  mkSections
    [(JStr "p1", [("name", JStr "Bob"); ("id", JStr "p1")])]
    []
    [(JStr "cup", [("name", JStr "cup"); ("id", JStr "cup")])].

(** [out_of_order] once parsed. *)
Definition out_of_order_payload : GeminiPayload :=
  mkGeminiPayload
    [mkGeminiEvent (Some "b") (Naive 2) None None [] [] [];
     mkGeminiEvent (Some "a") (Naive 1) None None [] [] []]
    [].

(** Every entry of a world state is stored under its own id. *)
Definition keyed_by_id (ws : list (string * EntityState)) : Prop :=
  forall k e, Dict.lookup k ws = Some e -> es_entity_id e = k.

(** An entity with a name and nothing else, among two stored Bobs. *)
Definition two_bobs : Profiles :=
  mkProfiles
    [("p1", [("name", JStr "Alice")]); ("p2", [("name", JStr "BOB")]);
     ("p3", [("name", JStr "Bob")])]
    [] [].

Definition named_bob : GeminiEntity :=
  mkGeminiEntity None (Some "bob") (Some "person") [("hair", JStr "red")] [] [].

(** Profiles named alike in different buckets, and a gadget named Bob. *)
Definition bobs_apart : Profiles :=
  mkProfiles
    [("p1", [("name", JStr "Alice")])]
    [("o1", [("name", JStr "BOB")]); ("o2", [("name", JStr "Bob")])]
    [("u1", [("name", JStr "Carol")])].

Definition a_gadget_bob : GeminiEntity :=
  mkGeminiEntity None (Some "bob") (Some "gadget") [("hair", JStr "red")] [] [].

(** A stored world state that knows Alice, a batch in which Bob is seen,
    and the state after that batch. *)
Definition known_alice : SceneState :=
  mkSceneState []
    [("p1", mkEntityState "p1" (Some "Alice") "person" [] [] (Some "e0")
              (Naive 0))].

Definition bob_seen : json :=
  JDict [("events",
          JList [JDict [("id", JStr "e1"); ("timestamp", JNum 1);
                        ("actors",
                         JList [JDict [("id", JStr "p2");
                                       ("name", JStr "Bob");
                                       ("type", JStr "person")]])]])].

Definition alice_and_bob : SceneState :=
  mkSceneState
    [mkEvent "e1" (Naive 1) "observation" None
       (Some (mkEventActor "p2" (Some "Bob") "person" [] [])) None []]
    [("p1", mkEntityState "p1" (Some "Alice") "person" [] [] (Some "e0")
              (Naive 0));
     ("p2", mkEntityState "p2" (Some "Bob") "person" [] [] (Some "e1")
              (Naive 1))].

(** * Properties *)

(** ** Dictionaries *)

Module DictFacts.
Import Dict.

Lemma lookup_set_eq {V} k (v : V) d : lookup k (set k v d) = Some v.
Proof.
  induction d as [|[k' v'] d IH]; simpl.
  - now rewrite String.eqb_refl.
  - destruct (String.eqb k k') eqn:E; simpl.
    + now rewrite String.eqb_refl.
    + now rewrite E.
Qed.

Lemma lookup_set_neq {V} k k' (v : V) d :
  k <> k' -> lookup k (set k' v d) = lookup k d.
Proof.
  intros N. induction d as [|[k0 v0] d IH]; simpl.
  - apply String.eqb_neq in N. now rewrite N.
  - destruct (String.eqb k' k0) eqn:E; simpl.
    + apply String.eqb_eq in E. subst k0.
      apply String.eqb_neq in N. now rewrite N.
    + destruct (String.eqb k k0); auto.
Qed.

Lemma lookup_remove_eq {V} k (d : list (string * V)) :
  lookup k (remove k d) = None.
Proof.
  induction d as [|[k0 v0] d IH]; simpl; auto.
  destruct (String.eqb k k0) eqn:E; simpl; auto. now rewrite E.
Qed.

Lemma lookup_remove_neq {V} k k' (d : list (string * V)) :
  k <> k' -> lookup k (remove k' d) = lookup k d.
Proof.
  intros N. induction d as [|[k0 v0] d IH]; simpl; auto.
  destruct (String.eqb k' k0) eqn:E; simpl.
  - apply String.eqb_eq in E. subst k0.
    apply String.eqb_neq in N. now rewrite N.
  - now rewrite IH.
Qed.

Lemma lookup_setdefault_eq {V} k (v : V) d :
  lookup k (setdefault k v d)
  = match lookup k d with Some x => Some x | None => Some v end.
Proof.
  unfold setdefault, mem. destruct (lookup k d) eqn:E; auto.
  apply lookup_set_eq.
Qed.

Lemma lookup_setdefault_neq {V} k k' (v : V) d :
  k <> k' -> lookup k (setdefault k' v d) = lookup k d.
Proof.
  intros N. unfold setdefault. destruct (mem k' d); auto.
  now apply lookup_set_neq.
Qed.

(** [d.update(e)]: the keys of [e] are overwritten, the others kept. *)
Lemma lookup_update {V} k (d e : list (string * V)) :
  lookup k (update d e)
  = match lookup k (rev e) with Some x => Some x | None => lookup k d end.
Proof.
  unfold update. revert d.
  induction e as [|[k0 v0] e IH]; intros d; simpl; auto.
  rewrite IH. clear IH.
  assert (L : forall (l : list (string * V)) x,
             lookup k (l ++ [x])
             = match lookup k l with
               | Some y => Some y
               | None => if String.eqb k (fst x) then Some (snd x) else None
               end).
  { induction l as [|[a b] l IHl]; intros [c e']; simpl; auto.
    destruct (String.eqb k a); auto. }
  rewrite L. simpl. destruct (lookup k (rev e)); auto.
  destruct (String.eqb k k0) eqn:E.
  - apply String.eqb_eq in E. subst. apply lookup_set_eq.
  - apply String.eqb_neq in E. now apply lookup_set_neq.
Qed.

Lemma lookup_rev_none {V} k (e : list (string * V)) :
  lookup k e = None -> lookup k (rev e) = None.
Proof.
  induction e as [|[k0 v0] e IH]; simpl; auto.
  destruct (String.eqb k k0) eqn:E; [discriminate|]. intros H.
  specialize (IH H).
  revert IH. generalize (rev e). intros l.
  induction l as [|[a b] l IHl]; simpl; intros.
  - now rewrite E.
  - destruct (String.eqb k a); [discriminate|auto].
Qed.

(** A key that [e] does not bind keeps its value through [d.update(e)]. *)
Lemma lookup_update_absent {V} k (d e : list (string * V)) :
  lookup k e = None -> lookup k (update d e) = lookup k d.
Proof.
  intros H. rewrite lookup_update. now rewrite (lookup_rev_none _ _ H).
Qed.

End DictFacts.

Lemma str_in_cons k a ks : str_in k (a :: ks) = String.eqb k a || str_in k ks.
Proof. reflexivity. Qed.

(** ** The pre-validators: where unrecognised keys go *)

Section Relocation.
Import Dict DictFacts.

Variable known : list string.

Lemma str_in_keys {V} k (d : list (string * V)) v :
  lookup k d = Some v -> str_in k (keys d) = true.
Proof.
  induction d as [|[k0 v0] d IH]; simpl; [discriminate|].
  unfold str_in in *. simpl.
  destruct (String.eqb k k0); simpl; auto.
Qed.

(** With a bag that is not a dict, the first unrecognised key raises. *)
Lemma relocate_loop_not_dict ks data md k :
  (forall m, md <> JDict m) ->
  str_in k ks = true -> str_in k known = false ->
  relocate_loop known ks data md = Raise AttributeError.
Proof.
  intros ND. revert data.
  induction ks as [|key ks IH]; intros data Hin Hk; [discriminate|].
  simpl. destruct (str_in key known) eqn:K.
  - rewrite str_in_cons in Hin.
    destruct (String.eqb k key) eqn:E.
    + apply String.eqb_eq in E. congruence.
    + simpl in Hin. auto.
  - destruct md; auto. now destruct (ND d).
Qed.

(** What the loop leaves in the bag and in the object. *)
Lemma relocate_loop_dict ks : forall data m data' md',
  relocate_loop known ks data (JDict m) = Ok (data', md') ->
  exists m', md' = JDict m' /\
    forall k,
      let moved := negb (str_in k known) && str_in k ks in
      lookup k m' = match lookup k m with
                    | Some old => Some old
                    | None => if moved then Some (py_get k data) else None
                    end
      /\ lookup k data' = if moved then None else lookup k data.
Proof.
  induction ks as [|key ks IH]; intros data m data' md' H; simpl in H.
  - inversion H; subst. exists m. split; auto. intros k. simpl.
    rewrite andb_false_r. split; auto. now destruct (lookup k m).
  - destruct (str_in key known) eqn:K.
    + destruct (IH _ _ _ _ H) as [m' [-> Hm]]. exists m'. split; auto.
      intros k. cbv zeta. rewrite str_in_cons.
      destruct (Hm k) as [H1 H2].
      destruct (String.eqb k key) eqn:E; simpl; auto.
      apply String.eqb_eq in E. subst key. rewrite K in *. simpl in *. auto.
    + destruct (IH _ _ _ _ H) as [m' [-> Hm]]. exists m'. split; auto.
      intros k. cbv zeta. rewrite str_in_cons.
      destruct (Hm k) as [H1 H2].
      destruct (String.eqb k key) eqn:E; simpl.
      * apply String.eqb_eq in E. subst key. rewrite K in *. simpl in *.
        rewrite lookup_setdefault_eq in H1. rewrite lookup_remove_eq in H2.
        split.
        -- rewrite H1. now destruct (lookup k m).
        -- now destruct (str_in k ks).
      * apply String.eqb_neq in E.
        rewrite (lookup_setdefault_neq _ _ _ _ E) in H1.
        rewrite (lookup_remove_neq _ _ _ E) in H2.
        unfold py_get in H1. rewrite (lookup_remove_neq _ _ _ E) in H1.
        split; auto.
Qed.

Lemma relocate_spec data out k v :
  relocate known data = Ok out ->
  lookup k data = Some v -> str_in k known = false -> k <> "metadata" ->
  exists m0 m,
    bag_of data = JDict m0
    /\ lookup "metadata" out = Some (JDict m)
    /\ lookup k out = None
    /\ lookup k m = Some (match lookup k m0 with
                          | Some old => old
                          | None => v
                          end).
Proof.
  unfold relocate. intros H Hk K NM.
  pose proof (str_in_keys _ _ _ Hk) as Hin.
  destruct (bag_of data) eqn:B;
    try (rewrite (relocate_loop_not_dict _ _ _ k) in H;
         [discriminate | intros ? ?; discriminate | auto | auto]).
  destruct (relocate_loop known (keys data) data (JDict d)) as [[data' md']|]
    eqn:L; [|discriminate].
  simpl in H. inversion H; subst out. clear H.
  destruct (relocate_loop_dict _ _ _ _ _ L) as [m' [-> Hm]].
  destruct (Hm k) as [H1 H2]. cbv zeta in *. rewrite K, Hin in *.
  simpl in *. exists d, m'. repeat split.
  - apply lookup_set_eq.
  - rewrite lookup_set_neq; auto.
  - rewrite H1. unfold py_get. rewrite Hk. now destruct (lookup k d).
Qed.

End Relocation.

Section Untouched.
Import Dict DictFacts.

Lemma agree_off_refl ks d : agree_off ks d d.
Proof. intros k _. reflexivity. Qed.

Lemma agree_off_trans ks d1 d2 d3 :
  agree_off ks d1 d2 -> agree_off ks d2 d3 -> agree_off ks d1 d3.
Proof. intros H1 H2 k K. rewrite (H2 k K). auto. Qed.

Lemma agree_off_set ks k0 v d :
  str_in k0 ks = true -> agree_off ks d (set k0 v d).
Proof.
  intros I k K. apply lookup_set_neq. intros ->. congruence.
Qed.

Lemma agree_off_setdefault ks k0 v d :
  str_in k0 ks = true -> agree_off ks d (setdefault k0 v d).
Proof.
  intros I k K. apply lookup_setdefault_neq. intros ->. congruence.
Qed.

Lemma agree_off_bag ks d d' :
  str_in "metadata" ks = false -> agree_off ks d d' -> bag_of d' = bag_of d.
Proof. intros M H. unfold bag_of, py_get. now rewrite (H _ M). Qed.

Variable ks : list string.
Hypothesis actors_in : str_in "actors" ks = true.
Hypothesis targets_in : str_in "targets" ks = true.

Lemma adopt_participants_agree d :
  agree_off ks d (adopt_participants d).
Proof.
  unfold adopt_participants.
  destruct (negb _); [|apply agree_off_refl].
  destruct (py_or _ _); try apply agree_off_refl.
  now apply agree_off_set.
Qed.

Lemma scavenge_entities_agree d d' :
  scavenge_entities d = Ok d' -> agree_off ks d d'.
Proof.
  unfold scavenge_entities.
  destruct (negb _); [|intros H; inversion H; apply agree_off_refl].
  destruct (py_or _ _);
    try (intros H; inversion H; apply agree_off_refl).
  destruct (role_filter _ l) as [tl|]; [|discriminate]. unfold bind at 1.
  destruct (role_filter _ l) as [al|]; [|discriminate]. unfold bind.
  intros H. inversion H. subst d'. clear H.
  match goal with
  | |- agree_off _ _ (if ?c then set _ _ ?x else _) =>
      assert (A1 : agree_off ks d x);
      [| destruct c;
         [eapply agree_off_trans; [exact A1 | now apply agree_off_set]
         | exact A1]]
  end.
  match goal with
  | |- agree_off _ _ (if ?c then _ else _) =>
      destruct c; [now apply agree_off_set | apply agree_off_refl]
  end.
Qed.

End Untouched.

Section Normalisers.
Import Dict DictFacts.

Lemma entity_prepared values :
  agree_off entity_touched values
    (setdefault "attributes"
       (py_get_default "state"
          (setdefault "appearance"
             (py_get_default "looks" values (JDict [])) values) (JDict []))
       (setdefault "appearance"
          (py_get_default "looks" values (JDict [])) values)).
Proof.
  eapply agree_off_trans; now apply agree_off_setdefault.
Qed.

Lemma sub_known (known touched : list string) k :
  (forall x, str_in x touched = true -> str_in x known = true) ->
  str_in k known = false -> str_in k touched = false.
Proof.
  intros S K. destruct (str_in k touched) eqn:T; auto.
  rewrite (S _ T) in K. discriminate.
Qed.

Lemma str_in_true_iff k ks : str_in k ks = true <-> In k ks.
Proof.
  unfold str_in. rewrite existsb_exists. split.
  - intros [x [I E]]. apply String.eqb_eq in E. now subst.
  - intros I. exists k. split; auto. apply String.eqb_refl.
Qed.

Lemma touched_known (known touched : list string) :
  forallb (fun x => str_in x known) touched = true ->
  forall x, str_in x touched = true -> str_in x known = true.
Proof.
  intros F x T. rewrite forallb_forall in F. apply F.
  now apply str_in_true_iff.
Qed.

(** The common shape of the three pre-validators: some writes to
    recognised keys other than ["metadata"], then the loop. *)
Lemma prepared_relocate known touched values data out k v :
  forallb (fun x => str_in x known) touched = true ->
  str_in "metadata" touched = false ->
  str_in "metadata" known = true ->
  agree_off touched values data ->
  relocate known data = Ok out ->
  lookup k values = Some v -> str_in k known = false ->
  exists m0 m,
    bag_of values = JDict m0
    /\ lookup "metadata" out = Some (JDict m)
    /\ lookup k out = None
    /\ lookup k m = Some (match lookup k m0 with
                          | Some old => old
                          | None => v
                          end).
Proof.
  intros F M MK A R L K.
  pose proof (sub_known _ _ _ (touched_known _ _ F) K) as T.
  assert (NM : k <> "metadata") by (intros ->; congruence).
  rewrite <- (A _ T) in L.
  destruct (relocate_spec _ _ _ _ _ R L K NM) as [m0 [m [B H]]].
  exists m0, m. rewrite <- (agree_off_bag _ _ _ M A). auto.
Qed.

End Normalisers.

(** C3, as the code has it.  Every key of the input of a pre-validator
    (payload, event or entity) that is not in the recognised set is taken
    out of the object and is bound in the object's metadata bag afterwards.
    Its value there is the input's value, unless the input's own metadata
    already had that key: then the value found in the metadata is kept. *)
Theorem unrecognised_keys_relocated :
  forall (n : normaliser) (values out : pydict) (k : string) (v : json),
    normalise n values = Ok out ->
    Dict.lookup k values = Some v ->
    str_in k (known_of n) = false ->
    exists m0 m,
      bag_of values = JDict m0
      /\ Dict.lookup "metadata" out = Some (JDict m)
      /\ Dict.lookup k out = None
      /\ Dict.lookup k m = Some (match Dict.lookup k m0 with
                                 | Some old => old
                                 | None => v
                                 end).
Proof.
  intros n values out k v N L K. destruct n; simpl in N, K.
  - unfold GeminiPayload_normalise_payload in N.
    eapply (prepared_relocate payload_known payload_touched);
      try eassumption; try reflexivity.
    now apply agree_off_setdefault.
  - unfold GeminiEvent_normalise_event in N.
    match type of N with
    | bind (scavenge_entities ?d) _ = _ =>
        assert (A : agree_off event_touched values d);
        [| destruct (scavenge_entities d) as [d'|] eqn:S; [|discriminate];
           simpl in N;
           apply (scavenge_entities_agree event_touched eq_refl eq_refl) in S;
           apply (prepared_relocate event_known event_touched
                    values d' out k v);
           [reflexivity | reflexivity | reflexivity
           | eapply agree_off_trans; [exact A | exact S]
           | exact N | exact L | exact K] ]
    end.
    eapply agree_off_trans; [|now apply adopt_participants_agree].
    eapply agree_off_trans; [|now apply agree_off_setdefault].
    eapply agree_off_trans; [|now apply agree_off_setdefault].
    eapply agree_off_trans; now apply agree_off_set.
  - unfold GeminiEntity_normalise_fields in N.
    eapply (prepared_relocate entity_known entity_touched);
      try eassumption; try reflexivity.
    apply entity_prepared.
Qed.

Lemma unrecognised_keys_relocated_witness :
  exists m0 m,
    bag_of [("nickname", JStr "Al"); ("name", JStr "Alice")] = JDict m0
    /\ Dict.lookup "metadata"
         [("name", JStr "Alice"); ("appearance", JDict []);
          ("attributes", JDict []); ("metadata", JDict [("nickname", JStr "Al")])]
       = Some (JDict m)
    /\ Dict.lookup "nickname"
         [("name", JStr "Alice"); ("appearance", JDict []);
          ("attributes", JDict []); ("metadata", JDict [("nickname", JStr "Al")])]
       = None
    /\ Dict.lookup "nickname" m
       = Some (match Dict.lookup "nickname" m0 with
               | Some old => old
               | None => JStr "Al"
               end).
Proof.
  apply (unrecognised_keys_relocated OfEntity
           [("nickname", JStr "Al"); ("name", JStr "Alice")]);
    reflexivity.
Defined.

(** C3 as stated fails: an entity with the unrecognised key ["color"] and
    a metadata bag that already binds ["color"] comes out with the bag's
    value only; the value ["red"] of the input is in no part of the
    result. *)
Lemma unrecognised_value_dropped :
  let values :=
    [("color", JStr "red"); ("metadata", JDict [("color", JStr "blue")])] in
  Dict.lookup "color" values = Some (JStr "red")
  /\ str_in "color" (known_of OfEntity) = false
  /\ normalise OfEntity values
     = Ok [("metadata", JDict [("color", JStr "blue")]);
           ("appearance", JDict []); ("attributes", JDict [])].
Proof. repeat split. Qed.

(** ** Identity resolution *)

Section ResolverFacts.

Variable P : Profiles.
Variable py_str : json -> string.
Variable py_eq : json -> json -> bool.
Variable py_lower : string -> string.
Variable uuid4_hex : nat -> string.

(** The declared type as the bucket loop sees it. *)
Lemma select_bucket_cases (entity : GeminiEntity) :
  let t := py_lower (ostr_or (ge_type entity) "unknown") in
  select_bucket P py_lower entity =
    if startswith t "per" then (pr_person P, "person")
    else if startswith t "obj" then (pr_object P, "object")
    else if startswith t "unk" then (pr_unknown P, "unknown")
    else (pr_unknown P, if String.eqb t "" then "unknown" else t).
Proof.
  cbv zeta. unfold select_bucket, buckets. simpl first_bucket.
  change (take 3 "person") with "per".
  change (take 3 "object") with "obj".
  change (take 3 "unknown") with "unk".
  destruct (startswith _ "per"); auto.
  destruct (startswith _ "obj"); auto.
  destruct (startswith _ "unk"); auto.
Qed.

End ResolverFacts.

(** C2, as the code has it.  The bucket is chosen by testing whether the
    lower-cased declared type (["unknown"] when none is declared) starts
    with the first three characters of a category name, trying ["per"],
    ["obj"], ["unk"] in that order.  So ["person"] and ["persons"] select
    the person bucket and ["object"] and ["objects"] the object bucket,
    while ["people"] and ["items"] match no category: the canonical type is
    then the lower-cased type string and lookups use the unknown bucket.
    The last part gives the selection for whatever [str.lower] does to the
    declared type. *)
Theorem bucket_selection_by_prefix :
  forall (P : Profiles),
    (forall entity : GeminiEntity,
        let t := lower (ostr_or (ge_type entity) "unknown") in
        select_bucket P lower entity =
          if startswith t "per" then (pr_person P, "person")
          else if startswith t "obj" then (pr_object P, "object")
          else if startswith t "unk" then (pr_unknown P, "unknown")
          else (pr_unknown P, t))
    /\ select_bucket P lower (typed "person") = (pr_person P, "person")
    /\ select_bucket P lower (typed "Persons") = (pr_person P, "person")
    /\ select_bucket P lower (typed "object") = (pr_object P, "object")
    /\ select_bucket P lower (typed "objects") = (pr_object P, "object")
    /\ select_bucket P lower (typed "people") = (pr_unknown P, "people")
    /\ select_bucket P lower (typed "Items") = (pr_unknown P, "items")
    /\ (forall (py_lower : string -> string) (entity : GeminiEntity),
          let t := py_lower (ostr_or (ge_type entity) "unknown") in
          select_bucket P py_lower entity =
            if startswith t "per" then (pr_person P, "person")
            else if startswith t "obj" then (pr_object P, "object")
            else if startswith t "unk" then (pr_unknown P, "unknown")
            else (pr_unknown P, if String.eqb t "" then "unknown" else t)).
Proof.
  intros P. split;
    [|repeat (split; [reflexivity|]); intros py_lower entity;
      apply select_bucket_cases].
  intros entity. cbv zeta. rewrite select_bucket_cases. cbv zeta.
  destruct (startswith _ "per"); auto.
  destruct (startswith _ "obj"); auto.
  destruct (startswith _ "unk") eqn:U; auto.
  destruct (String.eqb _ "") eqn:E; auto.
  apply String.eqb_eq in E. exfalso.
  destruct (ge_type entity) as [s|]; simpl in E; [|discriminate].
  destruct (String.eqb s "") eqn:S; [discriminate|].
  destruct s; [discriminate S | discriminate E].
Qed.

(** C2 as stated fails: the declared type ["people"] does not select the
    person bucket, and ["items"] does not select the object bucket. *)
Lemma people_not_person_bucket :
  let P := mkProfiles [("p1", [("name", JStr "Bob")])]
                      [("o1", [("name", JStr "cup")])] [] in
  select_bucket P lower (typed "people") = ([], "people")
  /\ select_bucket P lower (typed "people") <> (pr_person P, "person")
  /\ select_bucket P lower (typed "items") = ([], "items")
  /\ select_bucket P lower (typed "items") <> (pr_object P, "object").
Proof.
  cbv zeta. repeat split; intro H; vm_compute in H; discriminate H.
Qed.

Section ExactId.

Variable P : Profiles.
Variable py_str : json -> string.
Variable py_eq : json -> json -> bool.
Variable py_lower : string -> string.
Variable uuid4_hex : nat -> string.

(** C7, as the code has it.  When the entity carries a non-empty id that
    is a key of the selected bucket, the resolver returns that id and a
    copy of the stored profile in which the canonical type is filled in
    only if the profile has no ["type"] key of its own; a type that the
    profile stores is kept.  No random draw is made. *)
Theorem exact_id_match :
  forall (entity : GeminiEntity) (id : string) (p : profile) (draws : nat),
    ge_entity_id entity = Some id -> id <> "" ->
    Dict.lookup id (fst (select_bucket P py_lower entity)) = Some p ->
    let canonical_type := snd (select_bucket P py_lower entity) in
    resolve_identity P py_str py_eq py_lower uuid4_hex entity draws
    = Ok ((id, Dict.setdefault "type" (JStr canonical_type) p), draws)
    /\ Dict.lookup "type" (Dict.setdefault "type" (JStr canonical_type) p)
       = match Dict.lookup "type" p with
         | Some stored => Some stored
         | None => Some (JStr canonical_type)
         end
    /\ forall k, k <> "type" ->
         Dict.lookup k (Dict.setdefault "type" (JStr canonical_type) p)
         = Dict.lookup k p.
Proof.
  intros entity id p draws I NE L ct. subst ct. split; [|split].
  - unfold resolve_identity.
    destruct (select_bucket P py_lower entity) as [b ct]. simpl in *.
    rewrite I. simpl. apply String.eqb_neq in NE. rewrite NE. simpl.
    rewrite L. reflexivity.
  - apply DictFacts.lookup_setdefault_eq.
  - intros k K. now apply DictFacts.lookup_setdefault_neq.
Qed.

End ExactId.

Lemma exact_id_match_witness :
  resolve_identity (one_person "p1" [("name", JStr "Bob")])
    (fun _ => "") (fun _ _ => false) lower (fun _ => "")
    (mkGeminiEntity (Some "p1") None (Some "person") [] [] []) 0
  = Ok (("p1", [("name", JStr "Bob"); ("type", JStr "person")]), 0%nat).
Proof.
  apply (exact_id_match (one_person "p1" [("name", JStr "Bob")])
           (fun _ => "") (fun _ _ => false) lower (fun _ => "")
           (mkGeminiEntity (Some "p1") None (Some "person") [] [] [])
           "p1" [("name", JStr "Bob")] 0%nat);
    [reflexivity | discriminate | reflexivity].
Defined.

(** C7 as stated fails: a stored profile with a type of its own keeps it;
    the canonical type ["person"] does not replace ["robot"]. *)
Lemma stored_type_not_overlaid :
  let P := one_person "p1" [("name", JStr "Bob"); ("type", JStr "robot")] in
  let entity := mkGeminiEntity (Some "p1") None (Some "person") [] [] [] in
  snd (select_bucket P lower entity) = "person"
  /\ resolve_identity P (fun _ => "") (fun _ _ => false) lower (fun _ => "") entity 0
     = Ok (("p1", [("name", JStr "Bob"); ("type", JStr "robot")]), 0%nat).
Proof. split; reflexivity. Qed.

Section Similarity.

Variable py_str : json -> string.
Variable py_eq : json -> json -> bool.
Variable py_lower : string -> string.
Variables appearance attributes : pydict.

Local Abbreviation score :=
  (score_profile py_str py_eq py_lower appearance attributes).
Local Abbreviation scan := (best_scan py_str py_eq py_lower appearance attributes).

Local Abbreviation graded :=
  (scores_all py_str py_eq py_lower appearance attributes).

(** The scan either keeps the best so far, when no profile beats it, or
    ends on the first profile that reaches the highest score. *)
Lemma best_scan_spec items : forall b m s r,
  scan items (b, m) = Ok (s, r) ->
  (s = b /\ r = m
   /\ graded (fun x => (x <= b \/ x = 0)%nat) items)
  \/ (exists l1 pid p l2,
        items = l1 ++ (pid, p) :: l2
        /\ r = Some (pid, p)
        /\ score p = Ok s /\ (b < s)%nat /\ (0 < s)%nat
        /\ graded (fun x => (x < s)%nat) l1
        /\ graded (fun x => (x <= s)%nat) l2).
Proof.
  unfold scores_all.
  induction items as [|[pid p] items IH]; intros b m s r H; simpl in H.
  - inversion H; subst. left. repeat split. constructor.
  - destruct (score p) as [sp|] eqn:Sp; [|discriminate].
    simpl in H.
    destruct ((b <? sp)%nat && (0 <? sp)%nat) eqn:C.
    + apply andb_prop in C. destruct C as [C1 C2].
      apply Nat.ltb_lt in C1. apply Nat.ltb_lt in C2.
      destruct (IH _ _ _ _ H) as [[-> [-> F]] | [l1 [q [pq [l2 H']]]]].
      * right. exists [], pid, p, items. simpl.
        split; [reflexivity|]. split; [reflexivity|].
        split; [exact Sp|]. split; [exact C1|]. split; [exact C2|].
        split; [constructor|].
        eapply Forall_impl; [|exact F].
        intros it [x [Hx [Hle|Hz]]]; exists x; split; auto; lia.
      * destruct H' as [-> [-> [Sq [Lt [Pos [F1 F2]]]]]].
        right. exists ((pid, p) :: l1), q, pq, l2. simpl.
        split; [reflexivity|]. split; [reflexivity|].
        split; [exact Sq|]. split; [lia|]. split; [exact Pos|].
        split; [|exact F2].
        constructor; auto. exists sp. split; auto; simpl; lia.
    + assert (N : (sp <= b \/ sp = 0)%nat).
      { apply andb_false_iff in C. destruct C as [C|C];
          apply Nat.ltb_ge in C; lia. }
      simpl in H.
      destruct (IH _ _ _ _ H) as [[-> [-> F]] | [l1 [q [pq [l2 H']]]]].
      * left. repeat split; auto. constructor; auto.
        exists sp. split; auto.
      * destruct H' as [-> [-> [Sq [Lt [Pos [F1 F2]]]]]].
        right. exists ((pid, p) :: l1), q, pq, l2. simpl.
        split; [reflexivity|]. split; [reflexivity|].
        split; [exact Sq|]. split; [exact Lt|]. split; [exact Pos|].
        split; [|exact F2].
        constructor; auto. exists sp. split; auto; simpl; lia.
Qed.

Variable P : Profiles.
Variable uuid4_hex : nat -> string.

Lemma resolve_by_similarity (entity : GeminiEntity) draws s pid p :
  ge_appearance entity = appearance -> ge_attributes entity = attributes ->
  (if ostr_truthy (ge_entity_id entity)
   then Dict.lookup (ostr_or (ge_entity_id entity) "")
          (fst (select_bucket P py_lower entity))
   else None) = None ->
  (if ostr_truthy (ge_name entity)
   then find_name py_lower (py_lower (ostr_or (ge_name entity) ""))
          (scanned P (fst (select_bucket P py_lower entity)))
   else Ok None) = Ok None ->
  scan (scanned P (fst (select_bucket P py_lower entity))) (0%nat, None)
  = Ok (s, Some (pid, p)) ->
  resolve_identity P py_str py_eq py_lower uuid4_hex entity draws
  = Ok ((pid, with_type (snd (select_bucket P py_lower entity)) p), draws).
Proof.
  intros <- <- I N S. unfold resolve_identity.
  destruct (select_bucket P py_lower entity) as [b ct]. simpl in *.
  rewrite I. unfold mbind.
  destruct (ostr_truthy (ge_name entity)).
  - unfold lift. rewrite N. rewrite S. reflexivity.
  - unfold ret at 1. unfold lift. rewrite S. reflexivity.
Qed.

End Similarity.

(** C5.  When the id and name steps find nothing and the similarity scan
    picks a profile, the resolver returns that profile.  The profiles are
    scanned bucket after bucket: the selected bucket, then the person
    bucket, then the object bucket, each in store order.  In that order
    every profile before the winner has a strictly smaller score and every
    profile after it has a score that is not greater; the winner's own
    score is positive.  So of two profiles with the same positive score the
    earlier one wins, and a later one wins only with a strictly greater
    score. *)
Theorem similarity_tie_break :
  forall (P : Profiles) (py_str : json -> string)
         (py_eq : json -> json -> bool) (py_lower : string -> string)
         (uuid4_hex : nat -> string)
         (entity : GeminiEntity) (draws s : nat) (pid : string) (p : profile),
    let preferred_bucket := fst (select_bucket P py_lower entity) in
    let in_scan_order :=
      preferred_bucket ++ pr_person P ++ pr_object P in
    let score := score_profile py_str py_eq py_lower (ge_appearance entity)
                   (ge_attributes entity) in
    (if ostr_truthy (ge_entity_id entity)
     then Dict.lookup (ostr_or (ge_entity_id entity) "") preferred_bucket
     else None) = None ->
    (if ostr_truthy (ge_name entity)
     then find_name py_lower (py_lower (ostr_or (ge_name entity) ""))
            in_scan_order
     else Ok None) = Ok None ->
    best_scan py_str py_eq py_lower (ge_appearance entity)
      (ge_attributes entity) in_scan_order (0%nat, None)
    = Ok (s, Some (pid, p)) ->
    resolve_identity P py_str py_eq py_lower uuid4_hex entity draws
    = Ok ((pid, with_type (snd (select_bucket P py_lower entity)) p), draws)
    /\ exists earlier later,
         in_scan_order = earlier ++ (pid, p) :: later
         /\ score p = Ok s /\ (0 < s)%nat
         /\ Forall (fun it => exists x, score (snd it) = Ok x /\ (x < s)%nat)
              earlier
         /\ Forall (fun it => exists x, score (snd it) = Ok x /\ (x <= s)%nat)
              later.
Proof.
  intros P py_str py_eq py_lower uuid4_hex entity draws s pid p pb order
    score I N S.
  split.
  - eapply resolve_by_similarity; eauto.
  - destruct (best_scan_spec _ _ _ _ _ _ _ _ _ _ S)
      as [[_ [E _]] | [l1 [q [pq [l2 H]]]]]; [discriminate|].
    destruct H as [E [R [Sq [_ [Pos [F1 F2]]]]]].
    inversion R; subst q pq. exists l1, l2. auto.
Qed.

Lemma similarity_tie_break_witness :
  resolve_identity look_alikes str_of_text eq_text lower (fun _ => "")
    red_thing 0
  = Ok (("o1", [("appearance", JDict [("colour", JStr "Red")]);
                ("type", JStr "object")]), 0%nat)
  /\ exists earlier later,
       fst (select_bucket look_alikes lower red_thing)
         ++ pr_person look_alikes ++ pr_object look_alikes
       = earlier ++ ("o1", [("appearance", JDict [("colour", JStr "Red")])])
                    :: later
       /\ score_profile str_of_text eq_text lower (ge_appearance red_thing)
            (ge_attributes red_thing)
            [("appearance", JDict [("colour", JStr "Red")])] = Ok 1%nat
       /\ (0 < 1)%nat
       /\ Forall (fun it => exists x,
                      score_profile str_of_text eq_text lower
                        (ge_appearance red_thing)
                        (ge_attributes red_thing) (snd it) = Ok x
                      /\ (x < 1)%nat)
            earlier
       /\ Forall (fun it => exists x,
                      score_profile str_of_text eq_text lower
                        (ge_appearance red_thing)
                        (ge_attributes red_thing) (snd it) = Ok x
                      /\ (x <= 1)%nat)
            later.
Proof.
  apply (similarity_tie_break look_alikes str_of_text eq_text lower
           (fun _ => "") red_thing 0%nat 1%nat "o1"
           [("appearance", JDict [("colour", JStr "Red")])]);
    reflexivity.
Defined.

(** ** Merging into the world state *)

Section Merge.
Import Dict DictFacts.

Lemma lookup_rev_none_iff {V} k (e : list (string * V)) :
  lookup k (rev e) = None <-> lookup k e = None.
Proof.
  split; intros H.
  - rewrite <- (rev_involutive e). now apply lookup_rev_none.
  - now apply lookup_rev_none.
Qed.

Lemma lookup_snoc {V} k (l : list (string * V)) x :
lookup k (l ++ [x])
= match lookup k l with
  | Some y => Some y
  | None => if String.eqb k (fst x) then Some (snd x) else None
  end.
Proof.
induction l as [|[a b] l IH]; destruct x as [c e]; simpl; auto.
destruct (String.eqb k a); auto.
Qed.

Lemma lookup_not_key {V} k (d : list (string * V)) :
~ In k (keys d) -> lookup k d = None.
Proof.
induction d as [|[a b] d IH]; simpl; auto. intros H.
destruct (String.eqb k a) eqn:E.
- apply String.eqb_eq in E. subst. tauto.
- apply IH. tauto.
Qed.

(** In a dict, with one binding per key, the order of the bindings does
  not matter to a lookup. *)
Lemma lookup_rev_nodup {V} k (d : list (string * V)) :
NoDup (keys d) -> lookup k (rev d) = lookup k d.
Proof.
induction d as [|[a b] d IH]; simpl; auto. intros N.
inversion N; subst. rewrite lookup_snoc, (IH H2). simpl.
destruct (String.eqb k a) eqn:E; [|now destruct (lookup k d)].
apply String.eqb_eq in E. subst a. now rewrite (lookup_not_key _ _ H1).
Qed.

(** [d.update(e)] takes the value of [e] at every key of [e]. *)
Lemma lookup_update_present {V} k w (d e : list (string * V)) :
NoDup (keys e) -> lookup k e = Some w -> lookup k (update d e) = Some w.
Proof.
intros N L. rewrite lookup_update, (lookup_rev_nodup k e N), L. reflexivity.
Qed.

(** Where the observation lacks a key, the overlay built by
  [_build_event_actor] has the stored value. *)
Lemma overlay_stored k (stored observed : pydict) :
lookup k observed = None -> NoDup (keys stored) ->
lookup k (update (update [] stored) observed) = lookup k stored.
Proof.
intros L N. rewrite !lookup_update, (lookup_rev_none k observed L).
rewrite (lookup_rev_nodup k stored N). simpl. now destruct (lookup k stored).
Qed.

(** [d.update(e)] binds a key iff [d] or [e] does. *)
Lemma lookup_update_none {V} k (d e : list (string * V)) :
  lookup k (update d e) = None <-> lookup k d = None /\ lookup k e = None.
Proof.
  rewrite lookup_update. rewrite <- (lookup_rev_none_iff k e).
  destruct (lookup k (rev e)); split; intros H;
    try discriminate; try tauto; destruct H; discriminate.
Qed.

(** The overlay built by [_build_event_actor] lacks a key iff both of
    its sources do. *)
Lemma overlay_lacks k (stored observed : pydict) :
  lookup k (update (update [] stored) observed) = None
  <-> lookup k observed = None /\ lookup k stored = None.
Proof.
  rewrite !lookup_update_none. simpl. tauto.
Qed.

Variable event : Event.
Variable id : string.

(** One projection of the entity state: appearance or attributes. *)
Variable known_of_state : EntityState -> pydict.
Variable seen_of_actor : EventActor -> pydict.
Hypothesis merge_rule : forall ws p existing,
  lookup (ea_entity_id p) ws = Some existing ->
  exists e', lookup (ea_entity_id p) (update_participant event ws p) = Some e'
    /\ known_of_state e'
       = match seen_of_actor p with
         | [] => known_of_state existing
         | _ => update (known_of_state existing) (seen_of_actor p)
         end.

Lemma update_participant_other ws p :
  ea_entity_id p <> id ->
  lookup id (update_participant event ws p) = lookup id ws.
Proof.
  intros N. unfold update_participant.
  destruct (lookup (ea_entity_id p) ws);
    apply lookup_set_neq; congruence.
Qed.

Lemma fold_keeps k v : forall ps ws existing,
  lookup id ws = Some existing ->
  lookup k (known_of_state existing) = Some v ->
  (forall p, In p ps -> ea_entity_id p = id ->
             lookup k (seen_of_actor p) = None) ->
  exists e',
    lookup id (fold_left (update_participant event) ps ws) = Some e'
    /\ lookup k (known_of_state e') = Some v.
Proof.
  induction ps as [|p ps IH]; intros ws existing L K A; simpl.
  - eauto.
  - destruct (string_dec (ea_entity_id p) id) as [E|N].
    + pose proof (A p (or_introl eq_refl) E) as Ab.
      rewrite <- E in L.
      destruct (merge_rule ws p existing L) as [e' [L' K']].
      rewrite E in L'.
      apply (IH _ e' L'); [|intros; apply A; auto; now right].
      rewrite K'. destruct (seen_of_actor p) eqn:S; auto.
      rewrite lookup_update_absent; auto.
    + apply (IH _ existing); auto.
      * now rewrite update_participant_other.
      * intros; apply A; auto; now right.
Qed.

Lemma fold_overwrites k w : forall ps ws existing,
  lookup id ws = Some existing ->
  (forall p, In p ps -> ea_entity_id p = id ->
             lookup k (seen_of_actor p) = Some w
             /\ NoDup (keys (seen_of_actor p))) ->
  (lookup k (known_of_state existing) = Some w
   \/ exists p, In p ps /\ ea_entity_id p = id) ->
  exists e',
    lookup id (fold_left (update_participant event) ps ws) = Some e'
    /\ lookup k (known_of_state e') = Some w.
Proof.
  induction ps as [|p ps IH]; intros ws existing L A D; simpl.
  - destruct D as [K|[p [[] _]]]. eauto.
  - destruct (string_dec (ea_entity_id p) id) as [E|N].
    + destruct (A p (or_introl eq_refl) E) as [S ND].
      rewrite <- E in L.
      destruct (merge_rule ws p existing L) as [e' [L' K']].
      rewrite E in L'.
      apply (IH _ e' L'); [intros; apply A; auto; now right|].
      left. rewrite K'. destruct (seen_of_actor p) eqn:Q; [discriminate|].
      rewrite <- Q in *. now apply lookup_update_present.
    + apply (IH _ existing); auto.
      * now rewrite update_participant_other.
      * intros; apply A; auto; now right.
      * destruct D as [K|[q [[->|I] Eq]]]; auto; [contradiction|].
        right. eauto.
Qed.

End Merge.

Section MergeRules.
Import Dict DictFacts.

Lemma merge_rule_appearance event ws p existing :
  lookup (ea_entity_id p) ws = Some existing ->
  exists e', lookup (ea_entity_id p) (update_participant event ws p) = Some e'
    /\ es_appearance e'
       = match ea_appearance p with
         | [] => es_appearance existing
         | _ => update (es_appearance existing) (ea_appearance p)
         end.
Proof.
  intros L. unfold update_participant. rewrite L.
  eexists. split; [apply lookup_set_eq|reflexivity].
Qed.

Lemma merge_rule_attributes event ws p existing :
  lookup (ea_entity_id p) ws = Some existing ->
  exists e', lookup (ea_entity_id p) (update_participant event ws p) = Some e'
    /\ es_attributes e'
       = match ea_attributes p with
         | [] => es_attributes existing
         | _ => update (es_attributes existing) (ea_attributes p)
         end.
Proof.
  intros L. unfold update_participant. rewrite L.
  eexists. split; [apply lookup_set_eq|reflexivity].
Qed.

Variable P : Profiles.
Variable py_str : json -> string.
Variable py_eq : json -> json -> bool.
Variable py_lower : string -> string.
Variable uuid4_hex : nat -> string.

(** The participant built from an observed entity carries the matched
    profile's appearance and attributes overlaid by the observed ones. *)
Lemma build_event_actor_maps entity draws a draws' :
  _build_event_actor P py_str py_eq py_lower uuid4_hex entity draws = Ok (a, draws') ->
  exists id p pa pt,
    resolve_identity P py_str py_eq py_lower uuid4_hex entity draws
    = Ok ((id, p), draws')
    /\ update_source (py_or (py_get "appearance" p) (JDict [])) = Ok pa
    /\ update_source (py_or (py_get "attributes" p) (JDict [])) = Ok pt
    /\ ea_entity_id a = id
    /\ ea_appearance a = update (update [] pa) (ge_appearance entity)
    /\ ea_attributes a = update (update [] pt) (ge_attributes entity).
Proof.
  unfold _build_event_actor, mbind.
  destruct (resolve_identity P py_str py_eq py_lower uuid4_hex entity draws)
    as [[[id p] n1]|]; [|discriminate].
  unfold lift.
  destruct (update_source (py_or (py_get "appearance" p) (JDict [])))
    as [pa|] eqn:Ea; [|discriminate].
  destruct (update_source (py_or (py_get "attributes" p) (JDict [])))
    as [pt|] eqn:Et; [|discriminate].
  destruct (to_res _) as [name|]; [|discriminate].
  destruct (validate_str _) as [type|]; [|discriminate].
  unfold ret. intros H. inversion H; subst. simpl.
  exists id, p, pa, pt. repeat split; assumption.
Qed.

End MergeRules.

(** C1, as the code has it.  What is merged into the world state is the
    resolved participant, whose appearance and attributes are those of the
    matched profile overlaid by those of the payload.  For an entity that
    the world state already knows, an appearance or attributes key that no
    participant of the new event with that entity's id carries keeps its
    value through the merge; and a participant lacks a key exactly when
    both the payload and the matched profile lack it; for a key that the
    payload lacks the participant has the matched profile's value, and a
    key that every participant of the event with that entity's id carries
    with one value has that value after the merge, whatever it was
    before. *)
Theorem merge_keeps_unobserved_keys :
  forall (P : Profiles) (py_str : json -> string)
         (py_eq : json -> json -> bool) (py_lower : string -> string)
         (uuid4_hex : nat -> string)
         (state : SceneState) (event : Event) (id : string)
         (existing : EntityState) (k : string) (v : json),
    Dict.lookup id (world_state state) = Some existing ->
    (Dict.lookup k (es_appearance existing) = Some v ->
     (forall p, In p (participants event) -> ea_entity_id p = id ->
                Dict.lookup k (ea_appearance p) = None) ->
     known_appearance (_update_world_state state event) id k = Some v)
    /\ (Dict.lookup k (es_attributes existing) = Some v ->
        (forall p, In p (participants event) -> ea_entity_id p = id ->
                   Dict.lookup k (ea_attributes p) = None) ->
        known_attribute (_update_world_state state event) id k = Some v)
    /\ (forall entity draws a draws',
          _build_event_actor P py_str py_eq py_lower uuid4_hex entity draws
          = Ok (a, draws') ->
          exists p pa pt,
            resolve_identity P py_str py_eq py_lower uuid4_hex entity draws
            = Ok ((ea_entity_id a, p), draws')
            /\ update_source (py_or (py_get "appearance" p) (JDict [])) = Ok pa
            /\ update_source (py_or (py_get "attributes" p) (JDict [])) = Ok pt
            /\ (Dict.lookup k (ea_appearance a) = None <->
                Dict.lookup k (ge_appearance entity) = None
                /\ Dict.lookup k pa = None)
            /\ (Dict.lookup k (ea_attributes a) = None <->
                Dict.lookup k (ge_attributes entity) = None
                /\ Dict.lookup k pt = None)
            /\ (Dict.lookup k (ge_appearance entity) = None ->
                NoDup (Dict.keys pa) ->
                Dict.lookup k (ea_appearance a) = Dict.lookup k pa)
            /\ (Dict.lookup k (ge_attributes entity) = None ->
                NoDup (Dict.keys pt) ->
                Dict.lookup k (ea_attributes a) = Dict.lookup k pt))
    /\ (forall w,
          (exists p, In p (participants event) /\ ea_entity_id p = id) ->
          (forall p, In p (participants event) -> ea_entity_id p = id ->
                     Dict.lookup k (ea_appearance p) = Some w
                     /\ NoDup (Dict.keys (ea_appearance p))) ->
          known_appearance (_update_world_state state event) id k = Some w)
    /\ (forall w,
          (exists p, In p (participants event) /\ ea_entity_id p = id) ->
          (forall p, In p (participants event) -> ea_entity_id p = id ->
                     Dict.lookup k (ea_attributes p) = Some w
                     /\ NoDup (Dict.keys (ea_attributes p))) ->
          known_attribute (_update_world_state state event) id k = Some w).
Proof.
  intros P py_str py_eq py_lower uuid4_hex state event id existing k v L.
  split; [|split; [|split; [|split]]].
  - intros K A. unfold known_appearance, _update_world_state. simpl.
    destruct (fold_keeps event id es_appearance ea_appearance
                (merge_rule_appearance event) k v _ _ _ L K A) as [e' [L' K']].
    now rewrite L'.
  - intros K A. unfold known_attribute, _update_world_state. simpl.
    destruct (fold_keeps event id es_attributes ea_attributes
                (merge_rule_attributes event) k v _ _ _ L K A) as [e' [L' K']].
    now rewrite L'.
  - intros entity draws a draws' B.
    destruct (build_event_actor_maps _ _ _ _ _ _ _ _ _ B)
      as [i [p [pa [pt [R [Ea [Et [I [A1 A2]]]]]]]]].
    subst i. exists p, pa, pt. rewrite A1, A2.
    split; [exact R|]. split; [exact Ea|]. split; [exact Et|].
    split; [apply overlay_lacks|]. split; [apply overlay_lacks|].
    split; intros; now apply overlay_stored.
  - intros w E A. unfold known_appearance, _update_world_state. simpl.
    destruct (fold_overwrites event id es_appearance ea_appearance
                (merge_rule_appearance event) k w _ _ _ L A (or_intror E))
      as [e' [L' K']].
    now rewrite L'.
  - intros w E A. unfold known_attribute, _update_world_state. simpl.
    destruct (fold_overwrites event id es_attributes ea_attributes
                (merge_rule_attributes event) k w _ _ _ L A (or_intror E))
      as [e' [L' K']].
    now rewrite L'.
Qed.

Lemma merge_keeps_unobserved_keys_witness :
  known_appearance
    (_update_world_state
       (mkSceneState []
          [("p1", mkEntityState "p1" None "person" [("hair", JStr "red")] []
                    (Some "e1") (Naive 1))])
       (mkEvent "e2" (Naive 2) "observation" None
          (Some (mkEventActor "p1" None "person" [("hat", JStr "blue")] []))
          None []))
    "p1" "hair" = Some (JStr "red").
Proof.
  refine (proj1 (merge_keeps_unobserved_keys dyed str_of_text eq_text lower
                   (fun _ => "")
                   (mkSceneState []
                      [("p1", mkEntityState "p1" None "person"
                                [("hair", JStr "red")] [] (Some "e1")
                                (Naive 1))])
                   (mkEvent "e2" (Naive 2) "observation" None
                      (Some (mkEventActor "p1" None "person"
                               [("hat", JStr "blue")] []))
                      None [])
                   "p1" _ "hair" (JStr "red") eq_refl) eq_refl _).
  intros p [<-|[]] _. reflexivity.
Defined.

(** C1 as stated fails.  The stored profile of ["p1"] has black hair; the
    first event reports red hair, the second reports no appearance at all.
    After the first event the world state has ["hair"] red; the key is
    absent from the second observation's payload; after the second event
    the world state has ["hair"] black. *)
Lemma profile_value_replaces_observed :
  let run evs :=
    final_state
      (ingest_loop (fun _ => "") dyed str_of_text eq_text lower (fun _ => "")
         (mkGeminiPayload [first_sighting; second_sighting] [])
         evs 0 (empty_state, []) 0) in
  option_map (fun st => known_appearance st "p1" "hair") (run [first_sighting])
  = Some (Some (JStr "red"))
  /\ Dict.lookup "hair" (ge_appearance seen_again) = None
  /\ option_map (fun st => known_appearance st "p1" "hair")
       (run [first_sighting; second_sighting])
     = Some (Some (JStr "black")).
Proof. cbv zeta. repeat split. Qed.

(** ** Sorting by timestamp *)

Section SortingFacts.

Context {A : Type} (key : A -> datetime).

Local Abbreviation key_le :=
  (fun x y : A => (instant (key x) <= instant (key y))%Z).

Lemma insert_by_perm x l : Permutation (insert_by key x l) (x :: l).
Proof.
  induction l as [|y l IH]; simpl; auto.
  destruct (dt_leb (key x) (key y)); auto.
  rewrite IH. apply perm_swap.
Qed.

Lemma stable_sort_perm l : Permutation (stable_sort key l) l.
Proof.
  induction l as [|x l IH]; simpl; auto.
  rewrite insert_by_perm. now constructor.
Qed.

Lemma insert_by_sorted x l :
  StronglySorted key_le l -> StronglySorted key_le (insert_by key x l).
Proof.
  induction 1 as [|y l S IH F]; simpl.
  - repeat constructor.
  - unfold dt_leb. destruct (Z.leb_spec (instant (key x)) (instant (key y))).
    + constructor; [constructor; auto|].
      constructor; auto.
      eapply Forall_impl; [|exact F]. cbv beta. intros; lia.
    + constructor; auto.
      rewrite (Forall_forall). intros z Hz.
      apply (Permutation_in _ (insert_by_perm x l)) in Hz.
      destruct Hz as [<-|Hz].
      * cbv beta. lia.
      * rewrite Forall_forall in F. auto.
Qed.

Lemma stable_sort_sorted l : StronglySorted key_le (stable_sort key l).
Proof.
  induction l; simpl; [constructor|now apply insert_by_sorted].
Qed.

(** Sorting a list that is in order already changes nothing. *)
Lemma stable_sort_id l : StronglySorted key_le l -> stable_sort key l = l.
Proof.
  induction 1 as [|x l S IH F]; simpl; auto.
  rewrite IH. destruct l as [|y l]; simpl; auto.
  inversion F; subst. unfold dt_leb.
  destruct (Z.leb_spec (instant (key x)) (instant (key y))); auto.
  cbv beta in *. lia.
Qed.

Lemma comparable_kind l :
  comparable key l = true ->
  exists b, Forall (fun x => is_aware (key x) = b) l.
Proof.
  destruct l as [|x l]; simpl; intros H.
  - exists true. constructor.
  - exists (is_aware (key x)). constructor; auto.
    rewrite forallb_forall in H. rewrite Forall_forall. intros y Hy.
    specialize (H y Hy). apply Bool.eqb_prop in H. auto.
Qed.

Lemma kind_comparable l b :
  Forall (fun x => is_aware (key x) = b) l -> comparable key l = true.
Proof.
  destruct l as [|x l]; simpl; auto. intros F.
  inversion F; subst. apply forallb_forall. intros y Hy.
  rewrite Forall_forall in H2. rewrite (H2 y Hy). apply Bool.eqb_reflx.
Qed.

(** What [sorted] returns is in ascending order and holds the same
    items. *)
Lemma py_sorted_spec l l' :
  py_sorted key l = Ok l' ->
  l' = stable_sort key l /\ ascending key l' /\ Permutation l' l.
Proof.
  unfold py_sorted. destruct (comparable key l) eqn:C; [|discriminate].
  intros H. inversion H; subst l'. clear H.
  split; auto. split; [|apply stable_sort_perm].
  destruct (comparable_kind _ C) as [b F].
  assert (F' : Forall (fun x => is_aware (key x) = b) (stable_sort key l)).
  { rewrite Forall_forall in *. intros x Hx. apply F.
    eapply Permutation_in; [apply stable_sort_perm|exact Hx]. }
  pose proof (stable_sort_sorted l) as S. unfold ascending.
  induction S as [|x r S IH Fx]; constructor.
  - inversion F'; auto.
  - inversion F'; subst. rewrite Forall_forall in *. intros y Hy.
    split; [|apply Fx; auto]. rewrite (H2 y Hy). auto.
Qed.

Lemma ascending_sorted l : ascending key l -> StronglySorted key_le l.
Proof.
  induction 1; constructor; auto.
  eapply Forall_impl; [|eassumption]. intros a0 [_ H']. exact H'.
Qed.

Lemma ascending_comparable l : ascending key l -> comparable key l = true.
Proof.
  intros H. destruct l as [|x l]; auto.
  apply (kind_comparable _ (is_aware (key x))).
  inversion H; subst. constructor; auto.
  eapply Forall_impl; [|eassumption]. intros a0 [H' _]. auto.
Qed.

End SortingFacts.

(** ** [ingest] *)

Section IngestFacts.

Variable fromtimestamp : Z -> res datetime.
Variable fromisoformat : string -> option datetime.
Variable isoformat : datetime -> string.
Variable P : Profiles.
Variable py_str : json -> string.
Variable py_eq : json -> json -> bool.
Variable py_lower : string -> string.
Variable uuid4_hex : nat -> string.
Variable json_loads : string -> res json.
Variable SceneState_parse_obj : json -> option SceneState.
Variable SceneState_json : SceneState -> string.

Local Abbreviation parse :=
  (GeminiPayload_parse_obj fromtimestamp fromisoformat).
Local Abbreviation load := (load_state json_loads SceneState_parse_obj).
Local Abbreviation merge :=
  (merge_payload isoformat P py_str py_eq py_lower uuid4_hex).
Local Abbreviation loop := (ingest_loop isoformat P py_str py_eq py_lower uuid4_hex).
Local Abbreviation run :=
  (ingest fromtimestamp fromisoformat isoformat P py_str py_eq py_lower uuid4_hex
     json_loads SceneState_parse_obj SceneState_json).

(** A call that returns has parsed, loaded, merged and saved. *)
Lemma ingest_ok_inv gemini_json f draws state f' :
  run gemini_json f draws = (Ok state, f') ->
  exists payload prior draws',
    parse gemini_json = Ok payload
    /\ load f = Ok prior
    /\ merge payload prior draws = Ok (state, draws')
    /\ f' = save_state SceneState_json state.
Proof.
  unfold ingest.
  destruct (parse gemini_json) as [payload|e] eqn:Ep.
  - destruct (load f) as [prior|e] eqn:El; [|discriminate].
    destruct (merge payload prior draws) as [[st n]|e] eqn:Em;
      [|discriminate].
    intros H. inversion H; subst. exists payload, prior, n. auto.
  - destruct e; discriminate.
Qed.

(** A call that raises leaves the file as it was. *)
Lemma ingest_raise_file gemini_json f draws e f' :
  run gemini_json f draws = (Raise e, f') -> f' = f.
Proof.
  unfold ingest.
  destruct (parse gemini_json) as [payload|e0].
  - destruct (load f) as [prior|e1]; [|intros H; now inversion H].
    destruct (merge payload prior draws) as [[st n]|e2];
      intros H; now inversion H.
  - destruct e0; intros H; now inversion H.
Qed.

Lemma merge_payload_inv payload prior draws state draws' :
  merge payload prior draws = Ok (state, draws') ->
  exists ordered st ids,
    py_sorted gv_timestamp (gp_events payload) = Ok ordered
    /\ loop payload ordered 0 (prior, map ev_id (timeline prior)) draws
       = Ok ((st, ids), draws')
    /\ py_sorted ev_timestamp (timeline st) = Ok (timeline state)
    /\ world_state state = world_state st.
Proof.
  unfold merge_payload, mbind, lift.
  destruct (py_sorted gv_timestamp (gp_events payload)) as [ordered|];
    [|discriminate].
  destruct (loop payload ordered 0 _ draws) as [[[st ids] n1]|] eqn:El;
    [|discriminate].
  simpl fst.
  destruct (py_sorted ev_timestamp (timeline st)) as [tl|] eqn:Es;
    [|discriminate].
  unfold ret. intros H. inversion H; subst. simpl.
  exists ordered, st, ids. auto.
Qed.

End IngestFacts.

(** C6.  Whenever [ingest] returns, whatever the prior state and the
    payload, the timeline of the state it returns is in ascending order of
    timestamps, and that state is the one written to the store. *)
Theorem ingest_timeline_sorted :
  forall fromtimestamp fromisoformat isoformat (P : Profiles) py_str py_eq py_lower
         uuid4_hex json_loads SceneState_parse_obj SceneState_json
         (gemini_json : json) (f f' : file) (draws : nat) (state : SceneState),
    ingest fromtimestamp fromisoformat isoformat P py_str py_eq py_lower uuid4_hex
      json_loads SceneState_parse_obj SceneState_json gemini_json f draws
    = (Ok state, f') ->
    ascending ev_timestamp (timeline state)
    /\ f' = save_state SceneState_json state.
Proof.
  intros until state. intros H.
  destruct (ingest_ok_inv _ _ _ _ _ _ _ _ _ _ _ _ _ _ _ _ H)
    as [payload [prior [n [_ [_ [M ->]]]]]].
  split; auto.
  destruct (merge_payload_inv _ _ _ _ _ _ _ _ _ _ _ M)
    as [ordered [st [ids [_ [_ [S _]]]]]].
  now apply py_sorted_spec in S.
Qed.

Lemma ingest_timeline_sorted_witness :
  ascending ev_timestamp (timeline in_order)
  /\ Content "a,b"
     = save_state (fun st => String.concat "," (map ev_id (timeline st)))
         in_order.
Proof.
  apply (ingest_timeline_sorted (fun n => Ok (Naive n)) (fun _ => None)
           (fun _ => "t") no_profiles str_of_text eq_text lower
           (fun _ => "0123456789abcdef") (fun _ => Raise JSONDecodeError)
           (fun _ => None)
           (fun st => String.concat "," (map ev_id (timeline st)))
           out_of_order Absent (Content "a,b") 0%nat in_order).
  vm_compute. reflexivity.
Defined.

(** C10, as the code has it.  The payload [{}] parses to a payload with
    an empty events list.  For every payload that parses to one with no
    events: if the prior state loads and the timestamps of its timeline can
    be ordered (all naive or all aware), ingesting the payload returns and
    saves a state with the prior world state and with the prior timeline
    sorted by timestamp: a permutation of it, and the prior timeline itself
    when that was in order already. *)
Theorem ingest_empty_payload :
  forall fromtimestamp fromisoformat isoformat (P : Profiles) py_str py_eq
         py_lower uuid4_hex json_loads SceneState_parse_obj SceneState_json
         (gemini_json : json) (payload : GeminiPayload)
         (f : file) (draws : nat) (prior : SceneState),
    GeminiPayload_parse_obj fromtimestamp fromisoformat gemini_json
    = Ok payload ->
    gp_events payload = [] ->
    load_state json_loads SceneState_parse_obj f = Ok prior ->
    comparable ev_timestamp (timeline prior) = true ->
    GeminiPayload_parse_obj fromtimestamp fromisoformat (JDict [])
    = Ok (mkGeminiPayload [] [])
    /\ exists state,
         ingest fromtimestamp fromisoformat isoformat P py_str py_eq py_lower
           uuid4_hex json_loads SceneState_parse_obj SceneState_json
           gemini_json f draws
         = (Ok state, save_state SceneState_json state)
         /\ world_state state = world_state prior
         /\ timeline state = stable_sort ev_timestamp (timeline prior)
         /\ ascending ev_timestamp (timeline state)
         /\ Permutation (timeline state) (timeline prior)
         /\ (ascending ev_timestamp (timeline prior) ->
             timeline state = timeline prior).
Proof.
  intros until prior. intros Pp E L C. split; [reflexivity|].
  assert (S : py_sorted ev_timestamp (timeline prior)
              = Ok (stable_sort ev_timestamp (timeline prior))).
  { unfold py_sorted. now rewrite C. }
  exists (mkSceneState (stable_sort ev_timestamp (timeline prior))
            (world_state prior)).
  split.
  - unfold ingest. rewrite Pp, L.
    unfold merge_payload, mbind, lift. rewrite E. simpl. rewrite S.
    reflexivity.
  - simpl. destruct (py_sorted_spec _ _ _ S) as [_ [A Pm]].
    repeat split; auto.
    intros A'. apply stable_sort_id. now apply ascending_sorted.
Qed.

Lemma ingest_empty_payload_witness :
  exists state,
    stored_ingest in_order no_profiles (JDict [("note", JStr "quiet")])
      (Content "a,b") 0
    = (Ok state,
       save_state (fun st => String.concat "," (map ev_id (timeline st))) state)
    /\ world_state state = world_state in_order
    /\ timeline state = stable_sort ev_timestamp (timeline in_order)
    /\ ascending ev_timestamp (timeline state)
    /\ Permutation (timeline state) (timeline in_order)
    /\ (ascending ev_timestamp (timeline in_order) ->
        timeline state = timeline in_order).
Proof.
  refine (proj2 (ingest_empty_payload (fun n => Ok (Naive n)) (fun _ => None)
                   (fun _ => "t") no_profiles str_of_text eq_text lower
                   (fun _ => "0123456789abcdef") (fun _ => Ok JNull)
                   (fun _ => Some in_order)
                   (fun st => String.concat "," (map ev_id (timeline st)))
                   (JDict [("note", JStr "quiet")])
                   (mkGeminiPayload [] [("note", JStr "quiet")])
                   (Content "a,b") 0%nat in_order _ _ _ _)); reflexivity.
Defined.

(** C10 as stated fails: over a stored timeline that holds a naive and an
    aware timestamp, ingesting [{}] raises [TypeError] in the final sort
    and the store is left as it was. *)
Lemma ingest_empty_payload_raises :
  load_state (fun _ => Ok JNull) (fun _ => Some mixed_state) (Content "{}")
  = Ok mixed_state
  /\ stored_ingest mixed_state no_profiles (JDict []) (Content "{}") 0
     = (Raise TypeError, Content "{}").
Proof. split; reflexivity. Qed.

(** ** Event ids *)

Section EventIds.

Variable uuid4_hex : nat -> string.

Lemma length_append a b :
  String.length (String.append a b) = (String.length a + String.length b)%nat.
Proof. induction a; simpl; auto. Qed.

Lemma str_in_longest s ids :
  str_in s ids = true -> (String.length s <= longest ids)%nat.
Proof.
  induction ids as [|x ids IH]; simpl; [discriminate|].
  unfold str_in in *. simpl.
  destruct (String.eqb s x) eqn:E; simpl.
  - apply String.eqb_eq in E. subst. lia.
  - intros H. specialize (IH H). lia.
Qed.

(** With fuel beyond the length of the longest id in use, the loop ends
    because its test fails, never because the fuel is spent. *)
Lemma disambiguate_spec existing : forall fuel event_id draws,
  (longest existing < fuel + String.length event_id)%nat ->
  exists k,
    disambiguate uuid4_hex fuel existing event_id draws
    = Ok (with_suffixes uuid4_hex event_id draws k, (draws + k)%nat)
    /\ str_in (with_suffixes uuid4_hex event_id draws k) existing = false
    /\ forall j, (j < k)%nat ->
         str_in (with_suffixes uuid4_hex event_id draws j) existing = true.
Proof.
  induction fuel as [|fuel IH]; intros event_id draws B;
    cbn [disambiguate].
  - exists 0%nat. simpl. rewrite Nat.add_0_r. split; [reflexivity|].
    split; [|intros; lia].
    destruct (str_in event_id existing) eqn:E; auto.
    apply str_in_longest in E. lia.
  - destruct (str_in event_id existing) eqn:E.
    + destruct (IH (String.append event_id
                      (String.append "-" (take 4 (uuid4_hex draws))))
                   (S draws)) as [k [R [F A]]].
      { rewrite !length_append. simpl. lia. }
      exists (S k). cbn [with_suffixes]. unfold mbind, uuid4.
      cbv beta iota. rewrite R.
      replace (S draws + k)%nat with (draws + S k)%nat by lia.
      split; [reflexivity|]. split; [exact F|].
      intros [|j] Hj; simpl; auto. apply A. lia.
    + exists 0%nat. simpl. rewrite Nat.add_0_r.
      split; [reflexivity|]. split; [exact E|intros; lia].
Qed.

(** More fuel changes nothing. *)
Lemma disambiguate_fuel existing : forall fuel event_id draws,
  (longest existing < fuel + String.length event_id)%nat ->
  disambiguate uuid4_hex (S fuel) existing event_id draws
  = disambiguate uuid4_hex fuel existing event_id draws.
Proof.
  induction fuel as [|fuel IH]; intros event_id draws B.
  - simpl. destruct (str_in event_id existing) eqn:E; auto.
    apply str_in_longest in E. simpl in B. lia.
  - cbn [disambiguate].
    destruct (str_in event_id existing); auto.
    unfold mbind, uuid4. apply IH.
    rewrite !length_append. simpl. lia.
Qed.

Lemma unique_id_spec existing event_id draws :
  exists k,
    unique_id uuid4_hex existing event_id draws
    = Ok (with_suffixes uuid4_hex event_id draws k, (draws + k)%nat)
    /\ str_in (with_suffixes uuid4_hex event_id draws k) existing = false
    /\ forall j, (j < k)%nat ->
         str_in (with_suffixes uuid4_hex event_id draws j) existing = true.
Proof.
  unfold unique_id. apply disambiguate_spec. lia.
Qed.

End EventIds.

Section LoopIds.

Variable isoformat : datetime -> string.
Variable P : Profiles.
Variable py_str : json -> string.
Variable py_eq : json -> json -> bool.
Variable py_lower : string -> string.
Variable uuid4_hex : nat -> string.

Local Abbreviation step := (ingest_event isoformat P py_str py_eq py_lower uuid4_hex).
Local Abbreviation loop := (ingest_loop isoformat P py_str py_eq py_lower uuid4_hex).
Local Abbreviation first_id := (first_event_id isoformat).
Local Abbreviation assigned := (ids_assigned isoformat uuid4_hex).

(** One turn of the loop appends one event, with the timestamp of the
    raw event and an id that was not in use. *)
Lemma ingest_event_inv payload st ids index raw draws st' ids' draws' :
  step payload (st, ids) index raw draws = Ok ((st', ids'), draws') ->
  exists event,
    timeline st' = timeline st ++ [event]
    /\ ids' = ev_id event :: ids
    /\ ev_timestamp event = gv_timestamp raw
    /\ (exists d k,
          ev_id event = with_suffixes uuid4_hex (first_id index raw) d k
          /\ forall j, (j < k)%nat ->
               str_in (with_suffixes uuid4_hex (first_id index raw) d j) ids
               = true)
    /\ str_in (ev_id event) ids = false.
Proof.
  unfold ingest_event.
  destruct (unique_id_spec uuid4_hex ids (first_id index raw) draws)
    as [k [R [F A]]].
  unfold mbind at 1. rewrite R.
  unfold mbind at 1.
  destruct (first_actor P py_str py_eq py_lower uuid4_hex (gv_actors raw) _)
    as [[actor n1]|]; [|discriminate].
  unfold mbind at 1.
  destruct (first_actor P py_str py_eq py_lower uuid4_hex (gv_targets raw) _)
    as [[target n2]|]; [|discriminate].
  unfold mbind, lift.
  destruct (validate_str _) as [action|]; [|discriminate].
  unfold ret. intros H. inversion H; subst. clear H.
  eexists. split; [reflexivity|]. simpl.
  split; [reflexivity|]. split; [reflexivity|].
  split; [exists draws, k; split; [reflexivity|exact A]|exact F].
Qed.

Lemma ingest_loop_inv payload : forall events index st ids draws st' ids' draws',
  loop payload events index (st, ids) draws = Ok ((st', ids'), draws') ->
  exists new,
    timeline st' = timeline st ++ new
    /\ assigned events index ids new.
Proof.
  induction events as [|raw events IH];
    intros index st ids draws st' ids' draws' H.
  - simpl in H. inversion H; subst. exists []. rewrite app_nil_r.
    split; [reflexivity|exact I].
  - cbn [ingest_loop] in H.
    unfold mbind in H.
    destruct (step payload (st, ids) index raw draws)
      as [[[st1 ids1] n1]|] eqn:S; [|discriminate].
    destruct (ingest_event_inv _ _ _ _ _ _ _ _ _ S)
      as [event [T [-> [Ts [Ch F]]]]].
    destruct (IH _ _ _ _ _ _ _ H) as [new [T' A]].
    exists (event :: new). split.
    + rewrite T', T, <- app_assoc. reflexivity.
    + cbn [ids_assigned].
      auto.
Qed.

(** The ids assigned to a run of events are pairwise distinct and none
    of them was in use before. *)
Lemma assigned_fresh : forall events index ids new,
  assigned events index ids new ->
  NoDup (map ev_id new)
  /\ (forall e, In e new -> ~ In (ev_id e) ids)
  /\ List.length new = List.length events
  /\ map ev_timestamp new = map gv_timestamp events.
Proof.
  induction events as [|raw events IH]; intros index ids [|event new] A;
    simpl in A; try contradiction.
  - repeat split; [constructor | intros e []].
  - destruct A as [Ts [_ [F A]]].
    destruct (IH _ _ _ A) as [N [D [Ln Tm]]]. simpl.
    split; [|split; [|split]].
    + constructor; auto. intros I. apply in_map_iff in I.
      destruct I as [e [E I]]. apply (D e I). left. auto.
    + intros e [<-|I].
      * intros I. apply str_in_true_iff in I. congruence.
      * intros I'. apply (D e I). now right.
    + now rewrite Ln.
    + now rewrite Ts, Tm.
Qed.

(** The id of the event stored for the raw event at a position: its first
    id with suffixes, each shorter one being in use at that point. *)
Lemma assigned_nth : forall events index ids new,
  assigned events index ids new ->
  forall i raw event,
    nth_error events i = Some raw -> nth_error new i = Some event ->
    ev_timestamp event = gv_timestamp raw
    /\ exists d k,
         ev_id event
         = with_suffixes uuid4_hex (first_id (index + i) raw) d k
         /\ forall j, (j < k)%nat ->
              In (with_suffixes uuid4_hex (first_id (index + i) raw) d j)
                 (ids ++ map ev_id (firstn i new)).
Proof.
  induction events as [|raw0 events IH]; intros index ids [|event0 new] A;
    simpl in A; try contradiction; intros i raw event Er En.
  - destruct i; discriminate.
  - destruct A as [Ts [[d [k [E Aj]]] [_ A]]].
    destruct i as [|i]; simpl in Er, En.
    + inversion Er; inversion En; subst. rewrite Nat.add_0_r.
      split; [exact Ts|]. exists d, k. split; [exact E|].
      intros j Lt. simpl. rewrite app_nil_r.
      apply str_in_true_iff. now apply Aj.
    + destruct (IH _ _ _ A i raw event Er En) as [Ts' [d' [k' [E' Aj']]]].
      rewrite Nat.add_succ_r. simpl in E', Aj'.
      split; [exact Ts'|]. exists d', k'. split; [exact E'|].
      intros j Lt. specialize (Aj' j Lt). simpl firstn. simpl map.
      apply in_app_iff. simpl in Aj'. simpl.
      destruct Aj' as [Q|Q]; [right; now left|].
      apply in_app_iff in Q. destruct Q; [now left|right; now right].
Qed.

End LoopIds.

(** C8.  Whenever [ingest] returns, the returned timeline is the prior
    timeline together with one new event per event of the batch.  Taken in
    sorted order, each new event has the id [ids_assigned] describes: the
    raw id when there is a non-empty one, else ["event-"], the timestamp
    in ISO format, ["-"] and the position in the sorted batch, counted from
    0; followed by as many suffixes ["-"] plus four
    characters of a fresh [uuid4] as are needed to leave the ids in use,
    which are those of the prior timeline and of the events before it in
    the batch.  So the new ids are pairwise distinct and none is an id of
    the prior timeline.  In particular, for a batch of two events that both
    supply ["e1"] over a timeline without ["e1"], the first is stored as
    ["e1"] and the second as ["e1"] with at least one suffix: exactly
    ["e1-"] and four characters when that id is not in the prior timeline
    either.  The last part spells the ids out position by position: the
    event stored for the raw event at position [i] has that raw event's
    timestamp, and its id is the first id followed by suffixes, every
    shorter candidate being an id of the prior timeline or of an event
    stored earlier in the batch; when the first id is none of these, it is
    the id. *)
Theorem event_ids_unique :
  forall fromtimestamp fromisoformat isoformat (P : Profiles) py_str py_eq py_lower
         uuid4_hex json_loads SceneState_parse_obj SceneState_json
         (gemini_json : json) (f f' : file) (draws : nat) (state : SceneState),
    ingest fromtimestamp fromisoformat isoformat P py_str py_eq py_lower uuid4_hex
      json_loads SceneState_parse_obj SceneState_json gemini_json f draws
    = (Ok state, f') ->
    exists payload prior ordered new,
      GeminiPayload_parse_obj fromtimestamp fromisoformat gemini_json
      = Ok payload
      /\ load_state json_loads SceneState_parse_obj f = Ok prior
      /\ py_sorted gv_timestamp (gp_events payload) = Ok ordered
      /\ Permutation (timeline state) (timeline prior ++ new)
      /\ ids_assigned isoformat uuid4_hex ordered 0
           (map ev_id (timeline prior)) new
      /\ NoDup (map ev_id new)
      /\ (forall e, In e new -> ~ In (ev_id e) (map ev_id (timeline prior)))
      /\ (forall raw1 raw2,
            ordered = [raw1; raw2] ->
            gv_event_id raw1 = Some "e1" -> gv_event_id raw2 = Some "e1" ->
            ~ In "e1" (map ev_id (timeline prior)) ->
            exists d more,
              map ev_id new = ["e1"; with_suffixes uuid4_hex "e1" d (S more)]
              /\ (~ In (String.append "e1-" (take 4 (uuid4_hex d)))
                       (map ev_id (timeline prior)) ->
                  map ev_id new
                  = ["e1"; String.append "e1-" (take 4 (uuid4_hex d))]))
      /\ (forall (i : nat) raw event,
            nth_error ordered i = Some raw ->
            nth_error new i = Some event ->
            let first_id :=
              match gv_event_id raw with
              | Some (String c s) => String c s
              | _ => String.append "event-"
                       (String.append (isoformat (gv_timestamp raw))
                          (String.append "-" (str_of_nat i)))
              end in
            let in_use :=
              map ev_id (timeline prior) ++ map ev_id (firstn i new) in
            ev_timestamp event = gv_timestamp raw
            /\ (exists d k,
                  ev_id event = with_suffixes uuid4_hex first_id d k
                  /\ forall j, (j < k)%nat ->
                       In (with_suffixes uuid4_hex first_id d j) in_use)
            /\ (~ In first_id in_use -> ev_id event = first_id)).
Proof.
  intros until state. intros H.
  destruct (ingest_ok_inv _ _ _ _ _ _ _ _ _ _ _ _ _ _ _ _ H)
    as [payload [prior [n [Pa [Lo [M ->]]]]]].
  destruct (merge_payload_inv _ _ _ _ _ _ _ _ _ _ _ M)
    as [ordered [st [ids [So [Lp [S _]]]]]].
  destruct (ingest_loop_inv _ _ _ _ _ _ _ _ _ _ _ _ _ _ _ Lp) as [new [T A]].
  simpl in T.
  destruct (assigned_fresh _ _ _ _ _ _ A) as [N [D _]].
  exists payload, prior, ordered, new.
  split; [exact Pa|]. split; [exact Lo|]. split; [exact So|].
  split; [rewrite <- T; exact (proj2 (proj2 (py_sorted_spec _ _ _ S)))|].
  split; [exact A|]. split; [exact N|]. split; [exact D|].
  split; cycle 1.
  { intros i raw event Er En first_id in_use.
    destruct (assigned_nth _ _ _ _ _ _ A i raw event Er En)
      as [Ts [d [k [E Aj]]]].
    assert (F : first_event_id isoformat (0 + i) raw = first_id).
    { unfold first_event_id, first_id, ostr_or. simpl.
      destruct (gv_event_id raw) as [[|c s]|]; reflexivity. }
    rewrite F in *. split; [exact Ts|]. split; [exists d, k; auto|].
    intros NI. destruct k as [|k]; [exact E|].
    exfalso. apply NI. apply (Aj 0%nat). lia. }
  intros raw1 raw2 -> I1 I2 NI.
  destruct new as [|ev1 [|ev2 [|ev3 new]]]; simpl in A; try tauto.
  destruct A as [_ [[d1 [k1 [E1 A1]]] [F1 [_ [[d2 [k2 [E2 A2]]] [F2 _]]]]]].
  unfold first_event_id in *. rewrite I1 in *. rewrite I2 in *.
  simpl ostr_or in *.
  assert (K1 : k1 = 0%nat).
  { destruct k1; auto. exfalso. apply NI. apply str_in_true_iff.
    apply (A1 0%nat). lia. }
  subst k1. simpl in E1. rewrite E1 in *.
  destruct k2 as [|more].
  { simpl in E2. rewrite E2 in F2. unfold str_in in F2. simpl in F2.
    discriminate. }
  exists d2, more. simpl map. rewrite E1, E2. split; [reflexivity|].
  intros NI2. destruct more as [|more]; [reflexivity|]. exfalso.
  assert (B : str_in (with_suffixes uuid4_hex "e1" d2 1)
                (map ev_id (timeline prior)) = true).
  { assert (A2' := A2 1%nat ltac:(lia)).
    unfold str_in in *. simpl in A2'. simpl. exact A2'. }
  apply NI2. apply str_in_true_iff. exact B.
Qed.

Lemma event_ids_unique_witness :
  (demo_ingest no_profiles e1_twice Absent 0
   = (Ok e1_twice_state, Content "e1,e1-0123")
   /\ exists new,
        Permutation (timeline e1_twice_state) new
        /\ NoDup (map ev_id new)
        /\ map ev_id new = ["e1"; "e1-0123"])
  /\ (demo_ingest no_profiles no_ids Absent 0
      = (Ok no_ids_state, Content "event-t-0,event-t-1")
      /\ exists new,
           Permutation (timeline no_ids_state) new
           /\ map ev_id new = ["event-t-0"; "event-t-1"]).
Proof.
  split.
  - assert (H : demo_ingest no_profiles e1_twice Absent 0
                = (Ok e1_twice_state, Content "e1,e1-0123"))
      by (vm_compute; reflexivity).
    split; [exact H|].
    destruct (event_ids_unique _ _ _ _ _ _ _ _ _ _ _ _ _ _ _ _ H)
      as [payload [prior [ordered [new [Pa [Lo [So [Pm [_ [N [_ [Sc _]]]]]]]]]]]].
    exists new.
    assert (Ep : prior = empty_state) by (inversion Lo; reflexivity).
    subst prior. simpl in Pm. split; [exact Pm|]. split; [exact N|].
    assert (Eq : payload
                 = mkGeminiPayload
                     [mkGeminiEvent (Some "e1") (Naive 1) None None [] [] [];
                      mkGeminiEvent (Some "e1") (Naive 2) None None [] [] []]
                     [])
      by (vm_compute in Pa; inversion Pa; reflexivity).
    subst payload.
    assert (Eo : ordered
                 = [mkGeminiEvent (Some "e1") (Naive 1) None None [] [] [];
                    mkGeminiEvent (Some "e1") (Naive 2) None None [] [] []])
      by (vm_compute in So; inversion So; reflexivity).
    destruct (Sc _ _ Eo eq_refl eq_refl (fun x => x)) as [d [more [_ E]]].
    apply E. intros [].
  - assert (H : demo_ingest no_profiles no_ids Absent 0
                = (Ok no_ids_state, Content "event-t-0,event-t-1"))
      by (vm_compute; reflexivity).
    split; [exact H|].
    destruct (event_ids_unique _ _ _ _ _ _ _ _ _ _ _ _ _ _ _ _ H)
      as [payload [prior [ordered [new [Pa [Lo [So [Pm [A [_ [_ [_ Sp]]]]]]]]]]]].
    exists new.
    assert (Ep : prior = empty_state) by (inversion Lo; reflexivity).
    subst prior. simpl in Pm. split; [exact Pm|].
    assert (Eq : payload
                 = mkGeminiPayload
                     [mkGeminiEvent None (Naive 1) None None [] [] [];
                      mkGeminiEvent None (Naive 2) None None [] [] []] [])
      by (vm_compute in Pa; inversion Pa; reflexivity).
    subst payload.
    assert (Eo : ordered
                 = [mkGeminiEvent None (Naive 1) None None [] [] [];
                    mkGeminiEvent None (Naive 2) None None [] [] []])
      by (vm_compute in So; inversion So; reflexivity).
    subst ordered.
    destruct new as [|ev1 [|ev2 [|ev3 new]]]; cbn [ids_assigned] in A;
      try tauto; try (destruct A as [_ [_ [_ []]]]; fail);
      try (destruct A as [_ [_ [_ [_ [_ [_ []]]]]]]; fail).
    destruct (Sp 0%nat _ ev1 eq_refl eq_refl) as [_ [_ E1]].
    destruct (Sp 1%nat _ ev2 eq_refl eq_refl) as [_ [_ E2]].
    simpl in E1, E2.
    assert (I1 : ev_id ev1 = "event-t-0") by (apply E1; intros []).
    rewrite I1 in E2.
    assert (I2 : ev_id ev2 = "event-t-1").
    { apply E2. intros [Q|[]]. discriminate. }
    simpl. now rewrite I1, I2.
Defined.

(** ** Rejected timestamps *)

Section Rejection.
Import Dict DictFacts.

Lemma vboth_valid {A B} (x : vres A) (y : vres B) p :
  vboth x y = Valid p -> x = Valid (fst p) /\ y = Valid (snd p).
Proof.
  destruct x, y; simpl; intros H; inversion H; auto.
Qed.

Lemma vmap_valid {A B} (g : A -> B) (x : vres A) b :
  vmap g x = Valid b -> exists a, x = Valid a.
Proof. destruct x; simpl; intros H; inversion H; eauto. Qed.

Lemma vall_valid {A} (xs : list (vres A)) l :
  vall xs = Valid l -> forall x, In x xs -> exists a, x = Valid a.
Proof.
  revert l. induction xs as [|x xs IH]; intros l H y []; simpl in H.
  - subst y. apply vmap_valid in H. destruct H as [p H].
    apply vboth_valid in H. destruct H as [H _]. eauto.
  - apply vmap_valid in H. destruct H as [p H].
    apply vboth_valid in H. destruct H as [_ H]. eauto.
Qed.

(** The loop leaves the recognised keys alone. *)
Lemma relocate_loop_known known ks : forall data md r k,
  relocate_loop known ks data md = Ok r ->
  str_in k known = true -> lookup k (fst r) = lookup k data.
Proof.
  induction ks as [|key ks IH]; intros data md r k H K; simpl in H.
  - inversion H. reflexivity.
  - destruct (str_in key known) eqn:Kk; [eauto|].
    destruct md; try discriminate.
    rewrite (IH _ _ _ _ H K). apply lookup_remove_neq.
    intros ->. congruence.
Qed.

Lemma relocate_known known data out k :
  relocate known data = Ok out ->
  str_in k known = true -> k <> "metadata" ->
  lookup k out = lookup k data.
Proof.
  unfold relocate.
  destruct (relocate_loop known (keys data) data (bag_of data))
    as [r|] eqn:L; [|discriminate].
  simpl. intros H K N. inversion H; subst out.
  rewrite lookup_set_neq; auto. eapply relocate_loop_known; eauto.
Qed.

Lemma normalised_timestamp values data :
  GeminiEvent_normalise_event values = Ok data ->
  lookup "timestamp" data = Some (reconciled_timestamp values).
Proof.
  unfold GeminiEvent_normalise_event.
  match goal with
  | |- bind (scavenge_entities (adopt_participants ?d)) _ = _ -> _ =>
      set (d4 := d)
  end.
  destruct (scavenge_entities (adopt_participants d4)) as [d6|] eqn:S;
    [|discriminate].
  simpl. intros R.
  rewrite (relocate_known _ _ _ "timestamp" R eq_refl); [|discriminate].
  pose proof (scavenge_entities_agree
                ["action"; "summary"; "actors"; "targets"]
                eq_refl eq_refl _ _ S) as A6.
  pose proof (adopt_participants_agree
                ["action"; "summary"; "actors"; "targets"]
                eq_refl d4) as A5.
  rewrite (A6 "timestamp" eq_refl), (A5 "timestamp" eq_refl).
  unfold d4.
  rewrite lookup_setdefault_neq by discriminate.
  rewrite lookup_setdefault_neq by discriminate.
  rewrite lookup_set_eq. unfold reconciled_timestamp, py_get.
  rewrite !lookup_set_neq by discriminate. reflexivity.
Qed.

Lemma normalised_events values data :
  GeminiPayload_normalise_payload values = Ok data ->
  lookup "events" data = Some (raw_events values).
Proof.
  unfold GeminiPayload_normalise_payload. intros R.
  rewrite (relocate_known _ _ _ "events" R eq_refl); [|discriminate].
  rewrite lookup_setdefault_eq. unfold raw_events, py_get_default.
  now destruct (lookup "events" values).
Qed.

Variable fromtimestamp : Z -> res datetime.
Variable fromisoformat : string -> option datetime.

Lemma coerce_rejects value :
  accepted_shape fromisoformat value = false ->
  GeminiEvent_coerce_timestamp fromtimestamp fromisoformat value
  = Raise ValueError.
Proof.
  destruct value; simpl; try discriminate; auto.
  destruct (fromisoformat (replace_Z s)); [discriminate|auto].
Qed.

(** An event whose time is in none of the accepted shapes is not valid. *)
Lemma event_not_valid values :
  accepted_shape fromisoformat (reconciled_timestamp values) = false ->
  forall ev, GeminiEvent_validate fromtimestamp fromisoformat (JDict values)
             <> Valid ev.
Proof.
  intros Sh ev H. unfold GeminiEvent_validate in H.
  destruct (GeminiEvent_normalise_event values) as [data|e] eqn:N.
  - simpl of_pre in H. cbv iota in H.
    apply vmap_valid in H. destruct H as [p H].
    apply vboth_valid in H. destruct H as [_ H].
    apply vboth_valid in H. destruct H as [H _].
    rewrite (normalised_timestamp _ _ N) in H.
    unfold validate_timestamp in H.
    rewrite (coerce_rejects _ Sh) in H. discriminate.
  - destruct e; discriminate.
Qed.

(** A payload with such an event does not parse. *)
Lemma payload_not_parsed values events event :
  raw_events values = JList events -> In (JDict event) events ->
  accepted_shape fromisoformat (reconciled_timestamp event) = false ->
  exists e, GeminiPayload_parse_obj fromtimestamp fromisoformat (JDict values)
            = Raise e.
Proof.
  intros Ev I Sh. unfold GeminiPayload_parse_obj.
  destruct (GeminiPayload_normalise_payload values) as [data|e] eqn:N.
  - simpl of_pre. cbv iota.
    rewrite (normalised_events _ _ N), Ev. unfold validate_list.
    destruct (vall (map (GeminiEvent_validate fromtimestamp fromisoformat)
                      events)) as [l| |e] eqn:V.
    + exfalso.
      destruct (vall_valid _ _ V
                  (GeminiEvent_validate fromtimestamp fromisoformat
                     (JDict event))) as [a Ha].
      { apply in_map_iff. eauto. }
      exact (event_not_valid _ Sh _ Ha).
    + simpl. destruct (validate_dict _); simpl; eauto.
    + simpl. eauto.
  - destruct e; simpl; eauto.
Qed.

End Rejection.

(** An event whose time value (its [timestamp], else [time], else
    [event_time]) is in none of the accepted shapes stops the payload from
    parsing, and [ingest] raises with the store left exactly as it was:
    nothing is loaded, appended or saved.  A [ValidationError] is raised
    again as [ValueError]; any other exception is passed on as it is. *)
Lemma invalid_timestamp_aborts :
  forall fromtimestamp fromisoformat isoformat (P : Profiles) py_str py_eq
         py_lower uuid4_hex json_loads SceneState_parse_obj SceneState_json
         (values : pydict) (events : list json) (event : pydict)
         (f : file) (draws : nat),
    raw_events values = JList events ->
    In (JDict event) events ->
    accepted_shape fromisoformat (reconciled_timestamp event) = false ->
    exists e,
      GeminiPayload_parse_obj fromtimestamp fromisoformat (JDict values)
      = Raise e
      /\ ingest fromtimestamp fromisoformat isoformat P py_str py_eq py_lower
           uuid4_hex json_loads SceneState_parse_obj SceneState_json
           (JDict values) f draws
         = (Raise (match e with ValidationError => ValueError | _ => e end), f).
Proof.
  intros until draws. intros Ev I Sh.
  destruct (payload_not_parsed fromtimestamp fromisoformat _ _ _ Ev I Sh)
    as [e Pe].
  exists e. split; [exact Pe|].
  unfold ingest. rewrite Pe. destruct e; reflexivity.
Qed.

Example invalid_timestamp_aborts_bad_time :
  GeminiPayload_parse_obj (fun n => Ok (Naive n)) (fun _ => None)
    (JDict bad_time) = Raise ValidationError
  /\ demo_ingest no_profiles (JDict bad_time) (Content "x") 7
     = (Raise ValueError, Content "x").
Proof. split; reflexivity. Qed.

(** C4 fails on the code.  The only event of the batch [stray_key] has a
    list for a timestamp, which is none of the accepted shapes; it also has
    a string for a metadata bag and a key that is not recognised.  The
    pre-validator calls [setdefault] on the string and raises
    [AttributeError], which pydantic does not turn into a
    [ValidationError]; [ingest] catches only [ValidationError], so the
    caller gets the [AttributeError] and not the [ValueError] that reports
    a malformed payload.  The store is left as it was. *)
Theorem invalid_timestamp_error_escapes :
  forall fromtimestamp fromisoformat isoformat (P : Profiles) py_str py_eq
         py_lower uuid4_hex json_loads SceneState_parse_obj SceneState_json
         (f : file) (draws : nat),
    (exists events event,
       raw_events stray_key = JList events
       /\ In (JDict event) events
       /\ accepted_shape fromisoformat (reconciled_timestamp event) = false)
    /\ GeminiPayload_parse_obj fromtimestamp fromisoformat (JDict stray_key)
       = Raise AttributeError
    /\ ingest fromtimestamp fromisoformat isoformat P py_str py_eq py_lower
         uuid4_hex json_loads SceneState_parse_obj SceneState_json
         (JDict stray_key) f draws
       = (Raise AttributeError, f).
Proof.
  intros. split; [|split].
  - eexists _, _. split; [reflexivity|]. split; [left; reflexivity|].
    reflexivity.
  - reflexivity.
  - reflexivity.
Qed.

(** ** The state store *)

Section StoreFacts.

Variable json_loads : string -> res json.
Variable SceneState_parse_obj : json -> option SceneState.

Local Abbreviation load := (load_state json_loads SceneState_parse_obj).

(** The failures that [load_state] recovers from. *)
Lemma load_state_recovers :
  load Absent = Ok empty_state
  /\ load Unreadable = Ok empty_state
  /\ (forall text e,
        read_text (Content text) = Ok text ->
        json_loads text = Raise e ->
        e = OSError \/ e = JSONDecodeError ->
        load (Content text) = Ok empty_state)
  /\ (forall text raw,
        read_text (Content text) = Ok text ->
        json_loads text = Ok raw -> SceneState_parse_obj raw = None ->
        load (Content text) = Ok empty_state).
Proof.
  split; [reflexivity|]. split; [reflexivity|]. split.
  - intros text e R J [->| ->]; unfold load_state; rewrite R; simpl;
      rewrite J; reflexivity.
  - intros text raw R J V. unfold load_state. rewrite R. simpl.
    rewrite J, V. reflexivity.
Qed.


End StoreFacts.

(** C9 fails on the code: a state file whose bytes are not UTF-8 makes
    the read raise [UnicodeDecodeError], which [load_state] does not
    catch. *)
Theorem load_state_raises_on_undecodable_file :
  forall (json_loads : string -> res json)
         (SceneState_parse_obj : json -> option SceneState),
    load_state json_loads SceneState_parse_obj not_utf8
    = Raise UnicodeDecodeError.
Proof. intros. reflexivity. Qed.

(** ** Scenarios *)

(** An entity named Alice with no matching profile gets an id made of her
    name and eight characters of a [uuid4], and the type ["unknown"]. *)
Example alice_is_synthesized :
  resolve_identity no_profiles str_of_text eq_text lower
    (fun _ => "0123456789abcdef")
    (mkGeminiEntity None (Some "Alice") None [("hair", JStr "red")] [] []) 0
  = Ok (("alice_01234567",
         [("id", JStr "alice_01234567"); ("name", JStr "Alice");
          ("type", JStr "unknown");
          ("appearance", JDict [("hair", JStr "red")]);
          ("attributes", JDict [])]), 1%nat).
Proof. reflexivity. Qed.

(** A person named ["bob"] resolves to the stored Bob without an id. *)
Example bob_by_name :
  resolve_identity
    (one_person "p1" [("name", JStr "Bob"); ("type", JStr "person")])
    str_of_text eq_text lower (fun _ => "0123456789abcdef")
    (mkGeminiEntity None (Some "bob") (Some "person") [] [] []) 0
  = Ok (("p1", [("name", JStr "Bob"); ("type", JStr "person")]), 0%nat).
Proof. reflexivity. Qed.

(** An event with no action of its own is stored as an observation. *)
Example action_defaults_to_observation :
  option_map (map ev_action)
    (option_map timeline
       (match fst (demo_ingest no_profiles out_of_order Absent 0) with
        | Ok st => Some st
        | Raise _ => None
        end))
  = Some ["observation"; "observation"].
Proof. reflexivity. Qed.

(** * Further properties *)

(** ** The sections of the profile file *)

Section KeyFacts.

Lemma key_eqb_refl k : hashable k = true -> key_eqb k k = true.
Proof.
destruct k; simpl; try discriminate; intros _; auto.
- destruct b; auto.
- apply Z.eqb_refl.
- apply String.eqb_refl.
- rewrite Z.eqb_refl. now destruct (is_aware t).
Qed.

Lemma key_eqb_hashable a b : key_eqb a b = true -> hashable b = true.
Proof. destruct a, b; simpl; auto; discriminate. Qed.

Lemma key_eqb_sym a b : key_eqb a b = key_eqb b a.
Proof.
destruct a, b; simpl; auto.
- now destruct b, b0.
- apply Z.eqb_sym.
- apply Z.eqb_sym.
- apply Z.eqb_sym.
- apply String.eqb_sym.
- rewrite Z.eqb_sym. f_equal. now destruct (is_aware t), (is_aware t0).
Qed.

Lemma key_eqb_trans a b c :
key_eqb a b = true -> key_eqb b c = true -> key_eqb a c = true.
Proof.
destruct a as [|x|n|s|t|l|d], b as [|y|m|s'|t'|l'|d'],
         c as [|z|q|s''|t''|l''|d'']; simpl;
  try discriminate; auto;
  rewrite ?Z.eqb_eq, ?String.eqb_eq, ?andb_true_iff, ?Z.eqb_eq,
    ?Bool.eqb_true_iff;
  try (intros; subst; auto; fail);
  try (intros [K1 I1] [K2 I2]; split; congruence).
all: try (destruct x; destruct y; simpl; intros; subst; auto; lia).
all: try (destruct x; destruct z; simpl; intros; subst; auto; lia).
all: try (destruct y; destruct z; simpl; intros; subst; auto; lia).
all: try (destruct x; simpl; intros; subst; auto; lia).
all: try (destruct y; simpl; intros; subst; auto; lia).
all: try (destruct z; simpl; intros; subst; auto; lia).
Qed.

(** What [d[k] = v] leaves in a dict. *)
Lemma kset_in k v d k0 p :
hashable k = true ->
In (k0, p) (KDict.set k v d) ->
In (k0, p) d \/ (p = v /\ key_eqb k k0 = true).
Proof.
intros H. induction d as [|[k' v'] d IH]; simpl.
- intros [E|[]]. inversion E; subst. right. split; auto.
  now apply key_eqb_refl.
- destruct (key_eqb k k') eqn:E; simpl.
  + intros [E'|I]; [inversion E'; subst; auto | auto].
  + intros [E'|I]; [auto|]. destruct (IH I); auto.
Qed.

Lemma klookup_set k v d k0 :
KDict.lookup k0 (KDict.set k v d)
= if key_eqb k0 k then Some v else KDict.lookup k0 d.
Proof.
induction d as [|[k' v'] d IH]; simpl; auto.
destruct (key_eqb k k') eqn:E; simpl.
- destruct (key_eqb k0 k') eqn:E0.
  + rewrite key_eqb_sym in E.
    now rewrite (key_eqb_trans _ _ _ E0 E).
  + destruct (key_eqb k0 k) eqn:E1; auto.
    rewrite (key_eqb_trans _ _ _ E1 E) in E0. discriminate.
- destruct (key_eqb k0 k') eqn:E0.
  + destruct (key_eqb k0 k) eqn:E1; auto.
    rewrite key_eqb_sym in E1.
    rewrite (key_eqb_trans _ _ _ E1 E0) in E. discriminate.
  + apply IH.
Qed.

(** [d.update(e)]: the bindings of [e] win, the last one first. *)
Lemma klookup_update k : forall e d,
KDict.lookup k (KDict.update d e)
= match KDict.lookup k (rev e) with
  | Some p => Some p
  | None => KDict.lookup k d
  end.
Proof.
unfold KDict.update.
induction e as [|[k1 v1] e IH]; intros d; simpl; auto.
rewrite IH, klookup_set.
assert (L : forall l, KDict.lookup k (l ++ [(k1, v1)])
                      = match KDict.lookup k l with
                        | Some p => Some p
                        | None => if key_eqb k k1 then Some v1 else None
                        end).
{ induction l as [|[a b] l IHl]; simpl; auto.
  destruct (key_eqb k a); auto. }
rewrite L. destruct (KDict.lookup k (rev e)); auto.
now destruct (key_eqb k k1).
Qed.

End KeyFacts.

Section SectionFacts.
Import DictFacts.

Lemma mem_setdefault k v (d : pydict) : Dict.mem k (Dict.setdefault k v d) = true.
Proof.
unfold Dict.mem. rewrite lookup_setdefault_eq.
now destruct (Dict.lookup k d).
Qed.

Lemma section_of_dict_inv (Q : json * pydict -> Prop) :
(forall key v k,
    key_eqb (py_get "id" (Dict.setdefault "id" (JStr key) v)) k = true ->
    Q (k, Dict.setdefault "id" (JStr key) v)) ->
forall items result r,
  section_of_dict items result = Ok r -> Forall Q result -> Forall Q r.
Proof.
intros Step. induction items as [|[key value] items IH];
  intros result r H F; simpl in H.
- inversion H; subst; exact F.
- destruct value; eauto.
  destruct (hashable _) eqn:Hh; [|discriminate].
  apply (IH _ _ H). rewrite Forall_forall in *. intros [k p] I.
  destruct (kset_in _ _ _ _ _ Hh I) as [I'|[-> E]]; auto.
Qed.

Lemma section_of_list_inv (Q : json * pydict -> Prop) :
(forall e k,
    let entry_id := py_or (py_get "id" e) (py_get "name" e) in
    truthy entry_id = true -> key_eqb entry_id k = true ->
    Q (k, Dict.setdefault "id" entry_id e)) ->
forall entries result r,
  section_of_list entries result = Ok r -> Forall Q result -> Forall Q r.
Proof.
intros Step. induction entries as [|entry entries IH];
  intros result r H F; simpl in H.
- inversion H; subst; exact F.
- destruct entry; eauto.
  destruct (truthy (py_or (py_get "id" d) (py_get "name" d))) eqn:T;
    simpl in H; eauto.
  destruct (hashable _) eqn:Hh; [|discriminate].
  apply (IH _ _ H). rewrite Forall_forall in *. intros [k p] I.
  destruct (kset_in _ _ _ _ _ Hh I) as [I'|[-> E]]; auto.
Qed.

(** The id-or-name of a list entry is still its id-or-name once the id
  has been filled in. *)
Lemma entry_id_stable e :
let entry_id := py_or (py_get "id" e) (py_get "name" e) in
truthy entry_id = true ->
py_or (py_get "id" (Dict.setdefault "id" entry_id e))
      (py_get "name" (Dict.setdefault "id" entry_id e)) = entry_id.
Proof.
cbv zeta. intros T. unfold Dict.setdefault, Dict.mem.
destruct (Dict.lookup "id" e) as [v|] eqn:L; auto.
assert (G : py_get "id" e = JNull) by (unfold py_get; now rewrite L).
rewrite G in *.
change (py_or JNull (py_get "name" e)) with (py_get "name" e) in *.
assert (S : py_get "id" (Dict.set "id" (py_get "name" e) e)
            = py_get "name" e)
  by (unfold py_get at 1; now rewrite lookup_set_eq).
rewrite S. unfold py_or. now rewrite T.
Qed.

End SectionFacts.

(** The entries of a section built from a list. *)
Lemma list_section_entries entries result k p :
  section_of_list entries [] = Ok result -> In (k, p) result ->
  hashable k = true
  /\ Dict.mem "id" p = true
  /\ key_eqb k (py_or (py_get "id" p) (py_get "name" p)) = true.
Proof.
  intros H I.
  assert (F : Forall (fun kp : json * pydict =>
                        hashable (fst kp) = true
                        /\ Dict.mem "id" (snd kp) = true
                        /\ key_eqb (fst kp)
                             (py_or (py_get "id" (snd kp))
                                    (py_get "name" (snd kp))) = true) result).
  { apply (section_of_list_inv _) with (entries := entries) (result := []);
      auto.
    intros e k0 entry_id T E. simpl fst. simpl snd.
    split; [exact (key_eqb_hashable _ _ E)|].
    split; [apply mem_setdefault|].
    unfold entry_id in *. rewrite (entry_id_stable e T).
    now rewrite key_eqb_sym. }
  rewrite Forall_forall in F. exact (F _ I).
Qed.

(** The entries of a section built from a dict. *)
Lemma dict_section_entries items result k p :
  section_of_dict items [] = Ok result -> In (k, p) result ->
  hashable k = true
  /\ Dict.mem "id" p = true
  /\ key_eqb k (py_get "id" p) = true.
Proof.
  intros H I.
  assert (F : Forall (fun kp : json * pydict =>
                        hashable (fst kp) = true
                        /\ Dict.mem "id" (snd kp) = true
                        /\ key_eqb (fst kp) (py_get "id" (snd kp)) = true)
                     result).
  { apply (section_of_dict_inv _) with (items := items) (result := []); auto.
    intros key v k0 E. simpl fst. simpl snd.
    split; [exact (key_eqb_hashable _ _ E)|].
    split; [apply mem_setdefault|]. now rewrite key_eqb_sym. }
  rewrite Forall_forall in F. exact (F _ I).
Qed.



Section LoaderFacts.

Lemma klookup_in k : forall d p,
KDict.lookup k d = Some p ->
exists k', key_eqb k k' = true /\ In (k', p) d.
Proof.
induction d as [|[k0 v0] d IH]; simpl; intros p H; [discriminate|].
destruct (key_eqb k k0) eqn:E.
- inversion H; subst. eauto.
- destruct (IH _ H) as [k' [E' I]]. eauto.
Qed.

Lemma section_at_update c c' more s :
section_at c (update_section c' more s)
= match c, c' with
  | Person, Person | Object, Object | Unknown, Unknown =>
      KDict.update (section_at c s) more
  | _, _ => section_at c s
  end.
Proof. destruct c, c'; reflexivity. Qed.

(** Where the profiles of a section come from. *)
Lemma load_sections_from py_lower c k p : forall items init r,
load_sections py_lower items init = Ok r ->
KDict.lookup k (section_at c r) = Some p ->
KDict.lookup k (section_at c init) = Some p
\/ exists key value sec k',
     In (key, value) items /\ category_of py_lower key = c
     /\ _normalise_section value = Ok sec
     /\ key_eqb k k' = true /\ In (k', p) sec.
Proof.
induction items as [|[key value] items IH]; intros init r H L; simpl in H.
- inversion H; subst. auto.
- destruct (_normalise_section value) as [sec|] eqn:N; [|discriminate].
  simpl in H. destruct (IH _ _ H L) as [L'|[key' [v' [s' [k' [I R]]]]]].
  + rewrite section_at_update in L'.
    assert (U : KDict.lookup k (KDict.update (section_at c init) sec) = Some p
                -> category_of py_lower key = c
                -> KDict.lookup k (section_at c init) = Some p
                   \/ exists k', key_eqb k k' = true /\ In (k', p) sec).
    { intros U _. rewrite klookup_update in U.
      destruct (KDict.lookup k (rev sec)) as [q|] eqn:Lr; auto.
      inversion U; subst q. right.
      destruct (klookup_in _ _ _ Lr) as [k' [E I]].
      exists k'. split; auto. now apply in_rev. }
    destruct c, (category_of py_lower key) eqn:C; auto;
      (destruct (U L' eq_refl) as [?|[k' [E I]]]; [auto|]; right;
       exists key, value, sec, k'; simpl; auto).
  + right. exists key', v', s', k'. simpl. tauto.
Qed.

(** The table of [_load_identity_profiles], read off [category_of]. *)
Lemma category_of_spec py_lower key :
let normalised_key :=
  py_lower (if String.eqb key "" then "unknown" else key) in
let people := In normalised_key ["person"; "persons"; "people"; "humans"] in
let things := In normalised_key ["object"; "objects"; "items"] in
match category_of py_lower key with
| Person => people
| Object => ~ people /\ things
| Unknown => ~ people /\ ~ things
end.
Proof.
intros nk people things. unfold category_of. fold nk.
destruct (str_in nk ["person"; "persons"; "people"; "humans"]) eqn:A.
- now apply str_in_true_iff.
- assert (NA : ~ people).
  { intros I. apply str_in_true_iff in I. congruence. }
  destruct (str_in nk ["object"; "objects"; "items"]) eqn:B.
  + split; [exact NA|]. now apply str_in_true_iff.
  + split; [exact NA|]. intros I. apply str_in_true_iff in I. congruence.
Qed.

End LoaderFacts.

Section LoaderErrors.





End LoaderErrors.



(** X3.  A profile found in a section of the loaded store comes from the
    file: for a file that holds a dict, from a top-level entry whose key,
    lower-cased (["unknown"] standing for an empty key), is one of
    [person], [persons], [people], [humans] for the person section, one of
    [object], [objects], [items] for the object section, and none of these
    for the unknown section; for a file that holds a list, from the list
    itself, and then only the unknown section is filled.  In both cases it
    is a profile that [_normalise_section] made of that part of the file,
    so it has an ["id"] entry. *)
Theorem loaded_profiles_provenance :
  forall (py_lower : string -> string) (json_loads : string -> res json)
         (text : string) (raw : json)
         (loaded : Sections) (c : category) (k : json) (p : pydict),
    read_text (Content text) = Ok text ->
    json_loads text = Ok raw ->
    _load_identity_profiles py_lower json_loads (Content text) = Ok loaded ->
    KDict.lookup k (section_at c loaded) = Some p ->
    Dict.mem "id" p = true
    /\ exists value sec k',
         _normalise_section value = Ok sec
         /\ key_eqb k k' = true /\ In (k', p) sec
         /\ match raw with
            | JDict items =>
                exists key,
                  In (key, value) items
                  /\ let normalised_key :=
                       py_lower (if String.eqb key "" then "unknown"
                                 else key) in
                     let people :=
                       In normalised_key
                          ["person"; "persons"; "people"; "humans"] in
                     let things :=
                       In normalised_key ["object"; "objects"; "items"] in
                     match c with
                     | Person => people
                     | Object => ~ people /\ things
                     | Unknown => ~ people /\ ~ things
                     end
            | _ => value = raw /\ c = Unknown
            end.
Proof.
  intros py_lower json_loads text raw loaded c k p R J L K.
  unfold _load_identity_profiles in L. rewrite R in L. cbn [bind] in L.
  rewrite J in L.
  assert (Id : forall value sec k', _normalise_section value = Ok sec ->
                                    In (k', p) sec -> Dict.mem "id" p = true).
  { intros value sec k' N I.
    destruct value; simpl in N; try (inversion N; subst; destruct I).
    - exact (proj1 (proj2 (list_section_entries _ _ _ _ N I))).
    - exact (proj1 (proj2 (dict_section_entries _ _ _ _ N I))). }
  destruct raw; try (inversion L; subst loaded; destruct c; discriminate).
  - destruct (_normalise_section (JList l)) as [sec|] eqn:N; [|discriminate].
    simpl in L. inversion L; subst loaded. clear L.
    destruct c; try discriminate. simpl in K.
    rewrite klookup_update in K. simpl in K.
    destruct (KDict.lookup k (rev sec)) as [q|] eqn:Lr; [|discriminate].
    inversion K; subst q.
    destruct (klookup_in _ _ _ Lr) as [k' [E I]]. apply in_rev in I.
    split; [eapply Id; eauto|]. exists (JList l), sec, k'. auto.
  - destruct (load_sections_from py_lower c k p _ _ _ L K)
      as [L0|[key [value [sec [k' [I [C [N [E I']]]]]]]]].
    + destruct c; discriminate.
    + split; [eapply Id; eauto|]. exists value, sec, k'.
      split; [exact N|]. split; [exact E|]. split; [exact I'|].
      exists key. split; [exact I|].
      pose proof (category_of_spec py_lower key) as Sp.
      rewrite C in Sp. exact Sp.
Qed.

Lemma loaded_profiles_provenance_witness :
  Dict.mem "id" [("name", JStr "Bob"); ("id", JStr "p1")] = true
  /\ exists value sec k',
       _normalise_section value = Ok sec
       /\ key_eqb (JStr "p1") k' = true
       /\ In (k', [("name", JStr "Bob"); ("id", JStr "p1")]) sec
       /\ exists key,
            In (key, value)
               [("People", JDict [("p1", JDict [("name", JStr "Bob")])]);
                ("gadgets", JList [JDict [("name", JStr "cup")]])]
            /\ In (lower (if String.eqb key "" then "unknown" else key))
                  ["person"; "persons"; "people"; "humans"].
Proof.
  apply (loaded_profiles_provenance lower (fun _ => Ok two_sections) "{}"
           two_sections two_sections_loaded Person (JStr "p1"));
    reflexivity.
Defined.
(** ** The state store *)




(** ** The world state after an event *)

Section WorldFacts.
Import Dict DictFacts.

Variable event : Event.

(** What one participant leaves under its own id. *)
Lemma update_participant_self ws p :
exists e,
  lookup (ea_entity_id p) (update_participant event ws p) = Some e
  /\ es_last_event_id e = Some (ev_id event)
  /\ es_last_updated e = ev_timestamp event
  /\ es_entity_id e
     = match lookup (ea_entity_id p) ws with
       | Some existing => es_entity_id existing
       | None => ea_entity_id p
       end
  /\ es_name e
     = match lookup (ea_entity_id p) ws with
       | Some existing =>
           if ostr_truthy (ea_name p) then ea_name p else es_name existing
       | None => ea_name p
       end
  /\ es_type e
     = match lookup (ea_entity_id p) ws with
       | Some existing =>
           if String.eqb (ea_type p) "" then es_type existing else ea_type p
       | None => ea_type p
       end.
Proof.
unfold update_participant.
destruct (lookup (ea_entity_id p) ws) as [existing|];
  eexists; (split; [apply lookup_set_eq|]); simpl; repeat split.
now destruct (String.eqb (ea_type p) "").
Qed.

Lemma update_participant_frame ws p id :
ea_entity_id p <> id ->
lookup id (update_participant event ws p) = lookup id ws.
Proof.
intros N. unfold update_participant.
destruct (lookup (ea_entity_id p) ws); apply lookup_set_neq; congruence.
Qed.

(** A property of the entry at [id] that every participant with that id
  establishes, and that a further one keeps, holds after the loop. *)
Lemma fold_participants (Q : EntityState -> Prop) id :
(forall ws p, ea_entity_id p = id ->
              exists e, lookup id (update_participant event ws p) = Some e
                        /\ Q e) ->
forall ps ws,
  (exists p, In p ps /\ ea_entity_id p = id)
  \/ (exists e, lookup id ws = Some e /\ Q e) ->
  exists e,
    lookup id (fold_left (update_participant event) ps ws) = Some e /\ Q e.
Proof.
intros Step. induction ps as [|p ps IH]; intros ws H; simpl.
- destruct H as [[p [[] _]]|H]. exact H.
- apply IH. destruct (string_dec (ea_entity_id p) id) as [E|N].
  + right. now apply Step.
  + destruct H as [[q [[->|I] E]]|[e [L Qe]]].
    * contradiction.
    * left. eauto.
    * right. exists e. split; auto.
      now rewrite update_participant_frame.
Qed.

End WorldFacts.

(** X6.  After [_update_world_state], the actor of the event and the
    target of the event are each in the world state under their id, with
    the event as their last event and the event's timestamp as their last
    update; the timeline is not touched. *)
Theorem participants_recorded :
  forall (state : SceneState) (event : Event) (p : EventActor),
    ev_actor event = Some p \/ ev_target event = Some p ->
    timeline (_update_world_state state event) = timeline state
    /\ exists e,
         Dict.lookup (ea_entity_id p)
           (world_state (_update_world_state state event)) = Some e
         /\ es_last_event_id e = Some (ev_id event)
         /\ es_last_updated e = ev_timestamp event.
Proof.
  intros state event p I. split; [reflexivity|].
  assert (I' : In p (participants event)).
  { unfold participants. apply in_app_iff.
    destruct I as [-> | ->]; [left|right]; now left. }
  unfold _update_world_state. simpl.
  apply (fold_participants event
           (fun e => es_last_event_id e = Some (ev_id event)
                     /\ es_last_updated e = ev_timestamp event)).
  - intros ws q E. destruct (update_participant_self event ws q)
      as [e [L [A [B _]]]].
    rewrite E in L. eauto.
  - left. eauto.
Qed.

Lemma participants_recorded_witness :
  timeline (_update_world_state empty_state
              (mkEvent "e1" (Naive 1) "observation" None
                 (Some (mkEventActor "p1" None "person" [] []))
                 (Some (mkEventActor "o1" None "object" [] [])) []))
  = timeline empty_state
  /\ exists e,
       Dict.lookup "o1"
         (world_state
            (_update_world_state empty_state
               (mkEvent "e1" (Naive 1) "observation" None
                  (Some (mkEventActor "p1" None "person" [] []))
                  (Some (mkEventActor "o1" None "object" [] [])) [])))
       = Some e
       /\ es_last_event_id e = Some "e1"
       /\ es_last_updated e = Naive 1.
Proof.
  apply (participants_recorded empty_state
           (mkEvent "e1" (Naive 1) "observation" None
              (Some (mkEventActor "p1" None "person" [] []))
              (Some (mkEventActor "o1" None "object" [] [])) [])
           (mkEventActor "o1" None "object" [] [])).
  right. reflexivity.
Defined.

(** X7.  [_update_world_state] changes nothing but the entries of the
    event's participants: an entity that is neither its actor nor its
    target keeps its entry, and an entity that is not known stays
    unknown. *)
Theorem bystanders_untouched :
  forall (state : SceneState) (event : Event) (id : string),
    (forall p, In p (participants event) -> ea_entity_id p <> id) ->
    Dict.lookup id (world_state (_update_world_state state event))
    = Dict.lookup id (world_state state).
Proof.
  intros state event id H. unfold _update_world_state. simpl.
  generalize (world_state state). revert H.
  induction (participants event) as [|p ps IH]; intros H ws; simpl; auto.
  rewrite IH by (intros; apply H; now right).
  apply update_participant_frame. apply H. now left.
Qed.

Lemma bystanders_untouched_witness :
  Dict.lookup "p2"
    (world_state
       (_update_world_state empty_state
          (mkEvent "e1" (Naive 1) "observation" None
             (Some (mkEventActor "p1" None "person" [] [])) None [])))
  = Dict.lookup "p2" (world_state empty_state).
Proof.
  apply (bystanders_untouched empty_state
           (mkEvent "e1" (Naive 1) "observation" None
              (Some (mkEventActor "p1" None "person" [] [])) None []) "p2").
  intros p [<-|[]]; discriminate.
Defined.

(** ** What a batch leaves behind *)

Section BatchFacts.

Variable isoformat : datetime -> string.
Variable P : Profiles.
Variable py_str : json -> string.
Variable py_eq : json -> json -> bool.
Variable py_lower : string -> string.
Variable uuid4_hex : nat -> string.

Local Abbreviation step := (ingest_event isoformat P py_str py_eq py_lower uuid4_hex).
Local Abbreviation loop := (ingest_loop isoformat P py_str py_eq py_lower uuid4_hex).

(** The event that one turn of the loop builds, and the state it leaves. *)
Lemma ingest_event_shape payload st ids index raw draws st' ids' draws' :
step payload (st, ids) index raw draws = Ok ((st', ids'), draws') ->
exists event,
  st' = _update_world_state
          (mkSceneState (timeline st ++ [event]) (world_state st)) event
  /\ ev_timestamp event = gv_timestamp raw
  /\ ev_summary event = gv_summary raw
  /\ ev_metadata event
     = Dict.update (Dict.update [] (gp_metadata payload)) (gv_metadata raw)
  /\ validate_str
       (py_or (py_or (ostr (gv_action raw))
                     (py_get "action" (gv_metadata raw)))
              (JStr "observation")) = Ok (ev_action event).
Proof.
unfold ingest_event, mbind.
destruct (unique_id uuid4_hex ids _ draws) as [[event_id n0]|];
  [|discriminate].
destruct (first_actor P py_str py_eq py_lower uuid4_hex (gv_actors raw) n0)
  as [[actor n1]|]; [|discriminate].
destruct (first_actor P py_str py_eq py_lower uuid4_hex (gv_targets raw) n1)
  as [[target n2]|]; [|discriminate].
unfold lift.
destruct (validate_str _) as [action|] eqn:V; [|discriminate].
unfold ret. intros H. inversion H; subst. clear H.
eexists. split; [reflexivity|]. simpl. auto.
Qed.

(** A property of the world state that no participant can break holds
  after the loop if it held before. *)
Lemma ingest_loop_world (Q : list (string * EntityState) -> Prop) payload :
(forall event ws p, Q ws -> Q (update_participant event ws p)) ->
forall events index st ids draws st' ids' draws',
  loop payload events index (st, ids) draws = Ok ((st', ids'), draws') ->
  Q (world_state st) -> Q (world_state st').
Proof.
intros Step. induction events as [|raw events IH];
  intros index st ids draws st' ids' draws' H Q0.
- simpl in H. inversion H; subst. exact Q0.
- cbn [ingest_loop] in H. unfold mbind in H.
  destruct (step payload (st, ids) index raw draws)
    as [[[st1 ids1] n1]|] eqn:S; [|discriminate].
  apply (IH _ _ _ _ _ _ _ H).
  destruct (ingest_event_shape _ _ _ _ _ _ _ _ _ S) as [event [-> _]].
  unfold _update_world_state. simpl.
  generalize (world_state st) Q0.
  induction (participants event) as [|p ps IHp]; simpl; auto.
Qed.

(** A property of events that every new event has holds of all the events
  that the loop appends. *)
Lemma ingest_loop_new (Q : GeminiEvent -> Event -> Prop) payload :
(forall st ids index raw draws st' ids' draws' event,
    step payload (st, ids) index raw draws = Ok ((st', ids'), draws') ->
    timeline st' = timeline st ++ [event] -> Q raw event) ->
forall events index st ids draws st' ids' draws',
  loop payload events index (st, ids) draws = Ok ((st', ids'), draws') ->
  exists new,
    timeline st' = timeline st ++ new /\ Forall2 Q events new.
Proof.
intros Step. induction events as [|raw events IH];
  intros index st ids draws st' ids' draws' H.
- simpl in H. inversion H; subst. exists []. rewrite app_nil_r. auto.
- cbn [ingest_loop] in H. unfold mbind in H.
  destruct (step payload (st, ids) index raw draws)
    as [[[st1 ids1] n1]|] eqn:S; [|discriminate].
  destruct (IH _ _ _ _ _ _ _ H) as [new [T F]].
  destruct (ingest_event_shape _ _ _ _ _ _ _ _ _ S) as [event [E _]].
  assert (T1 : timeline st1 = timeline st ++ [event]) by (now subst st1).
  exists (event :: new). split.
  + rewrite T, T1, <- app_assoc. reflexivity.
  + constructor; eauto.
Qed.

End BatchFacts.

Section BatchHelpers.
Import Dict DictFacts.

Lemma str_of_Z_not_empty n : str_of_Z n <> "".
Proof.
unfold str_of_Z, NilZero.string_of_int.
destruct (Z.to_int n) as [d|d]; [|discriminate].
destruct d; simpl; discriminate.
Qed.

(** A truthy value that passes as a [str] field gives a string that is
  not empty. *)
Lemma validate_str_not_empty v s :
truthy v = true -> validate_str v = Ok s -> s <> "".
Proof.
unfold validate_str. destruct v; simpl; try discriminate.
- destruct b; [|discriminate]. intros _ H. inversion H. discriminate.
- intros _ H. inversion H. apply str_of_Z_not_empty.
- intros T H. inversion H; subst. intros ->. discriminate.
Qed.

Lemma truthy_or_default a d : truthy d = true -> truthy (py_or a d) = true.
Proof. unfold py_or. intros D. destruct (truthy a) eqn:T; auto. Qed.

Lemma Forall2_in_r {A B} (Q : A -> B -> Prop) l1 l2 b :
Forall2 Q l1 l2 -> In b l2 -> exists a, In a l1 /\ Q a b.
Proof.
induction 1 as [|x y l1 l2 H F IH]; intros I; [destruct I|].
destruct I as [<-|I]; [exists x; simpl; auto|].
destruct (IH I) as [a [Ia Qa]]. exists a. simpl. auto.
Qed.

End BatchHelpers.

Section EventFacts.
Import Dict DictFacts.

(** How a stored event relates to the raw event it was made of. *)
Lemma event_fields payload raw event :
ev_metadata event
= update (update [] (gp_metadata payload)) (gv_metadata raw) ->
validate_str
  (py_or (py_or (ostr (gv_action raw)) (py_get "action" (gv_metadata raw)))
         (JStr "observation")) = Ok (ev_action event) ->
ev_action event <> ""
/\ (ostr_truthy (gv_action raw) = true ->
    Some (ev_action event) = gv_action raw)
/\ (ostr_truthy (gv_action raw) = false ->
    truthy (py_get "action" (gv_metadata raw)) = false ->
    ev_action event = "observation")
/\ (NoDup (keys (gp_metadata payload)) -> NoDup (keys (gv_metadata raw)) ->
    forall k, lookup k (ev_metadata event)
              = match lookup k (gv_metadata raw) with
                | Some v => Some v
                | None => lookup k (gp_metadata payload)
                end).
Proof.
intros M V. split; [|split; [|split]].
- refine (validate_str_not_empty _ _ _ V).
  now apply truthy_or_default.
- intros T. destruct (gv_action raw) as [s|]; [|discriminate].
  simpl in T, V. unfold py_or in V. simpl in V. rewrite T in V.
  simpl in V. rewrite T in V. unfold validate_str in V. simpl in V.
  now inversion V.
- intros T Tm.
  assert (O : truthy (ostr (gv_action raw)) = false).
  { destruct (gv_action raw); auto. }
  unfold py_or in V. rewrite O, Tm in V. simpl in V.
  now inversion V.
- intros N1 N2 k. rewrite M, !lookup_update.
  rewrite (lookup_rev_nodup _ _ N1), (lookup_rev_nodup _ _ N2). simpl.
  destruct (lookup k (gv_metadata raw)); auto.
  now destruct (lookup k (gp_metadata payload)).
Qed.

End EventFacts.

(** X8.  Every event of the timeline that [ingest] returns is an event of
    the prior timeline or was made of a raw event of the payload.  In the
    second case it has the raw event's timestamp and summary; its action
    is never empty: it is the raw action when that is not empty, and
    ["observation"] when the event's metadata has no truthy ["action"]
    either; and its metadata are the payload's overlaid by the event's. *)
Theorem ingested_events :
  forall fromtimestamp fromisoformat isoformat (P : Profiles) py_str py_eq py_lower
         uuid4_hex json_loads SceneState_parse_obj SceneState_json
         (gemini_json : json) (f f' : file) (draws : nat)
         (state prior : SceneState) (payload : GeminiPayload) (event : Event),
    ingest fromtimestamp fromisoformat isoformat P py_str py_eq py_lower uuid4_hex
      json_loads SceneState_parse_obj SceneState_json gemini_json f draws
    = (Ok state, f') ->
    GeminiPayload_parse_obj fromtimestamp fromisoformat gemini_json
    = Ok payload ->
    load_state json_loads SceneState_parse_obj f = Ok prior ->
    In event (timeline state) ->
    In event (timeline prior)
    \/ exists raw,
         In raw (gp_events payload)
         /\ ev_timestamp event = gv_timestamp raw
         /\ ev_summary event = gv_summary raw
         /\ ev_action event <> ""
         /\ (ostr_truthy (gv_action raw) = true ->
             Some (ev_action event) = gv_action raw)
         /\ (ostr_truthy (gv_action raw) = false ->
             truthy (py_get "action" (gv_metadata raw)) = false ->
             ev_action event = "observation")
         /\ (NoDup (Dict.keys (gp_metadata payload)) ->
             NoDup (Dict.keys (gv_metadata raw)) ->
             forall k, Dict.lookup k (ev_metadata event)
                       = match Dict.lookup k (gv_metadata raw) with
                         | Some v => Some v
                         | None => Dict.lookup k (gp_metadata payload)
                         end).
Proof.
  intros until event. intros H Pa Lo I.
  destruct (ingest_ok_inv _ _ _ _ _ _ _ _ _ _ _ _ _ _ _ _ H)
    as [payload' [prior' [n [Pa' [Lo' [M _]]]]]].
  rewrite Pa in Pa'. rewrite Lo in Lo'.
  inversion Pa'; inversion Lo'; subst payload' prior'. clear Pa' Lo'.
  destruct (merge_payload_inv _ _ _ _ _ _ _ _ _ _ _ M)
    as [ordered [st [ids [So [Lp [S _]]]]]].
  set (Q := fun raw ev =>
              ev_timestamp ev = gv_timestamp raw
              /\ ev_summary ev = gv_summary raw
              /\ ev_metadata ev
                 = Dict.update (Dict.update [] (gp_metadata payload))
                     (gv_metadata raw)
              /\ validate_str
                   (py_or (py_or (ostr (gv_action raw))
                                 (py_get "action" (gv_metadata raw)))
                          (JStr "observation")) = Ok (ev_action ev)).
  assert (Step : forall st0 ids0 index raw d st1 ids1 d1 ev,
             ingest_event isoformat P py_str py_eq py_lower uuid4_hex payload
               (st0, ids0) index raw d = Ok ((st1, ids1), d1) ->
             timeline st1 = timeline st0 ++ [ev] -> Q raw ev).
  { intros st0 ids0 index raw d st1 ids1 d1 ev St T.
    destruct (ingest_event_shape _ _ _ _ _ _ _ _ _ _ _ _ _ _ _ St)
      as [ev' [E [A [B [C D]]]]].
    assert (ev = ev').
    { subst st1. simpl in T. apply app_inv_head in T. now inversion T. }
    subst ev'. unfold Q. auto. }
  destruct (ingest_loop_new isoformat P py_str py_eq py_lower uuid4_hex Q payload
              Step _ _ _ _ _ _ _ _ Lp) as [new [T F]].
  simpl in T.
  apply (Permutation_in _ (proj2 (proj2 (py_sorted_spec _ _ _ S)))) in I.
  rewrite T in I. apply in_app_or in I. destruct I as [I|I]; [now left|].
  right. destruct (Forall2_in_r _ _ _ _ F I) as [raw [Ir [A [B [C D]]]]].
  exists raw.
  split; [exact (Permutation_in _ (proj2 (proj2 (py_sorted_spec _ _ _ So)))
                   Ir)|].
  split; [exact A|]. split; [exact B|].
  exact (event_fields _ _ _ C D).
Qed.

Lemma ingested_events_witness :
  In (mkEvent "a" (Naive 1) "observation" None None None [])
     (timeline empty_state)
  \/ exists raw,
       In raw (gp_events out_of_order_payload)
       /\ Naive 1 = gv_timestamp raw
       /\ None = gv_summary raw
       /\ "observation" <> ""
       /\ (ostr_truthy (gv_action raw) = true ->
           Some "observation" = gv_action raw)
       /\ (ostr_truthy (gv_action raw) = false ->
           truthy (py_get "action" (gv_metadata raw)) = false ->
           "observation" = "observation")
       /\ (NoDup (Dict.keys (gp_metadata out_of_order_payload)) ->
           NoDup (Dict.keys (gv_metadata raw)) ->
           forall k, Dict.lookup k []
                     = match Dict.lookup k (gv_metadata raw) with
                       | Some v => Some v
                       | None =>
                           Dict.lookup k (gp_metadata out_of_order_payload)
                       end).
Proof.
  apply (ingested_events (fun n => Ok (Naive n)) (fun _ => None)
           (fun _ => "t") no_profiles str_of_text eq_text lower
           (fun _ => "0123456789abcdef") (fun _ => Raise JSONDecodeError)
           (fun _ => None)
           (fun st => String.concat "," (map ev_id (timeline st)))
           out_of_order Absent (Content "a,b") 0%nat in_order empty_state
           out_of_order_payload
           (mkEvent "a" (Naive 1) "observation" None None None []));
    [reflexivity | reflexivity | reflexivity | simpl; auto].
Defined.

Section WorldInvariants.
Import Dict DictFacts.

Lemma update_participant_keeps_known event ws p id :
mem id ws = true -> mem id (update_participant event ws p) = true.
Proof.
unfold mem. intros H.
destruct (string_dec (ea_entity_id p) id) as [E|N].
- destruct (update_participant_self event ws p) as [e [L _]].
  rewrite E in L. now rewrite L.
- now rewrite update_participant_frame.
Qed.

Lemma update_participant_keyed event ws p :
keyed_by_id ws -> keyed_by_id (update_participant event ws p).
Proof.
intros K k e L.
destruct (string_dec (ea_entity_id p) k) as [E|N].
- destruct (update_participant_self event ws p) as [e' [L' [_ [_ [I _]]]]].
  rewrite E in L'. rewrite L' in L. inversion L; subst e'.
  rewrite I. rewrite E. destruct (lookup k ws) eqn:Lk; auto.
- rewrite update_participant_frame in L by exact N. auto.
Qed.

End WorldInvariants.

(** X9.  [ingest] never forgets an entity: every id of the prior world
    state is an id of the world state it returns.  And if every entry of
    the prior world state is stored under its own id, so is every entry of
    the returned one. *)
Theorem ingest_world_state_grows :
  forall fromtimestamp fromisoformat isoformat (P : Profiles) py_str py_eq py_lower
         uuid4_hex json_loads SceneState_parse_obj SceneState_json
         (gemini_json : json) (f f' : file) (draws : nat)
         (state prior : SceneState),
    ingest fromtimestamp fromisoformat isoformat P py_str py_eq py_lower uuid4_hex
      json_loads SceneState_parse_obj SceneState_json gemini_json f draws
    = (Ok state, f') ->
    load_state json_loads SceneState_parse_obj f = Ok prior ->
    (forall id, Dict.mem id (world_state prior) = true ->
                Dict.mem id (world_state state) = true)
    /\ (keyed_by_id (world_state prior) -> keyed_by_id (world_state state)).
Proof.
  intros until prior. intros H Lo.
  destruct (ingest_ok_inv _ _ _ _ _ _ _ _ _ _ _ _ _ _ _ _ H)
    as [payload [prior' [n [_ [Lo' [M _]]]]]].
  rewrite Lo in Lo'. inversion Lo'; subst prior'. clear Lo'.
  destruct (merge_payload_inv _ _ _ _ _ _ _ _ _ _ _ M)
    as [ordered [st [ids [_ [Lp [_ W]]]]]].
  rewrite W. split.
  - intros id K.
    apply (ingest_loop_world isoformat P py_str py_eq py_lower uuid4_hex
             (fun ws => Dict.mem id ws = true) payload) with (2 := Lp);
      auto.
    intros; now apply update_participant_keeps_known.
  - intros K.
    apply (ingest_loop_world isoformat P py_str py_eq py_lower uuid4_hex
             keyed_by_id payload) with (2 := Lp); auto.
    intros; now apply update_participant_keyed.
Qed.

(** X10.  [ingest] appends exactly one event per event of the payload, and
    keeps the ids of the timeline distinct: if no two events of the prior
    timeline share an id, no two events of the returned timeline do. *)
Theorem ingest_timeline_grows :
  forall fromtimestamp fromisoformat isoformat (P : Profiles) py_str py_eq py_lower
         uuid4_hex json_loads SceneState_parse_obj SceneState_json
         (gemini_json : json) (f f' : file) (draws : nat)
         (state prior : SceneState) (payload : GeminiPayload),
    ingest fromtimestamp fromisoformat isoformat P py_str py_eq py_lower uuid4_hex
      json_loads SceneState_parse_obj SceneState_json gemini_json f draws
    = (Ok state, f') ->
    GeminiPayload_parse_obj fromtimestamp fromisoformat gemini_json
    = Ok payload ->
    load_state json_loads SceneState_parse_obj f = Ok prior ->
    List.length (timeline state)
    = (List.length (timeline prior) + List.length (gp_events payload))%nat
    /\ (NoDup (map ev_id (timeline prior)) ->
        NoDup (map ev_id (timeline state))).
Proof.
  intros until payload. intros H Pa Lo.
  destruct (ingest_ok_inv _ _ _ _ _ _ _ _ _ _ _ _ _ _ _ _ H)
    as [payload' [prior' [n [Pa' [Lo' [M _]]]]]].
  rewrite Pa in Pa'. rewrite Lo in Lo'.
  inversion Pa'; inversion Lo'; subst payload' prior'. clear Pa' Lo'.
  destruct (merge_payload_inv _ _ _ _ _ _ _ _ _ _ _ M)
    as [ordered [st [ids [So [Lp [S _]]]]]].
  destruct (ingest_loop_inv _ _ _ _ _ _ _ _ _ _ _ _ _ _ _ Lp) as [new [T A]].
  simpl in T.
  destruct (assigned_fresh _ _ _ _ _ _ A) as [N [D [Ln _]]].
  pose proof (proj2 (proj2 (py_sorted_spec _ _ _ S))) as Pm.
  pose proof (proj2 (proj2 (py_sorted_spec _ _ _ So))) as Po.
  rewrite T in Pm. split.
  - rewrite (Permutation_length Pm), length_app, Ln.
    now rewrite (Permutation_length Po).
  - intros Np.
    apply (Permutation_NoDup (Permutation_sym (Permutation_map ev_id Pm))).
    rewrite map_app. apply NoDup_app; auto.
    intros a Ia In'. apply in_map_iff in In'.
    destruct In' as [e [<- Ie]]. exact (D e Ie Ia).
Qed.

Lemma ingest_world_state_grows_witness :
  (forall id, Dict.mem id (world_state known_alice) = true ->
              Dict.mem id (world_state alice_and_bob) = true)
  /\ (keyed_by_id (world_state known_alice) ->
      keyed_by_id (world_state alice_and_bob)).
Proof.
  apply (ingest_world_state_grows (fun n => Ok (Naive n)) (fun _ => None)
           (fun _ => "t") no_profiles str_of_text eq_text lower
           (fun _ => "0123456789abcdef") (fun _ => Ok JNull)
           (fun _ => Some known_alice)
           (fun st => String.concat "," (map ev_id (timeline st)))
           bob_seen (Content "x") (Content "e1") 0%nat alice_and_bob
           known_alice);
    reflexivity.
Defined.

Lemma ingest_timeline_grows_witness :
  List.length (timeline in_order)
  = (List.length (timeline empty_state)
     + List.length (gp_events out_of_order_payload))%nat
  /\ (NoDup (map ev_id (timeline empty_state)) ->
      NoDup (map ev_id (timeline in_order))).
Proof.
  apply (ingest_timeline_grows (fun n => Ok (Naive n)) (fun _ => None)
           (fun _ => "t") no_profiles str_of_text eq_text lower
           (fun _ => "0123456789abcdef") (fun _ => Raise JSONDecodeError)
           (fun _ => None)
           (fun st => String.concat "," (map ev_id (timeline st)))
           out_of_order Absent (Content "a,b") 0%nat in_order empty_state
           out_of_order_payload);
    reflexivity.
Defined.

(** ** More on identity resolution *)

Section ResolverMore.

Variable P : Profiles.
Variable py_str : json -> string.
Variable py_eq : json -> json -> bool.
Variable py_lower : string -> string.
Variable uuid4_hex : nat -> string.

Local Abbreviation resolve := (resolve_identity P py_str py_eq py_lower uuid4_hex).

(** The canonical type is never empty. *)
Lemma canonical_type_not_empty entity :
snd (select_bucket P py_lower entity) <> "".
Proof.
rewrite select_bucket_cases. cbv zeta.
destruct (startswith _ "per"); [discriminate|].
destruct (startswith _ "obj"); [discriminate|].
destruct (startswith _ "unk"); [discriminate|].
destruct (String.eqb _ "") eqn:E; [discriminate|].
simpl. now apply String.eqb_neq.
Qed.

(** With nothing observed, every profile scores nothing. *)
Lemma best_scan_nothing items : forall best,
best_scan py_str py_eq py_lower [] [] items best = Ok best.
Proof.
induction items as [|[pid p] items IH]; intros [b m]; simpl; auto.
Qed.

(** The name scan ends on the first profile whose name is the one looked
  for; the names before it are strings, and other ones. *)
Lemma find_name_spec lookup : forall items pid p,
find_name py_lower lookup items = Ok (Some (pid, p)) ->
exists earlier later,
  items = earlier ++ (pid, p) :: later
  /\ (exists s, py_get_default "name" p (JStr "") = JStr s
                /\ py_lower s = lookup)
  /\ Forall (fun it => exists s,
                 py_get_default "name" (snd it) (JStr "") = JStr s
                 /\ py_lower s <> lookup) earlier.
Proof.
induction items as [|[pid0 p0] items IH]; intros pid p H; simpl in H;
  [discriminate|].
destruct (py_get_default "name" p0 (JStr "")) eqn:N; try discriminate.
destruct (String.eqb (py_lower s) lookup) eqn:E.
- inversion H; subst. exists [], items. simpl. split; auto.
  split; [|constructor]. exists s. split; auto. now apply String.eqb_eq.
- destruct (IH _ _ H) as [earlier [later [-> [M F]]]].
  exists ((pid0, p0) :: earlier), later. simpl. split; auto.
  split; auto. constructor; auto. exists s. split; auto.
  now apply String.eqb_neq.
Qed.

End ResolverMore.
(** X11.  The name step: when the id step finds nothing and the entity has
    a name, the profiles are scanned bucket after bucket (the selected
    bucket, then the person bucket, then the object bucket, each in store
    order) and the first one whose stored name, lower-cased, is the
    entity's name lower-cased is returned, whatever the appearance says;
    every profile before it has a string for a name, and another one.  No
    random draw is made. *)
Theorem name_match_first :
  forall (P : Profiles) (py_str : json -> string)
         (py_eq : json -> json -> bool) (py_lower : string -> string)
         (uuid4_hex : nat -> string)
         (entity : GeminiEntity) (name : string) (draws : nat)
         (pid : string) (p : profile),
    let preferred_bucket := fst (select_bucket P py_lower entity) in
    let in_scan_order :=
      preferred_bucket ++ pr_person P ++ pr_object P in
    (if ostr_truthy (ge_entity_id entity)
     then Dict.lookup (ostr_or (ge_entity_id entity) "") preferred_bucket
     else None) = None ->
    ge_name entity = Some name -> name <> "" ->
    find_name py_lower (py_lower name) in_scan_order = Ok (Some (pid, p)) ->
    resolve_identity P py_str py_eq py_lower uuid4_hex entity draws
    = Ok ((pid, with_type (snd (select_bucket P py_lower entity)) p), draws)
    /\ exists earlier later,
         in_scan_order = earlier ++ (pid, p) :: later
         /\ (exists s, py_get_default "name" p (JStr "") = JStr s
                       /\ py_lower s = py_lower name)
         /\ Forall (fun it => exists s,
                        py_get_default "name" (snd it) (JStr "") = JStr s
                        /\ py_lower s <> py_lower name) earlier.
Proof.
  intros P py_str py_eq py_lower uuid4_hex entity name draws pid p pb order
    I N NE F.
  split; [|now apply find_name_spec].
  unfold resolve_identity. subst order pb.
  destruct (select_bucket P py_lower entity) as [b ct]. simpl in *.
  rewrite I, N. simpl. apply String.eqb_neq in NE. rewrite NE. simpl.
  unfold mbind, lift. unfold scanned. rewrite F. reflexivity.
Qed.

Lemma name_match_first_witness :
  resolve_identity bobs_apart str_of_text eq_text lower (fun _ => "")
    a_gadget_bob 0
  = Ok (("o1", [("name", JStr "BOB"); ("type", JStr "gadget")]), 0%nat)
  /\ exists earlier later,
       fst (select_bucket bobs_apart lower a_gadget_bob)
         ++ pr_person bobs_apart ++ pr_object bobs_apart
       = earlier ++ ("o1", [("name", JStr "BOB")]) :: later
       /\ (exists s,
             py_get_default "name" [("name", JStr "BOB")] (JStr "") = JStr s
             /\ lower s = lower "bob")
       /\ Forall (fun it => exists s,
                      py_get_default "name" (snd it) (JStr "") = JStr s
                      /\ lower s <> lower "bob") earlier.
Proof.
  apply (name_match_first bobs_apart str_of_text eq_text lower (fun _ => "")
           a_gadget_bob "bob" 0%nat "o1" [("name", JStr "BOB")]);
    [reflexivity | reflexivity | discriminate | reflexivity].
Defined.

(** X12.  An entity with no appearance and no attributes is never matched
    by similarity.  If the id step finds nothing and it has no name, it
    gets a new identity: its own id when it has one, else a slug followed
    by ["_"] and eight characters of a fresh [uuid4]; the profile returned
    has that id, the canonical type and empty maps. *)
Theorem unobserved_entity_synthesized :
  forall (P : Profiles) (py_str : json -> string)
         (py_eq : json -> json -> bool) (py_lower : string -> string)
         (uuid4_hex : nat -> string)
         (entity : GeminiEntity) (draws : nat),
    ge_appearance entity = [] -> ge_attributes entity = [] ->
    ostr_truthy (ge_name entity) = false ->
    (if ostr_truthy (ge_entity_id entity)
     then Dict.lookup (ostr_or (ge_entity_id entity) "")
            (fst (select_bucket P py_lower entity))
     else None) = None ->
    exists generated_id draws',
      resolve_identity P py_str py_eq py_lower uuid4_hex entity draws
      = Ok ((generated_id,
             [("id", JStr generated_id);
              ("name", ostr (ge_name entity));
              ("type", JStr (snd (select_bucket P py_lower entity)));
              ("appearance", JDict []);
              ("attributes", JDict [])]), draws')
      /\ (ostr_truthy (ge_entity_id entity) = true ->
          ge_entity_id entity = Some generated_id /\ draws' = draws)
      /\ (ostr_truthy (ge_entity_id entity) = false ->
          draws' = S draws
          /\ exists slug,
               generated_id
               = String.append slug
                   (String.append "_" (take 8 (uuid4_hex draws)))).
Proof.
  intros P py_str py_eq py_lower uuid4_hex entity draws Ap At N I.
  pose proof (canonical_type_not_empty P py_lower entity) as C.
  unfold resolve_identity.
  destruct (select_bucket P py_lower entity) as [b ct]. simpl in *.
  rewrite I, N, Ap, At. unfold mbind at 1. unfold ret at 1.
  unfold mbind at 1. unfold lift. rewrite best_scan_nothing. simpl snd.
  cbv iota. unfold synthesize, mbind.
  apply String.eqb_neq in C.
  destruct (ostr_truthy (ge_entity_id entity)) eqn:T.
  - unfold ret. simpl. rewrite C. rewrite Ap, At.
    eexists; eexists. split; [reflexivity|].
    split; [|discriminate]. intros _. split; auto.
    destruct (ge_entity_id entity) as [s|]; [|discriminate].
    simpl in T |- *. destruct (String.eqb s ""); [discriminate|auto].
  - unfold uuid4, ret. simpl. rewrite C. rewrite Ap, At.
    eexists; eexists. split; [reflexivity|].
    split; [discriminate|]. intros _. split; auto. eexists. reflexivity.
Qed.

Lemma unobserved_entity_synthesized_witness :
  exists generated_id draws',
    resolve_identity no_profiles str_of_text eq_text lower
      (fun _ => "0123456789abcdef") (typed "Robot") 3
    = Ok ((generated_id,
           [("id", JStr generated_id);
            ("name", ostr (ge_name (typed "Robot")));
            ("type", JStr (snd (select_bucket no_profiles lower (typed "Robot"))));
            ("appearance", JDict []);
            ("attributes", JDict [])]), draws')
    /\ (ostr_truthy (ge_entity_id (typed "Robot")) = true ->
        ge_entity_id (typed "Robot") = Some generated_id /\ draws' = 3%nat)
    /\ (ostr_truthy (ge_entity_id (typed "Robot")) = false ->
        draws' = 4%nat
        /\ exists slug,
             generated_id
             = String.append slug
                 (String.append "_" (take 8 "0123456789abcdef"))).
Proof.
  apply (unobserved_entity_synthesized no_profiles str_of_text eq_text lower
           (fun _ => "0123456789abcdef") (typed "Robot") 3%nat);
    reflexivity.
Defined.

Section Idempotence.

Variable P : Profiles.
Variable py_str : json -> string.
Variable py_eq : json -> json -> bool.
Variable py_lower : string -> string.
Variable uuid4_hex : nat -> string.

(** For an entity with an id the outcome does not depend on the draws. *)
Lemma resolve_with_id_outcome entity :
ostr_truthy (ge_entity_id entity) = true ->
exists r : res (string * profile),
  forall draws,
    resolve_identity P py_str py_eq py_lower uuid4_hex entity draws
    = match r with
      | Ok x => Ok (x, draws)
      | Raise e => Raise e
      end.
Proof.
intros T. unfold resolve_identity.
destruct (select_bucket P py_lower entity) as [b ct]. rewrite T.
destruct (Dict.lookup _ b) as [p|].
{ eexists (Ok _). intros. reflexivity. }
assert (Tail : forall by_name : option (string * profile),
           exists r : res (string * profile),
             forall draws,
               match by_name with
               | Some (profile_id, p) => ret (profile_id, with_type ct p)
               | None =>
                   mbind (lift (best_scan py_str py_eq py_lower (ge_appearance entity)
                                  (ge_attributes entity) (scanned P b)
                                  (0%nat, None)))
                     (fun best =>
                        match snd best with
                        | Some (profile_id, p) =>
                            ret (profile_id, with_type ct p)
                        | None => synthesize py_lower uuid4_hex entity ct
                        end)
               end draws
               = match r with
                 | Ok x => Ok (x, draws)
                 | Raise e => Raise e
                 end).
{ intros [[pid p]|].
  - eexists (Ok _). intros. reflexivity.
  - unfold mbind, lift.
    destruct (best_scan _ _ _ _ _ _) as [[s [[pid p]|]]|e].
    + eexists (Ok _). intros. reflexivity.
    + unfold synthesize, mbind. rewrite T. unfold ret.
      eexists (Ok _). intros. reflexivity.
    + exists (Raise e). intros. reflexivity. }
destruct (ostr_truthy (ge_name entity)).
- unfold mbind at 1. unfold lift at 1.
  destruct (find_name _ _) as [by_name|e].
  + destruct (Tail by_name) as [r Hr]. exists r. intros. apply Hr.
  + exists (Raise e). intros. reflexivity.
- unfold mbind at 1. unfold ret at 1.
  destruct (Tail None) as [r Hr]. exists r. intros. apply Hr.
Qed.

End Idempotence.

(** X13.  Resolving an entity that carries an id uses no randomness: it
    makes no draw, and resolving it again, at any later time, gives the
    same id and the same profile (or raises the same exception). *)
Theorem resolve_with_id_repeatable :
  forall (P : Profiles) (py_str : json -> string)
         (py_eq : json -> json -> bool) (py_lower : string -> string)
         (uuid4_hex : nat -> string)
         (entity : GeminiEntity) (draws again : nat),
    ostr_truthy (ge_entity_id entity) = true ->
    match resolve_identity P py_str py_eq py_lower uuid4_hex entity draws,
          resolve_identity P py_str py_eq py_lower uuid4_hex entity again with
    | Ok (r1, after1), Ok (r2, after2) =>
        r1 = r2 /\ after1 = draws /\ after2 = again
    | Raise e1, Raise e2 => e1 = e2
    | _, _ => False
    end.
Proof.
  intros P py_str py_eq py_lower uuid4_hex entity draws again T.
  destruct (resolve_with_id_outcome P py_str py_eq py_lower uuid4_hex entity T)
    as [r Hr].
  rewrite (Hr draws), (Hr again). destruct r; auto.
Qed.

Lemma resolve_with_id_repeatable_witness :
  match resolve_identity dyed str_of_text eq_text lower (fun _ => "") seen_red 0,
        resolve_identity dyed str_of_text eq_text lower (fun _ => "") seen_red 5 with
  | Ok (r1, after1), Ok (r2, after2) =>
      r1 = r2 /\ after1 = 0%nat /\ after2 = 5%nat
  | Raise e1, Raise e2 => e1 = e2
  | _, _ => False
  end.
Proof.
  apply (resolve_with_id_repeatable dyed str_of_text eq_text lower (fun _ => "")
           seen_red 0%nat 5%nat).
  reflexivity.
Defined.

(** ** More on the schemas *)



Section EntityFacts.
Import Dict DictFacts.

Lemma vmap_valid_eq {A B} (g : A -> B) (x : vres A) b :
vmap g x = Valid b -> exists a, x = Valid a /\ b = g a.
Proof. destruct x; simpl; intros H; inversion H; eauto. Qed.

Lemma lookup_none_or_key {V} k (d : list (string * V)) :
lookup k d = None \/ str_in k (keys d) = true.
Proof.
destruct (lookup k d) eqn:L; auto. right. eapply str_in_keys; eauto.
Qed.

(** The loop takes every unrecognised key out of the object. *)
Lemma relocate_loop_unknown_gone known ks : forall data md r k,
relocate_loop known ks data md = Ok r ->
str_in k known = false ->
lookup k data = None \/ str_in k ks = true ->
lookup k (fst r) = None.
Proof.
induction ks as [|key ks IH]; intros data md r k H K D; simpl in H.
- inversion H; subst. simpl. destruct D; [auto|discriminate].
- rewrite str_in_cons in D.
  destruct (str_in key known) eqn:Kk.
  + apply (IH _ _ _ _ H K). destruct D as [D|D]; auto.
    destruct (String.eqb k key) eqn:E; auto.
    apply String.eqb_eq in E. congruence.
  + destruct md; try discriminate.
    apply (IH _ _ _ _ H K).
    destruct (String.eqb k key) eqn:E.
    * apply String.eqb_eq in E. subst. left. apply lookup_remove_eq.
    * apply String.eqb_neq in E. rewrite lookup_remove_neq by exact E.
      exact D.
Qed.

Lemma relocate_unknown_gone known data out k :
relocate known data = Ok out ->
str_in k known = false -> k <> "metadata" -> lookup k out = None.
Proof.
unfold relocate.
destruct (relocate_loop known (keys data) data (bag_of data))
  as [r|] eqn:L; [|discriminate].
simpl. intros H K N. inversion H; subst out.
rewrite lookup_set_neq by exact N.
eapply relocate_loop_unknown_gone; eauto. apply lookup_none_or_key.
Qed.

(** The fields of a valid entity, read off the normalised document. *)
Lemma entity_fields values e :
GeminiEntity_validate (JDict values) = Valid e ->
exists data,
  GeminiEntity_normalise_fields values = Ok data
  /\ validate_opt_str (aliased "id" "entity_id" data)
     = Valid (ge_entity_id e)
  /\ validate_dict (lookup "appearance" data) = Valid (ge_appearance e)
  /\ validate_dict (lookup "attributes" data) = Valid (ge_attributes e)
  /\ validate_dict (lookup "metadata" data) = Valid (ge_metadata e).
Proof.
unfold GeminiEntity_validate.
destruct (GeminiEntity_normalise_fields values) as [data|err] eqn:N;
  [|destruct err; discriminate].
simpl of_pre. cbv iota. intros H.
apply vmap_valid_eq in H.
destruct H as [[i [n [t [ap [at_ md]]]]] [H ->]]. simpl.
exists data. split; auto.
repeat match goal with
       | H : vboth _ _ = Valid _ |- _ =>
           apply vboth_valid in H; simpl in H; destruct H
       end.
auto.
Qed.

End EntityFacts.

Section EntityAliases.
Import Dict DictFacts.

(** The bag of a valid entity binds every unrecognised key of the input. *)
Lemma entity_metadata_binds values e k v :
GeminiEntity_validate (JDict values) = Valid e ->
lookup k values = Some v -> str_in k entity_known = false ->
mem k (ge_metadata e) = true.
Proof.
intros H L K.
destruct (entity_fields _ _ H) as [data [N [_ [_ [_ M]]]]].
unfold GeminiEntity_normalise_fields in N.
destruct (prepared_relocate entity_known entity_touched values _ data k v
            eq_refl eq_refl eq_refl (entity_prepared values) N L K)
  as [m0 [m [_ [Lm [_ Lk]]]]].
rewrite Lm in M. simpl in M. inversion M; subst. unfold mem.
now rewrite Lk.
Qed.

Lemma entity_known_field values data k :
GeminiEntity_normalise_fields values = Ok data ->
str_in k entity_known = true -> k <> "metadata" ->
lookup k data
= lookup k (setdefault "attributes"
              (py_get_default "state"
                 (setdefault "appearance"
                    (py_get_default "looks" values (JDict [])) values)
                 (JDict []))
              (setdefault "appearance"
                 (py_get_default "looks" values (JDict [])) values)).
Proof.
unfold GeminiEntity_normalise_fields. intros N K M.
now apply (relocate_known _ _ _ _ N K M).
Qed.

End EntityAliases.

(** X15.  An entity takes its id from the key ["id"] only.  Without that
    key the validated entity has no id, even when the input has an
    ["entity_id"] key: that key is not recognised and goes to the
    metadata. *)
Theorem entity_id_only_from_id :
  forall (values : pydict) (e : GeminiEntity),
    Dict.lookup "id" values = None ->
    GeminiEntity_validate (JDict values) = Valid e ->
    ge_entity_id e = None
    /\ (Dict.mem "entity_id" values = true ->
        Dict.mem "entity_id" (ge_metadata e) = true).
Proof.
  intros values e I H. split.
  - destruct (entity_fields _ _ H) as [data [N [V _]]].
    assert (L1 : Dict.lookup "id" data = None).
    { rewrite (entity_known_field _ _ "id" N eq_refl) by discriminate.
      rewrite !DictFacts.lookup_setdefault_neq by discriminate. exact I. }
    assert (L2 : Dict.lookup "entity_id" data = None).
    { unfold GeminiEntity_normalise_fields in N.
      apply (relocate_unknown_gone _ _ _ "entity_id" N eq_refl).
      discriminate. }
    unfold aliased in V. rewrite L1, L2 in V. simpl in V. now inversion V.
  - unfold Dict.mem at 1.
    destruct (Dict.lookup "entity_id" values) as [v|] eqn:L; [|discriminate].
    intros _. exact (entity_metadata_binds _ _ "entity_id" _ H L eq_refl).
Qed.

Lemma entity_id_only_from_id_witness :
  ge_entity_id (mkGeminiEntity None (Some "Al") None [] []
                  [("entity_id", JStr "x")]) = None
  /\ (Dict.mem "entity_id" [("entity_id", JStr "x"); ("name", JStr "Al")]
      = true ->
      Dict.mem "entity_id"
        (ge_metadata (mkGeminiEntity None (Some "Al") None [] []
                        [("entity_id", JStr "x")])) = true).
Proof.
  apply (entity_id_only_from_id
           [("entity_id", JStr "x"); ("name", JStr "Al")]);
    reflexivity.
Defined.

(** X16.  The synonyms of an entity: without an ["appearance"] key the
    dict under ["looks"] is the appearance, and without an ["attributes"]
    key the dict under ["state"] is the attributes; the synonym itself,
    not being a recognised key, is also kept in the metadata. *)
Theorem entity_synonyms :
  forall (values : pydict) (e : GeminiEntity) (d : pydict),
    GeminiEntity_validate (JDict values) = Valid e ->
    (Dict.lookup "appearance" values = None ->
     Dict.lookup "looks" values = Some (JDict d) ->
     ge_appearance e = d /\ Dict.mem "looks" (ge_metadata e) = true)
    /\ (Dict.lookup "attributes" values = None ->
        Dict.lookup "state" values = Some (JDict d) ->
        ge_attributes e = d /\ Dict.mem "state" (ge_metadata e) = true).
Proof.
  intros values e d H.
  destruct (entity_fields _ _ H) as [data [N [_ [Ap [At _]]]]].
  split; intros A L.
  - split; [|exact (entity_metadata_binds _ _ "looks" _ H L eq_refl)].
    rewrite (entity_known_field _ _ "appearance" N eq_refl) in Ap
      by discriminate.
    rewrite DictFacts.lookup_setdefault_neq in Ap by discriminate.
    rewrite DictFacts.lookup_setdefault_eq, A in Ap.
    unfold py_get_default in Ap. rewrite L in Ap. simpl in Ap.
    now inversion Ap.
  - split; [|exact (entity_metadata_binds _ _ "state" _ H L eq_refl)].
    rewrite (entity_known_field _ _ "attributes" N eq_refl) in At
      by discriminate.
    rewrite DictFacts.lookup_setdefault_eq in At.
    rewrite DictFacts.lookup_setdefault_neq in At by discriminate.
    rewrite A in At. unfold py_get_default in At.
    rewrite DictFacts.lookup_setdefault_neq in At by discriminate.
    rewrite L in At. simpl in At. now inversion At.
Qed.

Lemma entity_synonyms_witness :
  (Dict.lookup "appearance" [("looks", JDict [("hair", JStr "red")])] = None ->
   Dict.lookup "looks" [("looks", JDict [("hair", JStr "red")])]
   = Some (JDict [("hair", JStr "red")]) ->
   ge_appearance
     (mkGeminiEntity None None None [("hair", JStr "red")] []
        [("looks", JDict [("hair", JStr "red")])])
   = [("hair", JStr "red")]
   /\ Dict.mem "looks"
        (ge_metadata
           (mkGeminiEntity None None None [("hair", JStr "red")] []
              [("looks", JDict [("hair", JStr "red")])])) = true)
  /\ (Dict.lookup "attributes" [("looks", JDict [("hair", JStr "red")])]
      = None ->
      Dict.lookup "state" [("looks", JDict [("hair", JStr "red")])]
      = Some (JDict [("hair", JStr "red")]) ->
      ge_attributes
        (mkGeminiEntity None None None [("hair", JStr "red")] []
           [("looks", JDict [("hair", JStr "red")])])
      = [("hair", JStr "red")]
      /\ Dict.mem "state"
           (ge_metadata
              (mkGeminiEntity None None None [("hair", JStr "red")] []
                 [("looks", JDict [("hair", JStr "red")])])) = true).
Proof.
  apply (entity_synonyms [("looks", JDict [("hair", JStr "red")])]).
  reflexivity.
Defined.

(** ** Participants and what the world state keeps of them *)

(** X17.  The participant that [_build_event_actor] returns has the id
    that [resolve_identity] gave, a type that is not empty, and for every
    appearance or attributes key that the payload reports, the payload's
    value, whatever the matched profile holds for it. *)
Theorem participant_of_entity :
  forall (P : Profiles) (py_str : json -> string)
         (py_eq : json -> json -> bool) (py_lower : string -> string)
         (uuid4_hex : nat -> string)
         (entity : GeminiEntity) (draws draws' : nat) (a : EventActor),
    _build_event_actor P py_str py_eq py_lower uuid4_hex entity draws = Ok (a, draws') ->
    (exists p, resolve_identity P py_str py_eq py_lower uuid4_hex entity draws
               = Ok ((ea_entity_id a, p), draws'))
    /\ ea_type a <> ""
    /\ (NoDup (Dict.keys (ge_appearance entity)) ->
        forall k v, Dict.lookup k (ge_appearance entity) = Some v ->
                    Dict.lookup k (ea_appearance a) = Some v)
    /\ (NoDup (Dict.keys (ge_attributes entity)) ->
        forall k v, Dict.lookup k (ge_attributes entity) = Some v ->
                    Dict.lookup k (ea_attributes a) = Some v).
Proof.
  intros P py_str py_eq py_lower uuid4_hex entity draws draws' a B.
  destruct (build_event_actor_maps _ _ _ _ _ _ _ _ _ B)
    as [i [p [pa [pt [R [_ [_ [I [A1 A2]]]]]]]]].
  subst i. split; [eauto|]. split; [|split].
  - unfold _build_event_actor, mbind in B. rewrite R in B. unfold lift in B.
    destruct (update_source _) in B; [|discriminate].
    destruct (update_source _) in B; [|discriminate].
    destruct (to_res _) in B; [|discriminate].
    destruct (validate_str _) as [t|] eqn:V in B; [|discriminate].
    unfold ret in B. inversion B; subst. simpl.
    refine (validate_str_not_empty _ _ _ V).
    now apply truthy_or_default.
  - intros N k v L. rewrite A1, DictFacts.lookup_update.
    now rewrite (lookup_rev_nodup _ _ N), L.
  - intros N k v L. rewrite A2, DictFacts.lookup_update.
    now rewrite (lookup_rev_nodup _ _ N), L.
Qed.

Lemma participant_of_entity_witness :
  (exists p, resolve_identity dyed str_of_text eq_text lower (fun _ => "")
               seen_red 0
             = Ok ((ea_entity_id
                      (mkEventActor "p1" None "person"
                         [("hair", JStr "red")] []), p), 0%nat))
  /\ ea_type (mkEventActor "p1" None "person" [("hair", JStr "red")] []) <> ""
  /\ (NoDup (Dict.keys (ge_appearance seen_red)) ->
      forall k v, Dict.lookup k (ge_appearance seen_red) = Some v ->
                  Dict.lookup k
                    (ea_appearance
                       (mkEventActor "p1" None "person"
                          [("hair", JStr "red")] [])) = Some v)
  /\ (NoDup (Dict.keys (ge_attributes seen_red)) ->
      forall k v, Dict.lookup k (ge_attributes seen_red) = Some v ->
                  Dict.lookup k
                    (ea_attributes
                       (mkEventActor "p1" None "person"
                          [("hair", JStr "red")] [])) = Some v).
Proof.
  apply (participant_of_entity dyed str_of_text eq_text lower (fun _ => "")
           seen_red 0%nat 0%nat).
  reflexivity.
Defined.

Section Sticky.
Import Dict DictFacts.

(** A property of the entry at [id] that no participant breaks holds
  after the loop if it held before. *)
Lemma fold_entry_invariant event (Q : EntityState -> Prop) id :
(forall ws p e, lookup id ws = Some e -> Q e ->
                exists e', lookup id (update_participant event ws p) = Some e'
                           /\ Q e') ->
forall ps ws e,
  lookup id ws = Some e -> Q e ->
  exists e', lookup id (fold_left (update_participant event) ps ws) = Some e'
             /\ Q e'.
Proof.
intros Step. induction ps as [|p ps IH]; intros ws e L Qe; simpl; eauto.
destruct (Step ws p e L Qe) as [e1 [L1 Q1]]. eauto.
Qed.

End Sticky.

(** X18.  What the world state knows of an entity's identity is never
    erased by an event: the entry keeps its entity id, a name that is not
    empty stays a name that is not empty, and so does a type. *)
Theorem known_identity_kept :
  forall (state : SceneState) (event : Event) (id : string)
         (existing : EntityState),
    Dict.lookup id (world_state state) = Some existing ->
    exists e,
      Dict.lookup id (world_state (_update_world_state state event)) = Some e
      /\ es_entity_id e = es_entity_id existing
      /\ (ostr_truthy (es_name existing) = true ->
          ostr_truthy (es_name e) = true)
      /\ (es_type existing <> "" -> es_type e <> "").
Proof.
  intros state event id existing L. unfold _update_world_state. simpl.
  apply (fold_entry_invariant event
           (fun e => es_entity_id e = es_entity_id existing
                     /\ (ostr_truthy (es_name existing) = true ->
                         ostr_truthy (es_name e) = true)
                     /\ (es_type existing <> "" -> es_type e <> "")) id)
    with (e := existing); auto.
  intros ws p e Le [I [N T]].
  destruct (string_dec (ea_entity_id p) id) as [E|NE].
  - destruct (update_participant_self event ws p)
      as [e' [L' [_ [_ [I' [N' T']]]]]].
    rewrite E in L', I', N', T'. rewrite Le in I', N', T'.
    exists e'. split; [exact L'|]. split; [congruence|]. split.
    + intros H. rewrite N'.
      destruct (ostr_truthy (ea_name p)) eqn:Tp; auto.
    + intros H. rewrite T'.
      destruct (String.eqb (ea_type p) "") eqn:Tp; auto.
      now apply String.eqb_neq.
  - exists e. split; auto. now rewrite update_participant_frame.
Qed.

Lemma known_identity_kept_witness :
  exists e,
    Dict.lookup "p1"
      (world_state
         (_update_world_state
            (mkSceneState []
               [("p1", mkEntityState "p1" (Some "Bob") "person" [] []
                         (Some "e1") (Naive 1))])
            (mkEvent "e2" (Naive 2) "observation" None
               (Some (mkEventActor "p1" None "" [] [])) None []))) = Some e
    /\ es_entity_id e = "p1"
    /\ (ostr_truthy (Some "Bob") = true -> ostr_truthy (es_name e) = true)
    /\ ("person" <> "" -> es_type e <> "").
Proof.
  apply (known_identity_kept
           (mkSceneState []
              [("p1", mkEntityState "p1" (Some "Bob") "person" [] []
                        (Some "e1") (Naive 1))])
           (mkEvent "e2" (Naive 2) "observation" None
              (Some (mkEventActor "p1" None "" [] [])) None [])
           "p1"
           (mkEntityState "p1" (Some "Bob") "person" [] [] (Some "e1")
              (Naive 1))).
  reflexivity.
Defined.
